(** * Verification of the crawler subsystem (src/linkedin_crawler.py)

    A shallow embedding of the query builder, the two search clients, the
    result normalizers and the unified strategy selector, followed by the
    properties of the specification that concern them.

    Conventions of the embedding

    - A Python [str] is a [string] of 8-bit characters; character classes
      (whitespace, letters, case) are those of the ASCII range.
    - A Python [int] is a [Z]; list slicing [l[:n]] follows Python for
      negative [n] as well.
    - A JSON record of the Voyager API is a dictionary from field names to
      string values ([gmap string string]); a missing field is an absent key.
    - Library code that the module calls but does not define is either
      modelled from its documented behaviour ([str] methods, the path
      component of [urllib.parse.urlparse], the regular expression of the
      redirect unwrapping) or taken as a parameter (the HTML parser, percent
      decoding, the validity checks [urlparse] performs on the host).
    - Network traffic, sleeps and exceptions are explicit: a computation
      maps a world to an outcome, a new world and the trace of the events
      it performed. *)

From Stdlib Require Import ZArith Ascii String List Bool Lia.
From stdpp Require Import base option list gmap strings.

Local Open Scope Z_scope.
Local Open Scope stdpp_scope.

(* ================================================================== *)
(** * Python string methods *)
(* ================================================================== *)

Module PyStr.

(** [c in chars] for a character [c] and a string [chars]. *)
Fixpoint mem (c : ascii) (chars : string) : bool :=
  match chars with
  | EmptyString => false
  | String d rest => if Ascii.eqb c d then true else mem c rest
  end.

(** [str.isspace] on one character: TAB, LF, VT, FF, CR, the four
    separators 0x1c..0x1f and the space. *)
Definition isspace (c : ascii) : bool :=
  let n := nat_of_ascii c in
  ((9 <=? n)%nat && (n <=? 13)%nat) || ((28 <=? n)%nat && (n <=? 32)%nat).

Definition isupper (c : ascii) : bool :=
  let n := nat_of_ascii c in (65 <=? n)%nat && (n <=? 90)%nat.

Definition islower (c : ascii) : bool :=
  let n := nat_of_ascii c in (97 <=? n)%nat && (n <=? 122)%nat.

Definition isalpha (c : ascii) : bool := isupper c || islower c.

Definition isdigit (c : ascii) : bool :=
  let n := nat_of_ascii c in (48 <=? n)%nat && (n <=? 57)%nat.

Definition toupper (c : ascii) : ascii :=
  if islower c then ascii_of_nat (nat_of_ascii c - 32) else c.

Definition tolower (c : ascii) : ascii :=
  if isupper c then ascii_of_nat (nat_of_ascii c + 32) else c.

(** [bool(s)]: a string is truthy when it is not empty. *)
Definition truthy (s : string) : bool :=
  match s with EmptyString => false | String _ _ => true end.

(** [s.lower()]. *)
Fixpoint lower (s : string) : string :=
  match s with
  | EmptyString => EmptyString
  | String c rest => String (tolower c) (lower rest)
  end.

(** [all(p(c) for c in s)]. *)
Fixpoint forallb (p : ascii -> bool) (s : string) : bool :=
  match s with
  | EmptyString => true
  | String c rest => p c && forallb p rest
  end.

(** Removal of the leading characters that satisfy [p]. *)
Fixpoint lstrip_with (p : ascii -> bool) (s : string) : string :=
  match s with
  | EmptyString => EmptyString
  | String c rest => if p c then lstrip_with p rest else s
  end.

(** Removal of the trailing characters that satisfy [p]. *)
Fixpoint rstrip_with (p : ascii -> bool) (s : string) : string :=
  match s with
  | EmptyString => EmptyString
  | String c rest =>
      match rstrip_with p rest with
      | EmptyString => if p c then EmptyString else String c EmptyString
      | r => String c r
      end
  end.

(** [s.strip()], [s.strip(chars)] and [s.rstrip(chars)]. *)
Definition strip (s : string) : string :=
  rstrip_with isspace (lstrip_with isspace s).

Definition strip_chars (chars s : string) : string :=
  rstrip_with (fun c => mem c chars) (lstrip_with (fun c => mem c chars) s).

Definition rstrip_chars (chars s : string) : string :=
  rstrip_with (fun c => mem c chars) s.

Definition lstrip_chars (chars s : string) : string :=
  lstrip_with (fun c => mem c chars) s.

(** [s.startswith(pre)]. *)
Fixpoint starts_with (pre s : string) : bool :=
  match pre with
  | EmptyString => true
  | String a pre' =>
      match s with
      | EmptyString => false
      | String b s' => Ascii.eqb a b && starts_with pre' s'
      end
  end.

(** [needle in hay]: substring test. *)
Fixpoint contains (needle hay : string) : bool :=
  starts_with needle hay ||
  match hay with
  | EmptyString => false
  | String _ rest => contains needle rest
  end.

(** [s[n:]]. *)
Fixpoint drop (n : nat) (s : string) : string :=
  match n, s with
  | O, _ => s
  | S k, EmptyString => EmptyString
  | S k, String _ rest => drop k rest
  end.

(** [s.split(sep)] for a non-empty [sep]: the segments between the
    non-overlapping occurrences of [sep], scanning from the left.
    [skip] counts the characters of a matched separator still to pass,
    [cur] is the segment being read. *)
Fixpoint split_go (sep : string) (skip : nat) (cur : string) (s : string)
  : list string :=
  match s with
  | EmptyString => [cur]
  | String c rest =>
      match skip with
      | S k => split_go sep k cur rest
      | O =>
          if starts_with sep s
          then cur :: split_go sep (String.length sep - 1) EmptyString rest
          else split_go sep O (cur +:+ String c EmptyString) rest
      end
  end.

Definition split (sep s : string) : list string :=
  split_go sep O EmptyString s.

(** [sep.join(parts)]. *)
Definition join (sep : string) (parts : list string) : string :=
  String.concat sep parts.

(** [s.replace(old, new)] for a non-empty [old]: the segments between the
    occurrences of [old], joined by [new]. *)
Definition replace (old new s : string) : string :=
  join new (split old s).

(** [s.title()]: the first letter of every run of letters in upper case,
    the others in lower case. *)
Fixpoint title_go (previous_is_cased : bool) (s : string) : string :=
  match s with
  | EmptyString => EmptyString
  | String c rest =>
      if isalpha c
      then String (if previous_is_cased then tolower c else toupper c)
                  (title_go true rest)
      else String c (title_go false rest)
  end.

Definition title (s : string) : string := title_go false s.

(** [s.split(c, 1)] when the character [c] occurs in [s]: the text before
    and after its first occurrence. *)
Fixpoint partition_char (c : ascii) (s : string) : option (string * string) :=
  match s with
  | EmptyString => None
  | String d rest =>
      if Ascii.eqb d c then Some (EmptyString, rest)
      else match partition_char c rest with
           | Some (before, after) => Some (String d before, after)
           | None => None
           end
  end.

(** The longest prefix whose characters satisfy [p], and the rest. *)
Fixpoint span (p : ascii -> bool) (s : string) : string * string :=
  match s with
  | EmptyString => (EmptyString, EmptyString)
  | String c rest =>
      if p c then let '(a, b) := span p rest in (String c a, b)
      else (EmptyString, s)
  end.

(** Removal of every character that satisfies [p]. *)
Fixpoint remove_if (p : ascii -> bool) (s : string) : string :=
  match s with
  | EmptyString => EmptyString
  | String c rest => if p c then remove_if p rest else String c (remove_if p rest)
  end.

(** [s[-1]] of a list of strings, [""] standing for the impossible empty
    list ([str.split] returns at least one segment). *)
Definition last_segment (parts : list string) : string :=
  List.last parts EmptyString.

Definition first_segment (parts : list string) : string :=
  List.hd EmptyString parts.

End PyStr.

(** [l[:n]] for a Python integer [n]: the first [n] elements, or all but
    the last [-n] when [n] is negative. *)
Definition py_slice_to {A : Type} (l : list A) (n : Z) : list A :=
  if 0 <=? n then take (Z.to_nat n) l
  else take (length l - Z.to_nat (- n)) l.

(** [a or b] on optional strings: [a] when it is a non-empty string,
    otherwise [b]. *)
Definition py_or (a b : option string) : option string :=
  match a with
  | Some s => if PyStr.truthy s then a else b
  | None => b
  end.

(* ================================================================== *)
(** * Data model (src/models.py) *)
(* ================================================================== *)

Record SearchCriteria := {
  keywords : list string;
  titles : list string;
  locations : list string;
  companies : list string;
  industries : list string;
  current_only : bool
}.

Record Experience := {
  exp_title : string;
  exp_company : string;
  exp_location : option string;
  exp_duration : option string;
  exp_description : option string
}.

Record Education := {
  edu_school : string;
  edu_degree : option string;
  edu_field_of_study : option string;
  edu_years : option string
}.

Record CandidateProfile := {
  name : string;
  headline : option string;
  location : option string;
  profile_url : string;
  connection_degree : option string;
  current_company : option string;
  current_title : option string;
  summary : option string;
  skills : list string;
  experience : list Experience;
  education : list Education
}.

(* ================================================================== *)
(** * Query builder *)
(* ================================================================== *)

(** [_build_search_keywords]: the list [queries] is extended by one query
    per title of [criteria.titles[:3]], then by the location query. *)
Definition _build_search_keywords (criteria : SearchCriteria) : list string :=
  let queries : list string := [] in
  let queries :=
    fold_left
      (fun queries title =>
         let kw := PyStr.join " " (take 4 (keywords criteria)) in
         queries ++ [title +:+ " " +:+ kw])
      (take 3 (titles criteria)) queries in
  match locations criteria with
  | loc :: _ =>
      let kw := PyStr.join " " (take 3 (keywords criteria)) in
      queries ++ [kw +:+ " " +:+ loc]
  | [] => queries
  end.

(* ================================================================== *)
(** * urllib.parse.urlparse (CPython 3.11) *)
(* ================================================================== *)

Module Urllib.

Record ParseResult := {
  scheme : string;
  netloc : string;
  path : string;
  params : string;
  query : string;
  fragment : string
}.

(** [_WHATWG_C0_CONTROL_OR_SPACE]: the characters 0x00..0x20. *)
Definition c0_control_or_space (c : ascii) : bool :=
  (nat_of_ascii c <=? 32)%nat.

(** [_UNSAFE_URL_BYTES_TO_REMOVE]: TAB, CR and LF. *)
Definition unsafe_url_byte (c : ascii) : bool :=
  let n := nat_of_ascii c in
  (n =? 9)%nat || (n =? 13)%nat || (n =? 10)%nat.

Definition scheme_char (c : ascii) : bool :=
  PyStr.isalpha c || PyStr.isdigit c || PyStr.mem c "+-.".

Definition isascii (c : ascii) : bool := (nat_of_ascii c <? 128)%nat.

Definition uses_params : list string :=
  [""; "ftp"; "hdl"; "prospero"; "http"; "imap"; "https"; "shttp"; "rtsp";
   "rtspu"; "sip"; "sips"; "mms"; "sftp"; "tel"].

(** The text before the last occurrence of [c], and the text from that
    occurrence on ([s[:s.rfind(c)]] and [s[s.rfind(c):]]). *)
Fixpoint rsplit_at (c : ascii) (s : string) : option (string * string) :=
  match s with
  | EmptyString => None
  | String d rest =>
      match rsplit_at c rest with
      | Some (a, b) => Some (String d a, b)
      | None => if Ascii.eqb d c then Some (EmptyString, s) else None
      end
  end.

(** [_splitparams]: parameters are looked for in the last path segment. *)
Definition _splitparams (url : string) : string * string :=
  match rsplit_at "/" url with
  | Some (a, b) =>
      match PyStr.partition_char ";" b with
      | Some (b1, b2) => (a +:+ b1, b2)
      | None => (url, EmptyString)
      end
  | None =>
      match PyStr.partition_char ";" url with
      | Some (u, p) => (u, p)
      | None => (url, EmptyString)
      end
  end.

(** [_splitnetloc(url, 2)]: the host part ends at the first of [/?#]. *)
Definition _splitnetloc (url : string) : string * string :=
  PyStr.span (fun c => negb (PyStr.mem c "/?#")) (PyStr.drop 2 url).

(** The scheme of [urlsplit]: the text before the first colon when it is
    not empty, starts with a letter and is made of scheme characters. *)
Definition split_scheme (url : string) : string * string :=
  match PyStr.partition_char ":" url with
  | Some (String c0 before, after) =>
      if PyStr.isalpha c0 && PyStr.forallb scheme_char (String c0 before)
      then (PyStr.lower (String c0 before), after)
      else (EmptyString, url)
  | _ => (EmptyString, url)
  end.

(** The host part of [urlsplit], present when the text starts with [//]. *)
Definition split_authority (url : string) : string * string :=
  if PyStr.starts_with "//" url then _splitnetloc url
  else (EmptyString, url).

(** [url, rest = url.split(c, 1)] when [c] is in [url]. *)
Definition split_at_char (c : ascii) (url : string) : string * string :=
  match PyStr.partition_char c url with
  | Some (u, rest) => (u, rest)
  | None => (url, EmptyString)
  end.

Section Checks.
(** [_check_bracketed_netloc] accepts the host part (called when it
    holds both brackets), and [_checknetloc] accepts it after NFKC
    normalisation (called when it holds a character outside ASCII). *)
Variable bracketed_ok : string -> bool.
Variable nfkc_ok : string -> bool.

(** [false] when [urlsplit] raises [ValueError] on this host part. *)
Definition netloc_accepted (netloc : string) : bool :=
  let lb := PyStr.mem "[" netloc in
  let rb := PyStr.mem "]" netloc in
  negb ((lb && negb rb) || (rb && negb lb))
  && (if lb && rb then bracketed_ok netloc else true)
  && (if PyStr.truthy netloc && negb (PyStr.forallb isascii netloc)
      then nfkc_ok netloc else true).

(** [urlsplit(url)]; [None] stands for the [ValueError] it raises. *)
Definition urlsplit (url : string) : option ParseResult :=
  let url := PyStr.lstrip_with c0_control_or_space url in
  let url := PyStr.remove_if unsafe_url_byte url in
  let '(scheme, url) := split_scheme url in
  let '(netloc, url) := split_authority url in
  if negb (netloc_accepted netloc) then None
  else
    let '(url, fragment) := split_at_char "#" url in
    let '(url, query) := split_at_char "?" url in
    Some {| scheme := scheme; netloc := netloc; path := url;
            params := EmptyString; query := query; fragment := fragment |}.

(** [urlparse(url)]. *)
Definition urlparse (url : string) : option ParseResult :=
  match urlsplit url with
  | None => None
  | Some r =>
      if bool_decide (scheme r ∈ uses_params) && PyStr.mem ";" (path r)
      then let '(u, p) := _splitparams (path r) in
           Some {| scheme := scheme r; netloc := netloc r; path := u;
                   params := p; query := query r; fragment := fragment r |}
      else Some r
  end.
End Checks.

End Urllib.

(* ================================================================== *)
(** * Exceptions and results *)
(* ================================================================== *)

(** The exceptions that the modelled code raises or lets through, all of
    them instances of [Exception]; [HTTPError] stands for any instance of
    [httpx.HTTPError].  Signals outside the [Exception] hierarchy (task
    cancellation, keyboard interrupt) are not part of the model. *)
Inductive exn :=
| HTTPError
| JSONDecodeError
| ValueError
| OtherError (what : string).

Definition is_HTTPError (e : exn) : bool :=
  match e with HTTPError => true | _ => false end.

Inductive outcome (A : Type) :=
| Returned (a : A)
| Raised (e : exn).
Arguments Returned {A} a.
Arguments Raised {A} e.

(* ================================================================== *)
(** * Fallback parser: Google result markup *)
(* ================================================================== *)

(** One element of [soup.select("a[href]")]: its [href] attribute and the
    text of the nearest enclosing [div],
    [a_tag.find_parent("div").get_text(" ", strip=True)], when there is
    one. *)
Record a_tag := {
  href : string;
  parent_div_text : option string
}.

(** [parent.get_text(" ", strip=True) if parent else ""]. *)
Definition anchor_text (a : a_tag) : string :=
  match parent_div_text a with Some t => t | None => EmptyString end.

(** The pattern [/url\?q=(https?://[^&]+)] matched at the start of [s]:
    group 1 of the match. *)
Definition redirect_match_at (s : string) : option string :=
  if PyStr.starts_with "/url?q=" s then
    let r := PyStr.drop 7 s in
    let group (pre : string) (rest : string) :=
      match PyStr.span (fun c => negb (Ascii.eqb c "&")) rest with
      | (EmptyString, _) => None
      | (g, _) => Some (pre +:+ g)
      end in
    if PyStr.starts_with "https://" r then group "https://" (PyStr.drop 8 r)
    else if PyStr.starts_with "http://" r then group "http://" (PyStr.drop 7 r)
    else None
  else None.

(** [re.search(r"/url\?q=(https?://[^&]+)", s)]: the leftmost match. *)
Fixpoint redirect_search (s : string) : option string :=
  match redirect_match_at s with
  | Some g => Some g
  | None =>
      match s with
      | EmptyString => None
      | String _ rest => redirect_search rest
      end
  end.

Definition LINKEDIN_HOST_PREFIX : string := "https://www.linkedin.com".

Definition stub_profile (name : string) (headline : option string)
    (profile_url : string) : CandidateProfile :=
  {| name := name; headline := headline; location := None;
     profile_url := profile_url; connection_degree := None;
     current_company := None; current_title := headline; summary := None;
     skills := []; experience := []; education := [] |}.

(** [public_id] of a normalised path:
    [path.split("/in/")[-1].split("/")[0] if "/in/" in path else ""]. *)
Definition public_id_of_path (path : string) : string :=
  if PyStr.contains "/in/" path
  then PyStr.first_segment
         (PyStr.split "/" (PyStr.last_segment (PyStr.split "/in/" path)))
  else EmptyString.

(** Name and headline recovered from the snippet text, given the public
    identifier. *)
Definition snippet_name_headline (public_id text_block : string)
  : string * option string :=
  let name := PyStr.title (PyStr.replace "-" " " public_id) in
  let headline : option string := None in
  if PyStr.contains " - " text_block then
    let parts := PyStr.split " - " text_block in
    if (2 <=? length parts)%nat then
      let first := PyStr.strip (nth 0 parts EmptyString) in
      (if PyStr.truthy first then first else name,
       Some (PyStr.strip (nth 1 parts EmptyString)))
    else (name, headline)
  else (name, headline).

Section GoogleParser.
(** [urllib.parse.unquote]. *)
Variable unquote : string -> string.
Variable bracketed_ok : string -> bool.
Variable nfkc_ok : string -> bool.
(** [BeautifulSoup(html, "html.parser").select("a[href]")], each anchor
    with the text of its enclosing [div]. *)
Variable soup_select : string -> list a_tag.

(** The link an anchor points to once a [/url?q=...] wrapper is removed. *)
Definition unwrap_redirect (href : string) : string :=
  if PyStr.contains "/url?q=" href then
    match redirect_search href with
    | Some g => unquote g
    | None => href
    end
  else href.

(** The body of the loop of [_parse_google_results] for one anchor:
    [Returned None] is a [continue], [Returned (Some p)] an append of
    [p], [Raised ValueError] the exception of [urlparse]. *)
Definition google_anchor (a : a_tag) : outcome (option CandidateProfile) :=
  let href := unwrap_redirect (href a) in
  if negb (PyStr.contains "linkedin.com/in/" href) then Returned None
  else
    match Urllib.urlparse bracketed_ok nfkc_ok href with
    | None => Raised ValueError
    | Some parsed =>
        let path := PyStr.rstrip_chars "/" (Urllib.path parsed) in
        let profile_url := LINKEDIN_HOST_PREFIX +:+ path in
        let public_id := public_id_of_path path in
        if negb (PyStr.truthy public_id) then Returned None
        else
          let text_block := anchor_text a in
          let '(name, headline) := snippet_name_headline public_id text_block in
          Returned (Some (stub_profile name headline profile_url))
    end.

Fixpoint google_loop (tags : list a_tag) (candidates : list CandidateProfile)
  : outcome (list CandidateProfile) :=
  match tags with
  | [] => Returned candidates
  | a :: rest =>
      match google_anchor a with
      | Raised e => Raised e
      | Returned None => google_loop rest candidates
      | Returned (Some p) => google_loop rest (candidates ++ [p])
      end
  end.

(** [GoogleXRayCrawler._parse_google_results] on the selected anchors. *)
Definition parse_google_anchors (tags : list a_tag)
  : outcome (list CandidateProfile) :=
  google_loop tags [].

(** [GoogleXRayCrawler._parse_google_results]. *)
Definition _parse_google_results (html : string)
  : outcome (list CandidateProfile) :=
  parse_google_anchors (soup_select html).
End GoogleParser.

(* ================================================================== *)
(** * Structured-API normalizers *)
(* ================================================================== *)

(** A record of the [included] array. *)
Abbreviation item := (gmap string string).

(** A decoded response body: [data.get("included", [])] reads the array,
    [None] standing for a body without the key. *)
Record voyager := { included : option (list item) }.

(** [item.get(key, default)] and [item.get(key)]. *)
Definition get_default (it : item) (key default : string) : string :=
  match it !! key with Some v => v | None => default end.

Definition get (it : item) (key : string) : option string := it !! key.

Definition LINKEDIN_PROFILE_VIEW (public_id : string) : string :=
  "https://www.linkedin.com/in/" +:+ public_id.

(** [" ".join(p for p in name_parts if p).strip()] of a search record. *)
Definition search_item_name (it : item) : string :=
  let name_parts := [get_default it "firstName" ""; get_default it "lastName" ""] in
  PyStr.strip (PyStr.join " " (List.filter PyStr.truthy name_parts)).

(** The body of the loop of [_parse_search_results] for one record:
    [None] when nothing is appended. *)
Definition search_item (it : item) : option CandidateProfile :=
  let entity_type := get_default it "$type" "" in
  if PyStr.contains "MiniProfile" entity_type || PyStr.contains "Profile" entity_type
  then
    let public_id :=
      py_or (get it "publicIdentifier") (Some (get_default it "public_id" "")) in
    match public_id with
    | Some (String c rest as public_id) =>
        let name := search_item_name it in
        if negb (PyStr.truthy name) then None
        else Some {| name := name;
                     headline := py_or (get it "occupation") (get it "headline");
                     location := get it "locationName";
                     profile_url := LINKEDIN_PROFILE_VIEW public_id;
                     connection_degree := None;
                     current_company := None;
                     current_title := get it "occupation";
                     summary := None;
                     skills := []; experience := []; education := [] |}
    | _ => None
    end
  else None.

(** [LinkedInAuthenticatedCrawler._parse_search_results]. *)
Definition _parse_search_results (data : voyager) : list CandidateProfile :=
  let candidates : list CandidateProfile := [] in
  let included := match included data with Some l => l | None => [] end in
  fold_left
    (fun candidates it =>
       match search_item it with
       | Some c => candidates ++ [c]
       | None => candidates
       end)
    included candidates.

(** The variables of the loop of [_parse_full_profile]. *)
Record full_profile_acc := {
  profile_data : item;
  experiences : list Experience;
  educations : list Education;
  skill_names : list string
}.

Definition full_profile_step (public_id : string) (acc : full_profile_acc)
    (it : item) : full_profile_acc :=
  let t := get_default it "$type" "" in
  if PyStr.contains "Profile" t
     && bool_decide (get it "publicIdentifier" = Some public_id)
  then {| profile_data := it; experiences := experiences acc;
          educations := educations acc; skill_names := skill_names acc |}
  else if PyStr.contains "Position" t
  then {| profile_data := profile_data acc;
          experiences :=
            experiences acc ++
            [{| exp_title := get_default it "title" "Unknown";
                exp_company := get_default it "companyName" "Unknown";
                exp_location := get it "locationName";
                exp_duration := None;
                exp_description := get it "description" |}];
          educations := educations acc; skill_names := skill_names acc |}
  else if PyStr.contains "Education" t
  then {| profile_data := profile_data acc; experiences := experiences acc;
          educations :=
            educations acc ++
            [{| edu_school := get_default it "schoolName" "Unknown";
                edu_degree := get it "degreeName";
                edu_field_of_study := get it "fieldOfStudy";
                edu_years := None |}];
          skill_names := skill_names acc |}
  else if PyStr.contains "Skill" t
  then match get it "name" with
       | Some (String c rest as skill_name) =>
           {| profile_data := profile_data acc; experiences := experiences acc;
              educations := educations acc;
              skill_names := skill_names acc ++ [skill_name] |}
       | _ => acc
       end
  else acc.

(** [filter(None, values)]: the values that are present and not empty. *)
Definition filter_none (values : list (option string)) : list string :=
  omap (fun v => match v with
                 | Some s => if PyStr.truthy s then Some s else None
                 | None => None
                 end) values.

(** [LinkedInAuthenticatedCrawler._parse_full_profile]. *)
Definition _parse_full_profile (data : voyager) (public_id : string)
  : CandidateProfile :=
  let included := match included data with Some l => l | None => [] end in
  let acc :=
    fold_left (full_profile_step public_id) included
      {| profile_data := ∅; experiences := []; educations := [];
         skill_names := [] |} in
  let joined :=
    PyStr.join " " (filter_none [get (profile_data acc) "firstName";
                                 get (profile_data acc) "lastName"]) in
  let name := if PyStr.truthy joined then joined else "Unknown" in
  {| name := name;
     headline := get (profile_data acc) "headline";
     location := get (profile_data acc) "locationName";
     profile_url := LINKEDIN_PROFILE_VIEW public_id;
     connection_degree := None;
     current_company := None;
     current_title := get (profile_data acc) "headline";
     summary := get (profile_data acc) "summary";
     skills := skill_names acc;
     experience := experiences acc;
     education := educations acc |}.

(* ================================================================== *)
(** * Deduplication *)
(* ================================================================== *)

(** The closing loop of both [search_people] methods: [seen] is the set of
    profile URLs met so far, [unique] the profiles kept. *)
Definition dedup_step (st : gset string * list CandidateProfile)
    (c : CandidateProfile) : gset string * list CandidateProfile :=
  let '(seen, unique) := st in
  if bool_decide (profile_url c ∈ seen) then (seen, unique)
  else ({[profile_url c]} ∪ seen, unique ++ [c]).

Definition deduplicate (candidates : list CandidateProfile)
  : list CandidateProfile :=
  snd (fold_left dedup_step candidates (∅, [])).

(** [return unique[:max_results]]. *)
Definition dedup_truncate (candidates : list CandidateProfile) (max_results : Z)
  : list CandidateProfile :=
  py_slice_to (deduplicate candidates) max_results.

(* ================================================================== *)
(** * Network, events and computations *)
(* ================================================================== *)

Record response := {
  status_code : Z;
  (** [resp.json()]; [None] when decoding the body raises. *)
  json : option voyager;
  (** [resp.text] *)
  text : string;
  (** [resp.cookies.get("JSESSIONID")] *)
  jsessionid : option string
}.

Inductive http_result :=
| Resp (r : response)
| GetRaises (e : exn).

Inductive request :=
| FeedPage (li_at : string)
| VoyagerSearch (li_at csrf query : string) (count : Z)
| VoyagerProfile (li_at public_id : string)
| GoogleSearch (q : string) (num : Z).

Inductive client_kind := AuthenticatedClient | GoogleClient.

Inductive event :=
| EvGet (r : request)
| EvSleep (seconds : Z)
| EvPoliteDelay (lo hi : Z)
| EvSearchPeople (k : client_kind).

(** The mutable state: the token cached by the authenticated crawler and
    the number of requests sent so far. *)
Record world := {
  _csrf_token : option string;
  clock : nat
}.

(** The world after one more request. *)
Definition tick (w : world) : world :=
  {| _csrf_token := _csrf_token w; clock := S (clock w) |}.

Definition M (A : Type) : Type := world -> outcome A * world * list event.

Definition ret {A} (a : A) : M A := fun w => (Returned a, w, []).

Definition bind {A B} (m : M A) (k : A -> M B) : M B :=
  fun w =>
    match m w with
    | (Returned a, w1, t1) =>
        let '(r, w2, t2) := k a w1 in (r, w2, t1 ++ t2)
    | (Raised e, w1, t1) => (Raised e, w1, t1)
    end.

Definition raise {A} (e : exn) : M A := fun w => (Raised e, w, []).

Definition tell (ev : event) : M unit := fun w => (Returned tt, w, [ev]).

(** [try: m  except <class>: handler], the class given by [catches]. *)
Definition try_except {A} (m : M A) (catches : exn -> bool) (handler : exn -> M A)
  : M A :=
  fun w =>
    match m w with
    | (Raised e, w1, t1) =>
        if catches e
        then let '(r, w2, t2) := handler e w1 in (r, w2, t1 ++ t2)
        else (Raised e, w1, t1)
    | done => done
    end.

Notation "'let*' x ':=' m 'in' k" := (bind m (fun x => k))
  (at level 10, x name, m at level 100, k at level 200).
Notation "m1 ';;' m2" := (bind m1 (fun _ => m2))
  (at level 100, m2 at level 200, right associativity).

Definition dquote : string := String "034"%char EmptyString.

(** The phrase query sent to Google, [site:linkedin.com/in] followed by the
    query between double quotes. *)
Definition site_query (query : string) : string :=
  "site:linkedin.com/in " +:+ dquote +:+ query +:+ dquote.

Section Clients.
(** The answer of the network to the [n]-th request. *)
Variable net : nat -> request -> http_result.
Variable unquote : string -> string.
Variable bracketed_ok : string -> bool.
Variable nfkc_ok : string -> bool.
Variable soup_select : string -> list a_tag.

(** [await client.get(...)]. *)
Definition http_get (r : request) : M response :=
  fun w =>
    match net (clock w) r with
    | Resp resp => (Returned resp, tick w, [EvGet r])
    | GetRaises e => (Raised e, tick w, [EvGet r])
    end.

(** [resp.json()]. *)
Definition resp_json (resp : response) : M voyager :=
  match json resp with
  | Some data => ret data
  | None => raise JSONDecodeError
  end.

(** [await asyncio.sleep(seconds)]. *)
Definition sleep (seconds : Z) : M unit := tell (EvSleep seconds).

(** [await _polite_delay(lo, hi)]: a sleep of [random.uniform(lo, hi)]. *)
Definition _polite_delay (lo hi : Z) : M unit := tell (EvPoliteDelay lo hi).

Definition set_csrf (tok : string) : M unit :=
  fun w => (Returned tt, {| _csrf_token := Some tok; clock := clock w |}, []).

(** [LinkedInAuthenticatedCrawler._get_csrf_token]. *)
Definition _get_csrf_token (li_at : string) : M string :=
  fun w =>
    match _csrf_token w with
    | Some (String c rest as tok) => (Returned tok, w, [])
    | _ =>
        (let* resp := http_get (FeedPage li_at) in
         let jsessionid :=
           match jsessionid resp with Some v => v | None => EmptyString end in
         let tok := PyStr.strip_chars dquote jsessionid in
         set_csrf tok ;;
         ret tok) w
    end.

(** The [try] statement of the loop of
    [LinkedInAuthenticatedCrawler.search_people] for one query; the
    result is the list [candidates] after it. *)
Definition voyager_query (li_at csrf query : string) (max_results : Z)
    (candidates : list CandidateProfile) : M (list CandidateProfile) :=
  try_except
    (let* resp :=
       http_get (VoyagerSearch li_at csrf query
                   (Z.min 25 (max_results - Z.of_nat (length candidates)))) in
     if status_code resp =? 200 then
       let* data := resp_json resp in
       let new_candidates := _parse_search_results data in
       ret (candidates ++ new_candidates)
     else if status_code resp =? 429 then
       sleep 60 ;; ret candidates
     else ret candidates)
    is_HTTPError
    (fun exc => ret candidates).

Fixpoint voyager_loop (li_at csrf : string) (max_results : Z)
    (queries : list string) (candidates : list CandidateProfile)
  : M (list CandidateProfile) :=
  match queries with
  | [] => ret candidates
  | query :: rest =>
      if Z.of_nat (length candidates) >=? max_results then ret candidates
      else
        let* candidates := voyager_query li_at csrf query max_results candidates in
        _polite_delay 2 5 ;;
        voyager_loop li_at csrf max_results rest candidates
  end.

(** The list [candidates] of [LinkedInAuthenticatedCrawler.search_people]
    when the loop over the queries is left. *)
Definition voyager_accumulate (li_at : string) (criteria : SearchCriteria)
    (max_results : Z) : M (list CandidateProfile) :=
  let* csrf := _get_csrf_token li_at in
  let queries := _build_search_keywords criteria in
  voyager_loop li_at csrf max_results queries [].

(** [LinkedInAuthenticatedCrawler.search_people]. *)
Definition voyager_search_people (li_at : string) (criteria : SearchCriteria)
    (max_results : Z) : M (list CandidateProfile) :=
  let* candidates := voyager_accumulate li_at criteria max_results in
  ret (dedup_truncate candidates max_results).

(** [LinkedInAuthenticatedCrawler.enrich_profile]. *)
Definition enrich_profile (li_at public_id : string)
  : M (option CandidateProfile) :=
  try_except
    (let* resp := http_get (VoyagerProfile li_at public_id) in
     if status_code resp =? 200 then
       let* data := resp_json resp in
       ret (Some (_parse_full_profile data public_id))
     else ret None)
    is_HTTPError
    (fun exc => ret None).

(** [self._parse_google_results(resp.text)] inside a computation. *)
Definition parse_google_text (html : string) : M (list CandidateProfile) :=
  match _parse_google_results unquote bracketed_ok nfkc_ok soup_select html with
  | Returned new => ret new
  | Raised e => raise e
  end.

(** The [try] statement of the loop of [GoogleXRayCrawler.search_people]. *)
Definition google_query (query : string)
    (candidates : list CandidateProfile) : M (list CandidateProfile) :=
  try_except
    (let* resp := http_get (GoogleSearch (site_query query) 10) in
     if status_code resp =? 200 then
       let* new := parse_google_text (text resp) in
       ret (candidates ++ new)
     else if status_code resp =? 429 then
       sleep 30 ;; ret candidates
     else ret candidates)
    is_HTTPError
    (fun exc => ret candidates).

Fixpoint google_search_loop (max_results : Z) (queries : list string)
    (candidates : list CandidateProfile) : M (list CandidateProfile) :=
  match queries with
  | [] => ret candidates
  | query :: rest =>
      if Z.of_nat (length candidates) >=? max_results then ret candidates
      else
        let* candidates := google_query query candidates in
        _polite_delay 3 7 ;;
        google_search_loop max_results rest candidates
  end.

Definition google_accumulate (criteria : SearchCriteria) (max_results : Z)
  : M (list CandidateProfile) :=
  let queries := _build_search_keywords criteria in
  google_search_loop max_results queries [].

(** [GoogleXRayCrawler.search_people]. *)
Definition google_search_people (criteria : SearchCriteria) (max_results : Z)
  : M (list CandidateProfile) :=
  let* candidates := google_accumulate criteria max_results in
  ret (dedup_truncate candidates max_results).
End Clients.

(* ================================================================== *)
(** * Unified crawler *)
(* ================================================================== *)

(** What [search] needs of a client: its [search_people] method. *)
Definition client : Type := SearchCriteria -> Z -> M (list CandidateProfile).

(** [await c.search_people(criteria, max_results=max_results)], the call
    being recorded in the trace. *)
Definition call_search_people (k : client_kind) (c : client)
    (criteria : SearchCriteria) (max_results : Z) : M (list CandidateProfile) :=
  tell (EvSearchPeople k) ;; c criteria max_results.

Definition nonempty {A} (l : list A) : bool :=
  match l with [] => false | _ :: _ => true end.

(** [LinkedInCrawler.search] over the two clients held by the crawler.
    The [try] block yields [Some profiles] where the source returns from
    inside it, and [None] where control reaches the fallback. *)
Definition search (_authenticated : option client) (_google : client)
    (criteria : SearchCriteria) (max_results : Z)
  : M (list CandidateProfile * list string) :=
  let queries_used := _build_search_keywords criteria in
  let* early :=
    match _authenticated with
    | Some authenticated =>
        try_except
          (let* profiles :=
             call_search_people AuthenticatedClient authenticated
               criteria max_results in
           if nonempty profiles then ret (Some profiles) else ret None)
          (fun _ => true)
          (fun exc => ret None)
    | None => ret None
    end in
  match early with
  | Some profiles => ret (profiles, queries_used)
  | None =>
      let* profiles :=
        call_search_people GoogleClient _google criteria max_results in
      ret (profiles, queries_used)
  end.

(** [LinkedInCrawler.__init__]: the authenticated client exists when the
    cookie is a non-empty string. *)
Definition LinkedInCrawler_authenticated (li_at_cookie : option string)
  : option string :=
  match li_at_cookie with
  | Some (String c rest as cookie) => Some cookie
  | _ => None
  end.

(** [LinkedInCrawler(li_at_cookie).search] with the two clients of the
    module. *)
Definition LinkedInCrawler_search
    (net : nat -> request -> http_result) (unquote : string -> string)
    (bracketed_ok nfkc_ok : string -> bool) (soup_select : string -> list a_tag)
    (li_at_cookie : option string)
    (criteria : SearchCriteria) (max_results : Z)
  : M (list CandidateProfile * list string) :=
  search
    (option_map (voyager_search_people net) (LinkedInCrawler_authenticated li_at_cookie))
    (google_search_people net unquote bracketed_ok nfkc_ok soup_select)
    criteria max_results.

(* ================================================================== *)
(** * The pipeline around the crawler
      (src/job_parser.py, src/candidate_ranker.py, src/agent.py) *)
(* ================================================================== *)

(** Conventions of this part

    - A decoded JSON document is a [jval]; [json.loads] is a parameter that
      returns one or raises.
    - The language model is a parameter: the text of the first content
      block of the [n]-th call of [client.messages.create], or the
      exception raised on the way.
    - The validation pydantic performs when a model is built is a
      parameter, field by field; a failed validation raises
      [ValidationError], an instance of [ValueError].
    - A score is a rational number: a validated score is a finite float. *)

From Stdlib Require QArith.

Abbreviation Q := QArith_base.Q.
Abbreviation Qle_bool := QArith_base.Qle_bool.
Abbreviation Qeq_bool := QArith_base.Qeq_bool.
Abbreviation Qle := QArith_base.Qle.
Abbreviation Qeq := QArith_base.Qeq.
Definition Q0 : Q := QArith_base.Qmake 0 1.

(** ** More Python string methods *)

Definition NEWLINE : string := String "010"%char EmptyString.
Definition FENCE : string := "```".

(** [s.index(sub)]: the lowest index where [sub] starts, [None] standing
    for the [ValueError] raised when there is none. *)
Fixpoint str_index (sub s : string) : option nat :=
  if PyStr.starts_with sub s then Some O
  else match s with
       | EmptyString => None
       | String _ rest => option_map S (str_index sub rest)
       end.

(** [s.rfind(sub)]: the highest index where [sub] starts, -1 when there is
    none. *)
Fixpoint str_rfind (sub s : string) : Z :=
  match s with
  | EmptyString => if PyStr.starts_with sub s then 0 else -1
  | String _ rest =>
      let r := str_rfind sub rest in
      if 0 <=? r then r + 1
      else if PyStr.starts_with sub s then 0 else -1
  end.

(** The position a slice bound [i] denotes in a sequence of length [len]:
    counted from the end when negative, and clipped to the sequence. *)
Definition slice_bound (len : nat) (i : Z) : nat :=
  if 0 <=? i then Nat.min (Z.to_nat i) len
  else (len - Z.to_nat (- i))%nat.

(** [s[lo:hi]]. *)
Definition str_slice (s : string) (lo hi : Z) : string :=
  let len := String.length s in
  let lo' := slice_bound len lo in
  let hi' := slice_bound len hi in
  String.substring lo' (hi' - lo') s.

(** The opening lines of [JobDescriptionParser._extract_json] and of
    [CandidateRanker._parse_scores], which are the same: the text without
    a surrounding Markdown fence.

    [text = text.strip()]
    [if text.startswith(FENCE):]
    [    first_nl = text.index(NEWLINE)]
    [    last_fence = text.rfind(FENCE)]
    [    text = text[first_nl + 1 : last_fence].strip()] *)
Definition strip_fences (text : string) : outcome string :=
  let text := PyStr.strip text in
  if PyStr.starts_with FENCE text then
    match str_index NEWLINE text with
    | None => Raised ValueError
    | Some first_nl =>
        let last_fence := str_rfind FENCE text in
        Returned (PyStr.strip (str_slice text (Z.of_nat first_nl + 1) last_fence))
    end
  else Returned text.

(** ** JSON documents *)

#[warnings="-register-all"]
Inductive jval :=
| JNull
| JBool (b : bool)
| JNum (x : Q)
(** [NaN], [Infinity] and [-Infinity], which [json.loads] accepts *)
| JNonFinite
| JStr (s : string)
| JList (items : list jval)
| JDict (entries : list (string * jval)).

Abbreviation jdict := (list (string * jval)).

(** [d.get(key, default)] on a decoded object. *)
Definition dict_get (d : jdict) (key : string) (default : jval) : jval :=
  match List.find (fun kv => String.eqb (fst kv) key) d with
  | Some kv => snd kv
  | None => default
  end.

Definition is_JSONDecodeError (e : exn) : bool :=
  match e with JSONDecodeError => true | _ => false end.

(** [JobDescriptionParser._extract_json]. *)
Definition _extract_json (json_loads : string -> outcome jval) (text : string)
  : outcome jval :=
  match strip_fences text with
  | Raised e => Raised e
  | Returned text => json_loads text
  end.

(** ** Candidate ranker (src/candidate_ranker.py) *)

Record CandidateMatch := {
  candidate : CandidateProfile;
  overall_score : Q;
  skill_match_score : Q;
  experience_match_score : Q;
  reasoning : string;
  strengths : list string;
  gaps : list string
}.

(** The values a [for] statement binds when it iterates over a decoded
    document: the items of an array, the keys of an object, the characters
    of a string; anything else is not iterable. *)
Fixpoint chars_of (s : string) : list jval :=
  match s with
  | EmptyString => []
  | String c rest => JStr (String c EmptyString) :: chars_of rest
  end.

Definition iterate (v : jval) : outcome (list jval) :=
  match v with
  | JList items => Returned items
  | JDict entries => Returned (JStr <$> (fst <$> entries))
  | JStr s => Returned (chars_of s)
  | _ => Raised (OtherError "TypeError")
  end.

(** The body of the loop that fills [score_map]:
    [url = s.get("profile_url", ""); score_map[url] = s].  Only a
    dictionary has [get], and a list or a dictionary cannot be a key; a
    key that is no string is never looked up afterwards. *)
Definition score_map_step (score_map : gmap string jdict) (s : jval)
  : outcome (gmap string jdict) :=
  match s with
  | JDict d =>
      match dict_get d "profile_url" (JStr "") with
      | JStr url => Returned (<[url := d]> score_map)
      | JList _ | JDict _ => Raised (OtherError "TypeError")
      | _ => Returned score_map
      end
  | _ => Raised (OtherError "AttributeError")
  end.

Fixpoint build_score_map (scores : list jval) (score_map : gmap string jdict)
  : outcome (gmap string jdict) :=
  match scores with
  | [] => Returned score_map
  | s :: rest =>
      match score_map_step score_map s with
      | Returned score_map => build_score_map rest score_map
      | Raised e => Raised e
      end
  end.

Definition UNAVAILABLE : string :=
  "Scoring unavailable — could not parse LLM response.".

(** The match built for every candidate of the batch when the reply cannot
    be decoded. *)
Definition unscored (c : CandidateProfile) : CandidateMatch :=
  {| candidate := c; overall_score := Q0; skill_match_score := Q0;
     experience_match_score := Q0; reasoning := UNAVAILABLE;
     strengths := []; gaps := [] |}.

(** [all_matches.sort(key=lambda m: m.overall_score, reverse=True)]: the
    stable sort by decreasing score, each match being inserted after the
    matches already placed whose score is not lower. *)
Fixpoint insert_by_score (m : CandidateMatch) (sorted : list CandidateMatch)
  : list CandidateMatch :=
  match sorted with
  | [] => [m]
  | x :: rest =>
      if Qle_bool (overall_score m) (overall_score x)
      then x :: insert_by_score m rest
      else m :: x :: rest
  end.

Definition sort_by_score (matches : list CandidateMatch) : list CandidateMatch :=
  fold_left (fun sorted m => insert_by_score m sorted) matches [].

(** [range(0, stop, step)] for a [stop] that is not negative. *)
Definition py_range (stop : nat) (step : Z) : outcome (list nat) :=
  if step =? 0 then Raised ValueError
  else if step <? 0 then Returned []
  else Returned ((fun k => (k * Z.to_nat step)%nat)
                   <$> seq 0 (Nat.div (stop + Z.to_nat step - 1) (Z.to_nat step))).

(** The three conversations the pipeline has with the language model. *)
Inductive prompt :=
| PARSE_JOB_SYSTEM
| SEARCH_CRITERIA_SYSTEM
| RANKING_SYSTEM.

Section Pipeline.
(** [JobRequirements], of which the pipeline only passes values on. *)
Variable JobRequirements : Type.
(** [json.loads]. *)
Variable json_loads : string -> outcome jval.
(** [client.messages.create(...).content[0].text] of the [n]-th call, for
    a system prompt and a user message. *)
Variable llm : nat -> prompt -> string -> outcome string.
(** The validation of the fields of [CandidateMatch]: a score (a float
    from 0 to 100), the reasoning (a string), and the strengths and gaps
    (lists of strings). *)
Variable validate_score : jval -> option Q.
Variable validate_reasoning : jval -> option string.
Variable validate_strings : jval -> option (list string).
(** The constructors [JobRequirements] and [SearchCriteria] applied to the
    fields of a decoded document. *)
Variable validate_requirements : jval -> outcome JobRequirements.
Variable validate_criteria : jval -> outcome SearchCriteria.
(** The user messages: [requirements.model_dump_json(indent=2)] and the
    text built from the requirements and the batch. *)
Variable dump_requirements : JobRequirements -> string.
Variable ranking_message : JobRequirements -> list CandidateProfile -> string.

(** The [CandidateMatch] built for one candidate from [score_map]. *)
Definition scored (score_map : gmap string jdict) (c : CandidateProfile)
  : outcome CandidateMatch :=
  let s := match score_map !! profile_url c with Some d => d | None => [] end in
  match validate_score (dict_get s "overall_score" (JNum Q0)),
        validate_score (dict_get s "skill_match_score" (JNum Q0)),
        validate_score (dict_get s "experience_match_score" (JNum Q0)),
        validate_reasoning (dict_get s "reasoning" (JStr "No score available.")),
        validate_strings (dict_get s "strengths" (JList [])),
        validate_strings (dict_get s "gaps" (JList [])) with
  | Some overall, Some skill, Some exp, Some why, Some pros, Some contras =>
      Returned {| candidate := c; overall_score := overall;
                  skill_match_score := skill; experience_match_score := exp;
                  reasoning := why; strengths := pros; gaps := contras |}
  | _, _, _, _, _, _ => Raised ValueError
  end.

Fixpoint scored_all (score_map : gmap string jdict)
    (candidates : list CandidateProfile) (matches : list CandidateMatch)
  : outcome (list CandidateMatch) :=
  match candidates with
  | [] => Returned matches
  | c :: rest =>
      match scored score_map c with
      | Returned m => scored_all score_map rest (matches ++ [m])
      | Raised e => Raised e
      end
  end.

(** [CandidateRanker._parse_scores]. *)
Definition _parse_scores (text : string) (candidates : list CandidateProfile)
  : outcome (list CandidateMatch) :=
  match strip_fences text with
  | Raised e => Raised e
  | Returned text =>
      match json_loads text with
      | Raised e =>
          if is_JSONDecodeError e then Returned (unscored <$> candidates)
          else Raised e
      | Returned scores =>
          match iterate scores with
          | Raised e => Raised e
          | Returned items =>
              match build_score_map items ∅ with
              | Raised e => Raised e
              | Returned score_map => scored_all score_map candidates []
              end
          end
      end
  end.

(** The loop of [rank_candidates] over the start indices of the batches;
    [calls] counts the calls of the language model so far. *)
Fixpoint rank_batches (starts : list nat) (batch_size : Z)
    (candidates : list CandidateProfile) (requirements : JobRequirements)
    (all_matches : list CandidateMatch) (calls : nat)
  : outcome (list CandidateMatch) * nat :=
  match starts with
  | [] => (Returned all_matches, calls)
  | i :: rest =>
      let batch := take (Z.to_nat batch_size) (drop i candidates) in
      match llm calls RANKING_SYSTEM (ranking_message requirements batch) with
      | Raised e => (Raised e, S calls)
      | Returned content =>
          match _parse_scores content batch with
          | Raised e => (Raised e, S calls)
          | Returned scored =>
              rank_batches rest batch_size candidates requirements
                (all_matches ++ scored) (S calls)
          end
      end
  end.

(** [CandidateRanker.rank_candidates]. *)
Definition rank_candidates (candidates : list CandidateProfile)
    (requirements : JobRequirements) (batch_size : Z) (calls : nat)
  : outcome (list CandidateMatch) * nat :=
  match candidates with
  | [] => (Returned [], calls)
  | _ :: _ =>
      match py_range (length candidates) batch_size with
      | Raised e => (Raised e, calls)
      | Returned starts =>
          match rank_batches starts batch_size candidates requirements [] calls with
          | (Returned all_matches, calls) =>
              (Returned (sort_by_score all_matches), calls)
          | (Raised e, calls) => (Raised e, calls)
          end
      end
  end.

(** ** Job description parser (src/job_parser.py) *)

(** [JobDescriptionParser.parse_job_description]. *)
Definition parse_job_description (raw_text : string) (calls : nat)
  : outcome JobRequirements * nat :=
  match llm calls PARSE_JOB_SYSTEM raw_text with
  | Raised e => (Raised e, S calls)
  | Returned content =>
      match _extract_json json_loads content with
      | Raised e => (Raised e, S calls)
      | Returned data => (validate_requirements data, S calls)
      end
  end.

(** [JobDescriptionParser.derive_search_criteria]. *)
Definition derive_search_criteria (requirements : JobRequirements) (calls : nat)
  : outcome SearchCriteria * nat :=
  match llm calls SEARCH_CRITERIA_SYSTEM (dump_requirements requirements) with
  | Raised e => (Raised e, S calls)
  | Returned content =>
      match _extract_json json_loads content with
      | Raised e => (Raised e, S calls)
      | Returned data => (validate_criteria data, S calls)
      end
  end.

(** ** Orchestrator (src/agent.py) *)

Record FindCandidatesRequest := {
  job_description : string;
  max_candidates : Z;
  location_filter : option string
}.

Record FindCandidatesResponse := {
  job_requirements : JobRequirements;
  search_criteria : SearchCriteria;
  candidates : list CandidateMatch;
  total_profiles_scanned : nat;
  search_queries_used : list string
}.

(** [criteria.locations = [request.location_filter] + criteria.locations]
    under [if request.location_filter]. *)
Definition with_location_filter (filter : option string)
    (criteria : SearchCriteria) : SearchCriteria :=
  match filter with
  | Some (String c rest as loc) =>
      {| keywords := keywords criteria; titles := titles criteria;
         locations := loc :: locations criteria;
         companies := companies criteria; industries := industries criteria;
         current_only := current_only criteria |}
  | _ => criteria
  end.

(** The state of an agent: the state of its crawler and the number of
    calls of the language model so far. *)
Record agent_state := {
  crawler_state : world;
  llm_calls : nat
}.

(** [CandidateFinderAgent.find_candidates], the crawler of the agent being
    [crawler_search], the method [search] of a [LinkedInCrawler]. *)
Definition find_candidates
    (crawler_search : SearchCriteria -> Z -> M (list CandidateProfile * list string))
    (request : FindCandidatesRequest) (st : agent_state)
  : outcome FindCandidatesResponse * agent_state * list event :=
  match parse_job_description (job_description request) (llm_calls st) with
  | (Raised e, calls) =>
      (Raised e, {| crawler_state := crawler_state st; llm_calls := calls |}, [])
  | (Returned requirements, calls) =>
      match derive_search_criteria requirements calls with
      | (Raised e, calls) =>
          (Raised e, {| crawler_state := crawler_state st; llm_calls := calls |}, [])
      | (Returned criteria, calls) =>
          let criteria := with_location_filter (location_filter request) criteria in
          match crawler_search criteria (max_candidates request * 2)
                  (crawler_state st) with
          | (Raised e, w, t) =>
              (Raised e, {| crawler_state := w; llm_calls := calls |}, t)
          | (Returned (profiles, queries_used), w, t) =>
              match rank_candidates profiles requirements 5 calls with
              | (Raised e, calls) =>
                  (Raised e, {| crawler_state := w; llm_calls := calls |}, t)
              | (Returned ranked, calls) =>
                  let top := py_slice_to ranked (max_candidates request) in
                  (Returned {| job_requirements := requirements;
                               search_criteria := criteria;
                               candidates := top;
                               total_profiles_scanned := length profiles;
                               search_queries_used := queries_used |},
                   {| crawler_state := w; llm_calls := calls |}, t)
              end
          end
      end
  end.
End Pipeline.

(** [CandidateFinderAgent.__init__]: the key of the language model and the
    cookie handed to [LinkedInCrawler], from the arguments and the
    environment. *)
Definition CandidateFinderAgent_init (getenv : string -> option string)
    (anthropic_api_key linkedin_cookie : option string)
  : outcome (string * option string) :=
  let api_key := py_or anthropic_api_key (getenv "ANTHROPIC_API_KEY") in
  let li_at := py_or linkedin_cookie (getenv "LINKEDIN_LI_AT") in
  match api_key with
  | Some (String c rest as key) =>
      Returned (key, py_or li_at None)
  | _ => Raised ValueError
  end.

(* ================================================================== *)
(** * Specification-side definitions *)
(* ================================================================== *)

(** The queries as section 4.1 of the specification words them: one query
    per title among the first three, then the location query. *)
Definition spec_build_queries (criteria : SearchCriteria) : list string :=
  map (fun title => title +:+ " " +:+ PyStr.join " " (take 4 (keywords criteria)))
      (take 3 (titles criteria))
  ++ match locations criteria with
     | [] => []
     | loc :: _ => [PyStr.join " " (take 3 (keywords criteria)) +:+ " " +:+ loc]
     end.

(** The outcome of a client's search, paired with the queries. *)
Definition with_queries (queries : list string)
    (r : outcome (list CandidateProfile))
  : outcome (list CandidateProfile * list string) :=
  match r with
  | Returned profiles => Returned (profiles, queries)
  | Raised e => Raised e
  end.

(** The profiles of [l] whose URL occurs neither in [earlier] nor earlier
    in [l]. *)
Fixpoint keep_first (earlier : list string) (l : list CandidateProfile)
  : list CandidateProfile :=
  match l with
  | [] => []
  | c :: rest =>
      if bool_decide (profile_url c ∈ earlier) then keep_first earlier rest
      else c :: keep_first (profile_url c :: earlier) rest
  end.


(** The queries sent to the Voyager search endpoint, and the phrase queries
    sent to Google, in a trace. *)
Definition voyager_queries_of (t : list event) : list string :=
  omap (fun ev => match ev with
                  | EvGet (VoyagerSearch _ _ query _) => Some query
                  | _ => None
                  end) t.

Definition google_queries_of (t : list event) : list string :=
  omap (fun ev => match ev with
                  | EvGet (GoogleSearch q _) => Some q
                  | _ => None
                  end) t.


(** A field of a record that is absent or empty. *)
Definition absent_or_empty (v : option string) : Prop :=
  v = None \/ v = Some EmptyString.

(** The last character of a string. *)
Fixpoint last_char (s : string) : option ascii :=
  match s with
  | EmptyString => None
  | String c EmptyString => Some c
  | String _ rest => last_char rest
  end.

(* ================================================================== *)
(** * Sample inputs *)
(* ================================================================== *)

Definition sample_criteria : SearchCriteria :=
  {| keywords := ["python"; "backend"]; titles := ["Backend Engineer"];
     locations := ["Boston"]; companies := []; industries := [];
     current_only := false |}.

Definition mini_profile (public_id first_name last_name : string) : item :=
  <["$type" := "com.linkedin.voyager.identity.shared.MiniProfile"]>
    (<["publicIdentifier" := public_id]>
       (<["firstName" := first_name]> (<["lastName" := last_name]> ∅))).

Definition sample_records : voyager :=
  {| included := Some [mini_profile "jane-doe" "Jane" "Doe";
                       mini_profile "john-smith" "John" "Smith";
                       mini_profile "ann-lee" "Ann" "Lee"] |}.

Definition empty_response (status : Z) : response :=
  {| status_code := status; json := None; text := EmptyString;
     jsessionid := None |}.

(** A network that answers 429 to the first request, 200 with three
    records to the second, and fails afterwards. *)
Definition sample_net (n : nat) (r : request) : http_result :=
  match n with
  | O => Resp (empty_response 429)
  | S O => Resp {| status_code := 200; json := Some sample_records;
                   text := EmptyString; jsessionid := None |}
  | _ => GetRaises HTTPError
  end.

(** A network that answers every request 200 with a body that is not
    JSON. *)
Definition undecodable_net (n : nat) (r : request) : http_result :=
  Resp (empty_response 200).

Definition fresh_world : world := {| _csrf_token := None; clock := O |}.

Definition world_with_token : world :=
  {| _csrf_token := Some "ajax:0123"; clock := O |}.



(** [s.partition(sep)] when [sep] occurs in [s]: the text before and after
    its first occurrence. *)
Fixpoint partition_first (sep s : string) : option (string * string) :=
  if PyStr.starts_with sep s then Some (EmptyString, PyStr.drop (String.length sep) s)
  else match s with
       | EmptyString => None
       | String c rest =>
           match partition_first sep rest with
           | Some (before, after) => Some (String c before, after)
           | None => None
           end
       end.



(** Parameters for the sample runs: no percent escape to decode, every
    host accepted. *)
Definition no_unquote (s : string) : string := s.
Definition accept_all (netloc : string) : bool := true.

(** Two links to one profile that differ by a tracking parameter. *)
Definition plain_link : a_tag :=
  {| href := "https://www.linkedin.com/in/jane-doe";
     parent_div_text := Some "Jane Doe - Senior Engineer - BigCo - LinkedIn" |}.

Definition tracked_link : a_tag :=
  {| href := "https://www.linkedin.com/in/jane-doe?trk=public_profile";
     parent_div_text := Some "Jane Doe - Staff Engineer" |}.

(** A link on another host whose path holds the profile marker. *)
Definition foreign_link : a_tag :=
  {| href := "https://evil.example/linkedin.com/in/jane-doe";
     parent_div_text := None |}.


(** The anchors of the result page used by the unit test of the parser,
    with the text of their enclosing [div]. *)
Definition test_page_anchors : list a_tag :=
  [ {| href := "/url?q=https://www.linkedin.com/in/jane-doe-12345&sa=U";
       parent_div_text := Some "Jane Doe - Senior Engineer - BigCo - LinkedIn" |};
    {| href := "/url?q=https://www.linkedin.com/in/john-smith-67890&sa=U";
       parent_div_text := Some "John Smith - Staff Engineer - StartupCo - LinkedIn" |};
    {| href := "https://www.google.com/other-link";
       parent_div_text := Some "Not a LinkedIn link" |} ].

(** A network that never answers. *)
Definition dead_net (n : nat) (r : request) : http_result := GetRaises HTTPError.

(* ================================================================== *)
(** * Reading traces *)
(* ================================================================== *)

(** The requests of a trace, in the order they were sent. *)
Definition requests_of (t : list event) : list request :=
  omap (fun ev => match ev with EvGet r => Some r | _ => None end) t.

(** The page sizes asked of the Voyager search endpoint in a trace. *)
Definition voyager_counts_of (t : list event) : list Z :=
  omap (fun ev => match ev with
                  | EvGet (VoyagerSearch _ _ _ count) => Some count
                  | _ => None
                  end) t.

(** A trace in which every request is followed by the polite delay
    [lo]..[hi], a cooldown possibly coming in between; the request that
    ends a trace is the one on which an exception escaped. *)
Inductive paced (lo hi : Z) : list event -> Prop :=
| paced_nil : paced lo hi []
| paced_aborted req : paced lo hi [EvGet req]
| paced_step req t :
    paced lo hi t -> paced lo hi (EvGet req :: EvPoliteDelay lo hi :: t)
| paced_cooldown req seconds t :
    paced lo hi t ->
    paced lo hi (EvGet req :: EvSleep seconds :: EvPoliteDelay lo hi :: t).


(** The profiles of [sample_records]. *)
Definition sample_profiles : list CandidateProfile :=
  [stub_profile "Jane Doe" None "https://www.linkedin.com/in/jane-doe";
   stub_profile "John Smith" None "https://www.linkedin.com/in/john-smith";
   stub_profile "Ann Lee" None "https://www.linkedin.com/in/ann-lee"].

Definition sample_queries : list string :=
  ["Backend Engineer python backend"; "python backend Boston"].

(** A network whose requests all raise [exc]. *)
Definition failing_net (exc : exn) (n : nat) (r : request) : http_result :=
  GetRaises exc.

(** A link whose host part opens a bracket that is never closed:
    [urlparse] raises [ValueError] on it. *)
Definition malformed_link : a_tag :=
  {| href := "https://[www.linkedin.com/in/jane-doe";
     parent_div_text := None |}.

(** A network that answers every request 200 with a page. *)
Definition page_net (n : nat) (r : request) : http_result :=
  Resp {| status_code := 200; json := None; text := "<html>";
          jsessionid := None |}.

(* ================================================================== *)
(** * Reading a profile body *)
(* ================================================================== *)

(** The records of a body. *)
Definition records_of (data : voyager) : list item :=
  match included data with Some l => l | None => [] end.

(** The type of a record. *)
Definition record_type (it : item) : string := get_default it "$type" "".

(** A record that describes the profile [public_id] itself. *)
Definition is_profile_record (public_id : string) (it : item) : bool :=
  PyStr.contains "Profile" (record_type it)
  && bool_decide (get it "publicIdentifier" = Some public_id).

(** The last record of a body that describes the profile, the empty
    record when there is none. *)
Definition last_profile_record (public_id : string) (records : list item)
  : item :=
  List.last (List.filter (is_profile_record public_id) records) ∅.

(** The records read as positions, as education entries and as skills:
    a record is read as one kind only, the first that fits among profile,
    position, education and skill. *)
Definition is_position_record (public_id : string) (it : item) : bool :=
  negb (is_profile_record public_id it)
  && PyStr.contains "Position" (record_type it).

Definition is_education_record (public_id : string) (it : item) : bool :=
  negb (is_profile_record public_id it)
  && negb (PyStr.contains "Position" (record_type it))
  && PyStr.contains "Education" (record_type it).

Definition is_skill_record (public_id : string) (it : item) : bool :=
  negb (is_profile_record public_id it)
  && negb (PyStr.contains "Position" (record_type it))
  && negb (PyStr.contains "Education" (record_type it))
  && PyStr.contains "Skill" (record_type it).

Definition experience_of (it : item) : Experience :=
  {| exp_title := get_default it "title" "Unknown";
     exp_company := get_default it "companyName" "Unknown";
     exp_location := get it "locationName";
     exp_duration := None;
     exp_description := get it "description" |}.

Definition education_of (it : item) : Education :=
  {| edu_school := get_default it "schoolName" "Unknown";
     edu_degree := get it "degreeName";
     edu_field_of_study := get it "fieldOfStudy";
     edu_years := None |}.

(** A full profile response for [jane-doe] that also holds the profile
    record of somebody else, a position, a school and two skills, one of
    them without a name. *)
Definition sample_profile_body : voyager :=
  {| included :=
       Some [<["$type" := "com.linkedin.voyager.identity.profile.Profile"]>
               (<["publicIdentifier" := "jane-doe"]>
                  (<["firstName" := "Jane"]> (<["lastName" := "Doe"]>
                     (<["headline" := "Engineer"]> ∅))));
             <["$type" := "com.linkedin.voyager.identity.profile.Position"]>
               (<["title" := "Staff Engineer"]> (<["companyName" := "BigCo"]> ∅));
             <["$type" := "com.linkedin.voyager.identity.profile.Profile"]>
               (<["publicIdentifier" := "john-smith"]>
                  (<["firstName" := "John"]> (<["headline" := "Recruiter"]> ∅)));
             <["$type" := "com.linkedin.voyager.identity.profile.Education"]>
               (<["schoolName" := "MIT"]> ∅);
             <["$type" := "com.linkedin.voyager.identity.profile.Skill"]>
               (<["name" := "Python"]> ∅);
             <["$type" := "com.linkedin.voyager.identity.profile.Skill"]>
               (<["name" := ""]> ∅)] |}.

(** An identifier that reads the same inside a URL: it is not empty and
    holds no delimiter of a path, a query, a fragment, a parameter or a
    redirect, and none of the bytes [urlsplit] removes. *)
Definition plain_identifier (public_id : string) : Prop :=
  public_id <> EmptyString
  /\ PyStr.mem "/" public_id = false
  /\ PyStr.mem "?" public_id = false
  /\ PyStr.mem "#" public_id = false
  /\ PyStr.mem ";" public_id = false
  /\ PyStr.mem "&" public_id = false
  /\ PyStr.forallb (fun c => negb (Urllib.unsafe_url_byte c)) public_id = true.

(** The link Google wraps around the address [url]. *)
Definition google_redirect (url : string) : string :=
  "/url?q=" +:+ url +:+ "&sa=U".

(* ================================================================== *)
(** * Sample parameters of the pipeline *)
(* ================================================================== *)

(** A decoder that rejects every document. *)
Definition no_json (text : string) : outcome jval := Raised JSONDecodeError.

(** Validators that accept numbers, strings and arrays of strings as they
    are. *)
Definition plain_score (v : jval) : option Q :=
  match v with JNum x => Some x | _ => None end.

Definition plain_string (v : jval) : option string :=
  match v with JStr s => Some s | _ => None end.

Definition plain_strings (v : jval) : option (list string) :=
  match v with
  | JList items => mapM plain_string items
  | _ => None
  end.

(** The candidates of the unit tests of the ranker. *)
Definition alice : CandidateProfile :=
  stub_profile "Alice Strong" None "https://www.linkedin.com/in/alice-strong".

Definition bob : CandidateProfile :=
  stub_profile "Bob Weak" None "https://www.linkedin.com/in/bob-weak".

(** The entry of a reply that speaks of the profile [url], when the value
    [v] is one. *)
Definition entry_for (url : string) (v : jval) : option jdict :=
  match v with
  | JDict d =>
      match dict_get d "profile_url" (JStr "") with
      | JStr u => if String.eqb u url then Some d else None
      | _ => None
      end
  | _ => None
  end.

(** The last entry of a reply that speaks of [url], the empty object when
    there is none. *)
Definition last_entry_for (url : string) (items : list jval) : jdict :=
  List.last (omap (entry_for url) items) [].

(** A list of matches in the order of decreasing overall score. *)
Definition descending (matches : list CandidateMatch) : Prop :=
  forall i j a b,
    (i < j)%nat -> matches !! i = Some a -> matches !! j = Some b ->
    Qle (overall_score b) (overall_score a).

(** The same, match by match: no match scores higher than one that comes
    before it. *)
Fixpoint sorted_desc (matches : list CandidateMatch) : Prop :=
  match matches with
  | [] => True
  | x :: rest =>
      Forall (fun b => Qle (overall_score b) (overall_score x)) rest
      /\ sorted_desc rest
  end.

(** The matches whose overall score equals [q], in their order. *)
Definition with_score (q : Q) (matches : list CandidateMatch)
  : list CandidateMatch :=
  List.filter (fun m => Qeq_bool (overall_score m) q) matches.

(** The number of batches of [batch_size] candidates among [n]. *)
Definition batch_count (n : nat) (batch_size : Z) : nat :=
  Nat.div (n + Z.to_nat batch_size - 1) (Z.to_nat batch_size).

Definition score (n : Z) : Q := QArith_base.Qmake n 1.

(** A reply with two entries for Alice, none for Bob and one for a profile
    nobody asked about. *)
Definition sample_reply : list jval :=
  [JDict [("profile_url", JStr "https://www.linkedin.com/in/alice-strong");
          ("overall_score", JNum (score 40))];
   JDict [("profile_url", JStr "https://www.linkedin.com/in/mallory");
          ("overall_score", JNum (score 99))];
   JDict [("profile_url", JStr "https://www.linkedin.com/in/alice-strong");
          ("overall_score", JNum (score 88));
          ("reasoning", JStr "Strong Python and AWS skills.")]].

(** A decoder that reads every text as [sample_reply]. *)
Definition sample_loads (text : string) : outcome jval :=
  Returned (JList sample_reply).

Definition sample_matches : list CandidateMatch :=
  [{| candidate := alice; overall_score := score 88; skill_match_score := Q0;
      experience_match_score := Q0;
      reasoning := "Strong Python and AWS skills."; strengths := []; gaps := [] |};
   {| candidate := bob; overall_score := Q0; skill_match_score := Q0;
      experience_match_score := Q0;
      reasoning := "No score available."; strengths := []; gaps := [] |}].

(** A language model whose every reply is [reply]. *)
Definition constant_llm (reply : string) (n : nat) (p : prompt) (message : string)
  : outcome string :=
  Returned reply.

(** Requirements and messages for the sample runs. *)
Definition no_message (requirements : unit) (batch : list CandidateProfile)
  : string := EmptyString.

(** Validation for the sample runs: every document gives the same
    requirements and the sample criteria. *)
Definition sample_requirements (data : jval) : outcome unit := Returned tt.

Definition sample_derived (data : jval) : outcome SearchCriteria :=
  Returned sample_criteria.

Definition sample_request : FindCandidatesRequest :=
  {| job_description := "Senior backend engineer, Python.";
     max_candidates := 2; location_filter := Some "Berlin" |}.

Definition fresh_agent : agent_state :=
  {| crawler_state := fresh_world; llm_calls := 0 |}.


(** The criteria with the single location [loc]. *)
Definition at_location (loc : string) (criteria : SearchCriteria)
  : SearchCriteria :=
  {| keywords := keywords criteria; titles := titles criteria;
     locations := [loc];
     companies := companies criteria; industries := industries criteria;
     current_only := current_only criteria |}.

Definition sample_response : FindCandidatesResponse unit :=
  {| job_requirements := tt;
     search_criteria :=
       {| keywords := ["python"; "backend"]; titles := ["Backend Engineer"];
          locations := ["Berlin"; "Boston"]; companies := []; industries := [];
          current_only := false |};
     candidates :=
       [{| candidate := stub_profile "Jane Doe" None
                          "https://www.linkedin.com/in/jane-doe";
           overall_score := Q0; skill_match_score := Q0;
           experience_match_score := Q0; reasoning := "No score available.";
           strengths := []; gaps := [] |};
        {| candidate := stub_profile "John Smith" None
                          "https://www.linkedin.com/in/john-smith";
           overall_score := Q0; skill_match_score := Q0;
           experience_match_score := Q0; reasoning := "No score available.";
           strengths := []; gaps := [] |}];
     total_profiles_scanned := 3;
     search_queries_used :=
       ["Backend Engineer python backend"; "python backend Berlin"] |}.

Definition sample_trace : list event :=
  [EvSearchPeople AuthenticatedClient; EvGet (FeedPage "li_at");
   EvGet (VoyagerSearch "li_at" "" "Backend Engineer python backend" 4);
   EvPoliteDelay 2 5;
   EvGet (VoyagerSearch "li_at" "" "python backend Berlin" 1);
   EvPoliteDelay 2 5].

Definition sample_agent_after : agent_state :=
  {| crawler_state := {| _csrf_token := Some ""; clock := 3 |};
     llm_calls := 3 |}.

(** A language model that is out of service. *)
Definition dead_llm (n : nat) (p : prompt) (message : string) : outcome string :=
  Raised (OtherError "APIConnectionError").
(* ================================================================== *)
(** * Accumulating loops *)
(* ================================================================== *)

Lemma fold_left_snoc {A B} (f : B -> A) (l : list B) (acc : list A) :
  fold_left (fun acc b => acc ++ [f b]) l acc = acc ++ map f l.
Proof.
  revert acc. induction l as [|b l IH]; intros acc; simpl.
  - by rewrite app_nil_r.
  - rewrite IH. by rewrite <- app_assoc.
Qed.

Lemma fold_left_snoc_opt {A B} (f : B -> option A) (l : list B) (acc : list A) :
  fold_left (fun acc b => match f b with Some a => acc ++ [a] | None => acc end) l acc
  = acc ++ omap f l.
Proof.
  revert acc. induction l as [|b l IH]; intros acc; simpl.
  - by rewrite app_nil_r.
  - rewrite IH. destruct (f b); simpl; [by rewrite <- app_assoc | done].
Qed.

(* ================================================================== *)
(** * Query builder *)
(* ================================================================== *)

(** The scenario of section 8 of the specification. *)
Example build_scenario :
  _build_search_keywords sample_criteria
  = ["Backend Engineer python backend"; "python backend Boston"].
Proof. reflexivity. Qed.

Lemma build_search_keywords_refines criteria :
  _build_search_keywords criteria = spec_build_queries criteria.
Proof.
  unfold _build_search_keywords, spec_build_queries.
  rewrite (fold_left_snoc
             (fun title => title +:+ " " +:+ PyStr.join " " (take 4 (keywords criteria)))).
  simpl. destruct (locations criteria); [by rewrite app_nil_r | done].
Qed.

(** C2. [_build_search_keywords] returns one query per title among the
    first three titles, the title followed by a space and the first four
    keywords joined by spaces, in the order of the titles; then, when there
    is a location, one more query made of the first three keywords joined
    by spaces, a space and the first location; with no title and no
    location the result is the empty list. *)
Theorem build_search_keywords_queries (criteria : SearchCriteria) :
  let kw4 := PyStr.join " " (take 4 (keywords criteria)) in
  let kw3 := PyStr.join " " (take 3 (keywords criteria)) in
  let title_queries :=
    map (fun title => title +:+ " " +:+ kw4) (take 3 (titles criteria)) in
  (forall loc rest, locations criteria = loc :: rest ->
     _build_search_keywords criteria = title_queries ++ [kw3 +:+ " " +:+ loc])
  /\ (locations criteria = [] -> _build_search_keywords criteria = title_queries)
  /\ (forall i title, (i < 3)%nat -> titles criteria !! i = Some title ->
        _build_search_keywords criteria !! i = Some (title +:+ " " +:+ kw4))
  /\ length title_queries = Nat.min 3 (length (titles criteria))
  /\ (titles criteria = [] -> locations criteria = [] ->
        _build_search_keywords criteria = []).
Proof.
  intros kw4 kw3 title_queries.
  rewrite build_search_keywords_refines. unfold spec_build_queries.
  fold kw4 kw3 title_queries.
  split; [|split; [|split; [|split]]].
  - intros loc rest ->. done.
  - intros ->. by rewrite app_nil_r.
  - intros i title Hi Hl.
    apply lookup_app_l_Some. unfold title_queries.
    rewrite list_lookup_fmap, lookup_take_lt by done. by rewrite Hl.
  - unfold title_queries. by rewrite length_map, length_take.
  - intros Ht Hl. unfold title_queries. by rewrite Ht, Hl.
Qed.

Lemma build_search_keywords_queries_witness :
  _build_search_keywords sample_criteria
  = map (fun title => title +:+ " " +:+ PyStr.join " " (take 4 (keywords sample_criteria)))
        (take 3 (titles sample_criteria))
    ++ [PyStr.join " " (take 3 (keywords sample_criteria)) +:+ " " +:+ "Boston"].
Proof.
  exact (proj1 (build_search_keywords_queries sample_criteria) "Boston" [] eq_refl).
Defined.

(* ================================================================== *)
(** * Deduplication and truncation *)
(* ================================================================== *)

Lemma py_slice_to_prefix {A} (l : list A) (n : Z) : py_slice_to l n `prefix_of` l.
Proof. unfold py_slice_to. destruct (0 <=? n); apply prefix_take. Qed.

Lemma py_slice_to_sublist {A} (l : list A) (n : Z) : py_slice_to l n `sublist_of` l.
Proof. unfold py_slice_to. destruct (0 <=? n); apply sublist_take. Qed.

Lemma py_slice_to_length {A} (l : list A) (n : Z) :
  0 <= n -> Z.of_nat (length (py_slice_to l n)) <= n.
Proof.
  intros Hn. unfold py_slice_to.
  destruct (Z.leb_spec 0 n); [|lia]. rewrite length_take. lia.
Qed.

Lemma py_slice_to_all {A} (l : list A) (n : Z) :
  Z.of_nat (length l) <= n -> py_slice_to l n = l.
Proof.
  intros Hn. unfold py_slice_to.
  destruct (Z.leb_spec 0 n); [|lia]. apply take_ge. lia.
Qed.

Lemma dedup_fold_keep_first (l : list CandidateProfile) :
  forall (seen : gset string) (unique : list CandidateProfile) (earlier : list string),
    (forall u, u ∈ seen <-> u ∈ earlier) ->
    snd (fold_left dedup_step l (seen, unique)) = unique ++ keep_first earlier l.
Proof.
  induction l as [|c l IH]; intros seen unique earlier Hseen; simpl.
  - by rewrite app_nil_r.
  - destruct (decide (profile_url c ∈ seen)) as [Hin|Hout].
    + rewrite (bool_decide_eq_true_2 _ Hin).
      rewrite (bool_decide_eq_true_2 (profile_url c ∈ earlier)) by by apply Hseen.
      by apply IH.
    + rewrite (bool_decide_eq_false_2 _ Hout).
      rewrite (bool_decide_eq_false_2 (profile_url c ∈ earlier))
        by (intros ?; by apply Hout, Hseen).
      rewrite (IH _ _ (profile_url c :: earlier)).
      * by rewrite <- app_assoc.
      * intros u. rewrite elem_of_union, elem_of_singleton, elem_of_cons.
        by rewrite Hseen.
Qed.

Lemma deduplicate_keep_first (l : list CandidateProfile) :
  deduplicate l = keep_first [] l.
Proof.
  unfold deduplicate. rewrite (dedup_fold_keep_first l ∅ [] []); [done|].
  intros u. set_solver.
Qed.

Lemma keep_first_fresh earlier l c :
  c ∈ keep_first earlier l -> profile_url c ∉ earlier.
Proof.
  revert earlier. induction l as [|d l IH]; intros earlier; simpl.
  - by intros ?%elem_of_nil.
  - case_bool_decide as Hd.
    + apply IH.
    + intros [->|Hin]%elem_of_cons; [done|].
      apply IH in Hin. intros ?. apply Hin. by right.
Qed.

Lemma keep_first_NoDup earlier l :
  NoDup (profile_url <$> keep_first earlier l).
Proof.
  revert earlier. induction l as [|d l IH]; intros earlier; simpl.
  - constructor.
  - case_bool_decide as Hd; [apply IH|].
    rewrite fmap_cons. constructor; [|apply IH].
    intros (c & Hu & Hc)%list_elem_of_fmap.
    apply keep_first_fresh in Hc. apply Hc. rewrite <- Hu. by left.
Qed.





(** With the requested number of candidates reached, both loops stop at
    once. *)
Lemma voyager_loop_full net li_at csrf max_results queries candidates w :
  max_results <= Z.of_nat (length candidates) ->
  voyager_loop net li_at csrf max_results queries candidates w
  = (Returned candidates, w, []).
Proof.
  intros Hfull. destruct queries as [|query rest]; [done|]. simpl.
  rewrite Z.geb_leb. by rewrite (proj2 (Z.leb_le _ _) Hfull).
Qed.

Lemma google_search_loop_full net unquote bracketed_ok nfkc_ok soup_select
    max_results queries candidates w :
  max_results <= Z.of_nat (length candidates) ->
  google_search_loop net unquote bracketed_ok nfkc_ok soup_select max_results
    queries candidates w
  = (Returned candidates, w, []).
Proof.
  intros Hfull. destruct queries as [|query rest]; [done|]. simpl.
  rewrite Z.geb_leb. by rewrite (proj2 (Z.leb_le _ _) Hfull).
Qed.

Lemma dedup_truncate_length_max candidates max_results :
  (max_results < 0 -> candidates = []) ->
  Z.of_nat (length (dedup_truncate candidates max_results)) <= Z.max 0 max_results.
Proof.
  intros Hneg. destruct (Z.le_gt_cases 0 max_results) as [Hle|Hlt].
  - rewrite Z.max_r by done. by apply py_slice_to_length.
  - rewrite (Hneg Hlt). unfold dedup_truncate, deduplicate, py_slice_to. simpl.
    destruct (0 <=? max_results); rewrite ?take_nil; simpl; lia.
Qed.



(* ================================================================== *)
(** * Unified crawler *)
(* ================================================================== *)

Lemma search_fallback_run (_google : client) criteria max_results w :
  (let* profiles := call_search_people GoogleClient _google criteria max_results in
   ret (profiles, _build_search_keywords criteria)) w
  = let '(r, w2, t2) := _google criteria max_results w in
    (with_queries (_build_search_keywords criteria) r, w2,
     EvSearchPeople GoogleClient :: t2).
Proof.
  unfold call_search_people, bind, tell, ret; simpl.
  destruct (_google criteria max_results w) as [[[ps|e] w2] t2]; simpl; [|done].
  by rewrite app_nil_r.
Qed.

(** C1. [LinkedInCrawler.search]: when an authenticated client is held
    and its search returns a list that is not empty, that list is returned
    and the Google client is not invoked (the trace holds the call of the
    authenticated client and its events only, and the result does not
    depend on the Google client); when no authenticated client is held, or
    its search returns no profile, or it raises, the Google client is
    invoked and its outcome is the outcome of the search; whenever the
    search returns, the queries it returns are those of
    [_build_search_keywords criteria]. *)
Theorem search_strategy_selection
    (_authenticated : option client) (_google : client)
    (criteria : SearchCriteria) (max_results : Z) (w : world) :
  let queries_used := _build_search_keywords criteria in
  let fallback_from (w1 : world) (t1 : list event) :=
    let '(r, w2, t2) := _google criteria max_results w1 in
    (with_queries queries_used r, w2, t1 ++ EvSearchPeople GoogleClient :: t2) in
  (forall authenticated profiles w1 t1,
      _authenticated = Some authenticated ->
      authenticated criteria max_results w = (Returned profiles, w1, t1) ->
      profiles <> [] ->
      search _authenticated _google criteria max_results w
        = (Returned (profiles, queries_used), w1,
           EvSearchPeople AuthenticatedClient :: t1)
      /\ (EvSearchPeople GoogleClient ∉ t1 ->
          EvSearchPeople GoogleClient ∉ EvSearchPeople AuthenticatedClient :: t1))
  /\ (_authenticated = None ->
      search _authenticated _google criteria max_results w = fallback_from w [])
  /\ (forall authenticated w1 t1,
      _authenticated = Some authenticated ->
      authenticated criteria max_results w = (Returned [], w1, t1) ->
      search _authenticated _google criteria max_results w
        = fallback_from w1 (EvSearchPeople AuthenticatedClient :: t1))
  /\ (forall authenticated e w1 t1,
      _authenticated = Some authenticated ->
      authenticated criteria max_results w = (Raised e, w1, t1) ->
      search _authenticated _google criteria max_results w
        = fallback_from w1 (EvSearchPeople AuthenticatedClient :: t1))
  /\ (forall profiles queries w' t,
      search _authenticated _google criteria max_results w
        = (Returned (profiles, queries), w', t) ->
      queries = queries_used).
Proof.
  intros queries_used fallback_from.
  pose proof (search_fallback_run _google criteria max_results) as Hfb.
  fold queries_used in Hfb.
  split; [|split; [|split; [|split]]].
  - intros a profiles w1 t1 -> Ha Hne. split.
    + unfold search, bind at 1, try_except, bind at 1, call_search_people,
        bind at 1, tell; simpl.
      rewrite Ha. destruct profiles as [|p ps]; [done|]. simpl.
      by rewrite !app_nil_r.
    + intros Hnot [Heq|Hin]%elem_of_cons; [discriminate | done].
  - intros ->. unfold search. unfold bind at 1. unfold ret at 1.
    rewrite Hfb. unfold fallback_from.
    by destruct (_google criteria max_results w) as [[r w2] t2].
  - intros a w1 t1 -> Ha.
    unfold search, bind at 1, try_except, bind at 1, call_search_people,
      bind at 1, tell; simpl.
    rewrite Ha. simpl. rewrite Hfb. unfold fallback_from.
    destruct (_google criteria max_results w1) as [[r w2] t2].
    by rewrite !app_nil_r.
  - intros a e w1 t1 -> Ha.
    unfold search, bind at 1, try_except, bind at 1, call_search_people,
      bind at 1, tell; simpl.
    rewrite Ha. simpl. rewrite Hfb. unfold fallback_from.
    destruct (_google criteria max_results w1) as [[r w2] t2].
    by rewrite !app_nil_r.
  - intros profiles queries w' t.
    subst queries_used.
    unfold search, call_search_people, try_except, bind, tell, ret.
    destruct _authenticated as [authenticated|]; simpl.
    + destruct (authenticated criteria max_results w) as [[[[|p ps]|e] w1] t1];
        simpl;
        try (destruct (_google criteria max_results w1) as [[[ps'|e'] w2] t2];
             simpl);
        intros Heq; first [discriminate Heq | by injection Heq as _ <- _ _].
    + destruct (_google criteria max_results w) as [[[ps'|e'] w2] t2]; simpl;
        intros Heq; first [discriminate Heq | by injection Heq as _ <- _ _].
Qed.

Lemma search_strategy_selection_witness :
  let criteria :=
    {| keywords := ["python"; "backend"]; titles := ["Backend Engineer"];
       locations := ["Boston"]; companies := []; industries := [];
       current_only := false |} in
  let jane := stub_profile "Jane Doe" None "https://www.linkedin.com/in/janedoe" in
  let john := stub_profile "John Smith" None "https://www.linkedin.com/in/johnsmith" in
  let w := {| _csrf_token := None; clock := 0 |} in
  let queries := ["Backend Engineer python backend"; "python backend Boston"] in
  search (Some (fun _ _ => ret [jane])) (fun _ _ => ret [john]) criteria 25 w
    = (Returned ([jane], queries), w, [EvSearchPeople AuthenticatedClient])
  /\ search None (fun _ _ => ret [john]) criteria 25 w
    = (Returned ([john], queries), w, [EvSearchPeople GoogleClient])
  /\ search (Some (fun _ _ => ret [])) (fun _ _ => ret [john]) criteria 25 w
    = (Returned ([john], queries), w,
       [EvSearchPeople AuthenticatedClient; EvSearchPeople GoogleClient])
  /\ search (Some (fun _ _ => raise HTTPError)) (fun _ _ => ret [john]) criteria 25 w
    = (Returned ([john], queries), w,
       [EvSearchPeople AuthenticatedClient; EvSearchPeople GoogleClient]).
Proof.
  intros criteria jane john w queries.
  split; [|split; [|split]].
  - exact (proj1 (proj1 (search_strategy_selection
             (Some (fun _ _ => ret [jane])) (fun _ _ => ret [john]) criteria 25 w)
             (fun _ _ => ret [jane]) [jane] w [] eq_refl eq_refl
             ltac:(discriminate))).
  - exact (proj1 (proj2 (search_strategy_selection
             None (fun _ _ => ret [john]) criteria 25 w)) eq_refl).
  - exact (proj1 (proj2 (proj2 (search_strategy_selection
             (Some (fun _ _ => ret [])) (fun _ _ => ret [john]) criteria 25 w)))
             (fun _ _ => ret []) w [] eq_refl eq_refl).
  - exact (proj1 (proj2 (proj2 (proj2 (search_strategy_selection
             (Some (fun _ _ => raise HTTPError)) (fun _ _ => ret [john]) criteria 25 w))))
             (fun _ _ => raise HTTPError) HTTPError w [] eq_refl eq_refl).
Defined.

(** Without a cookie, or with an empty one, the crawler holds no
    authenticated client and [search] is the search of the Google client. *)
Lemma search_without_cookie net unquote bracketed_ok nfkc_ok soup_select
    li_at_cookie criteria max_results w :
  li_at_cookie = None \/ li_at_cookie = Some EmptyString ->
  LinkedInCrawler_search net unquote bracketed_ok nfkc_ok soup_select
    li_at_cookie criteria max_results w
  = let '(r, w2, t2) :=
      google_search_people net unquote bracketed_ok nfkc_ok soup_select
        criteria max_results w in
    (with_queries (_build_search_keywords criteria) r, w2,
     EvSearchPeople GoogleClient :: t2).
Proof.
  intros Hcookie. unfold LinkedInCrawler_search.
  replace (LinkedInCrawler_authenticated li_at_cookie) with (@None string)
    by by destruct Hcookie as [-> | ->].
  simpl option_map. unfold search. unfold bind at 1. unfold ret at 1.
  rewrite search_fallback_run.
  by destruct (google_search_people _ _ _ _ _ _ _ _) as [[r w2] t2].
Qed.

(* ================================================================== *)
(** * Rate limiting in the per-query loops *)
(* ================================================================== *)

Lemma voyager_loop_cons net li_at csrf max_results query rest candidates :
  voyager_loop net li_at csrf max_results (query :: rest) candidates
  = if Z.of_nat (length candidates) >=? max_results then ret candidates
    else
      let* candidates := voyager_query net li_at csrf query max_results candidates in
      _polite_delay 2 5 ;;
      voyager_loop net li_at csrf max_results rest candidates.
Proof. reflexivity. Qed.

Lemma google_search_loop_cons net unquote bracketed_ok nfkc_ok soup_select
    max_results query rest candidates :
  google_search_loop net unquote bracketed_ok nfkc_ok soup_select max_results
    (query :: rest) candidates
  = if Z.of_nat (length candidates) >=? max_results then ret candidates
    else
      let* candidates :=
        google_query net unquote bracketed_ok nfkc_ok soup_select query candidates in
      _polite_delay 3 7 ;;
      google_search_loop net unquote bracketed_ok nfkc_ok soup_select max_results
        rest candidates.
Proof. reflexivity. Qed.

Lemma geb_false_lt (a b : Z) : a < b -> (a >=? b) = false.
Proof. intros H. rewrite Z.geb_leb. by apply Z.leb_gt. Qed.

(** A 429 on the query at the head of the loop: one request, the cooldown,
    the polite delay, then the remaining queries with the candidates
    unchanged. *)
Lemma voyager_loop_429 net li_at csrf max_results query rest candidates w r :
  Z.of_nat (length candidates) < max_results ->
  net (clock w)
      (VoyagerSearch li_at csrf query
         (Z.min 25 (max_results - Z.of_nat (length candidates)))) = Resp r ->
  status_code r = 429 ->
  voyager_loop net li_at csrf max_results (query :: rest) candidates w
  = let '(res, w2, t) :=
      voyager_loop net li_at csrf max_results rest candidates (tick w) in
    (res, w2,
     EvGet (VoyagerSearch li_at csrf query
              (Z.min 25 (max_results - Z.of_nat (length candidates))))
     :: EvSleep 60 :: EvPoliteDelay 2 5 :: t).
Proof.
  intros Hlt Hnet Hstatus. rewrite voyager_loop_cons, (geb_false_lt _ _ Hlt).
  unfold bind at 1. unfold voyager_query, try_except, bind at 1, http_get.
  rewrite Hnet, Hstatus. simpl.
  unfold bind, _polite_delay, sleep, tell, ret; simpl.
  by destruct (voyager_loop _ _ _ _ _ _ _) as [[res w2] t].
Qed.

Lemma google_search_loop_429 net unquote bracketed_ok nfkc_ok soup_select
    max_results query rest candidates w r :
  Z.of_nat (length candidates) < max_results ->
  net (clock w) (GoogleSearch (site_query query) 10) = Resp r ->
  status_code r = 429 ->
  google_search_loop net unquote bracketed_ok nfkc_ok soup_select max_results
    (query :: rest) candidates w
  = let '(res, w2, t) :=
      google_search_loop net unquote bracketed_ok nfkc_ok soup_select
        max_results rest candidates (tick w) in
    (res, w2,
     EvGet (GoogleSearch (site_query query) 10)
     :: EvSleep 30 :: EvPoliteDelay 3 7 :: t).
Proof.
  intros Hlt Hnet Hstatus. rewrite google_search_loop_cons, (geb_false_lt _ _ Hlt).
  unfold bind at 1. unfold google_query, try_except, bind at 1, http_get.
  rewrite Hnet, Hstatus. simpl.
  unfold bind, _polite_delay, sleep, tell, ret; simpl.
  by destruct (google_search_loop _ _ _ _ _ _ _ _ _) as [[res w2] t].
Qed.

(** A 200 on the query at the head of the loop whose body decodes: the
    normalized records are appended. *)
Lemma voyager_loop_200 net li_at csrf max_results query rest candidates w r data :
  Z.of_nat (length candidates) < max_results ->
  net (clock w)
      (VoyagerSearch li_at csrf query
         (Z.min 25 (max_results - Z.of_nat (length candidates)))) = Resp r ->
  status_code r = 200 ->
  json r = Some data ->
  voyager_loop net li_at csrf max_results (query :: rest) candidates w
  = let '(res, w2, t) :=
      voyager_loop net li_at csrf max_results rest
        (candidates ++ _parse_search_results data) (tick w) in
    (res, w2,
     EvGet (VoyagerSearch li_at csrf query
              (Z.min 25 (max_results - Z.of_nat (length candidates))))
     :: EvPoliteDelay 2 5 :: t).
Proof.
  intros Hlt Hnet Hstatus Hjson. rewrite voyager_loop_cons, (geb_false_lt _ _ Hlt).
  unfold bind at 1. unfold voyager_query, try_except, bind at 1, http_get.
  rewrite Hnet, Hstatus. simpl.
  unfold bind, resp_json, _polite_delay, tell, ret; rewrite Hjson; simpl.
  by destruct (voyager_loop _ _ _ _ _ _ _) as [[res w2] t].
Qed.

(** The search requests of a run of the loop are requests for the queries
    of the list, in their order and at most one for each. *)
Lemma voyager_loop_requests net li_at csrf max_results queries :
  forall candidates w res w' t,
    voyager_loop net li_at csrf max_results queries candidates w = (res, w', t) ->
    voyager_queries_of t `prefix_of` queries.
Proof.
  induction queries as [|query rest IH]; intros candidates w res w' t.
  - intros [= _ _ <-]. done.
  - rewrite voyager_loop_cons.
    destruct (Z.of_nat (length candidates) >=? max_results).
    { intros [= _ _ <-]. apply prefix_nil. }
    unfold bind at 1. unfold voyager_query, try_except, bind at 1, http_get.
    destruct (net (clock w) _) as [r|e].
    + destruct (status_code r =? 200).
      * unfold bind at 1, resp_json. destruct (json r) as [data|].
        -- unfold ret at 1, ret at 1. unfold bind at 1, _polite_delay, tell.
           destruct (voyager_loop _ _ _ _ _ _ _) as [[res2 w2] t2] eqn:Hrest.
           intros [= _ _ <-]. simpl. apply prefix_cons. by eapply IH.
        -- unfold raise; simpl. intros [= _ _ <-]. simpl.
           apply prefix_cons, prefix_nil.
      * destruct (status_code r =? 429).
        -- unfold bind at 1, sleep, tell, ret at 1, bind at 1, _polite_delay, tell.
           destruct (voyager_loop _ _ _ _ _ _ _) as [[res2 w2] t2] eqn:Hrest.
           intros [= _ _ <-]. simpl. apply prefix_cons. by eapply IH.
        -- unfold ret at 1, bind at 1, _polite_delay, tell.
           destruct (voyager_loop _ _ _ _ _ _ _) as [[res2 w2] t2] eqn:Hrest.
           intros [= _ _ <-]. simpl. apply prefix_cons. by eapply IH.
    + destruct (is_HTTPError e).
      * unfold ret at 1, bind at 1, _polite_delay, tell.
        destruct (voyager_loop _ _ _ _ _ _ _) as [[res2 w2] t2] eqn:Hrest.
        intros [= _ _ <-]. simpl. apply prefix_cons. by eapply IH.
      * intros [= _ _ <-]. simpl. apply prefix_cons, prefix_nil.
Qed.

Lemma google_search_loop_requests net unquote bracketed_ok nfkc_ok soup_select
    max_results queries :
  forall candidates w res w' t,
    google_search_loop net unquote bracketed_ok nfkc_ok soup_select max_results
      queries candidates w = (res, w', t) ->
    google_queries_of t `prefix_of` (site_query <$> queries).
Proof.
  induction queries as [|query rest IH]; intros candidates w res w' t.
  - intros [= _ _ <-]. done.
  - rewrite google_search_loop_cons.
    destruct (Z.of_nat (length candidates) >=? max_results).
    { intros [= _ _ <-]. apply prefix_nil. }
    unfold bind at 1. unfold google_query, try_except, bind at 1, http_get.
    destruct (net (clock w) _) as [r|e].
    + destruct (status_code r =? 200).
      * unfold bind at 1, parse_google_text.
        destruct (_parse_google_results _ _ _ _ _) as [new|e].
        -- unfold ret at 1, ret at 1. unfold bind at 1, _polite_delay, tell.
           destruct (google_search_loop _ _ _ _ _ _ _ _ _) as [[res2 w2] t2] eqn:Hrest.
           intros [= _ _ <-]. simpl. apply prefix_cons. by eapply IH.
        -- unfold raise; simpl. destruct (is_HTTPError e).
           ++ unfold bind, _polite_delay, tell.
              destruct (google_search_loop _ _ _ _ _ _ _ _ _)
                as [[res2 w2] t2] eqn:Hrest.
              intros [= _ _ <-]. simpl. apply prefix_cons.
              change (google_queries_of t2 `prefix_of` site_query <$> rest).
              by eapply IH.
           ++ intros [= _ _ <-]. simpl. apply prefix_cons, prefix_nil.
      * destruct (status_code r =? 429).
        -- unfold bind at 1, sleep, tell, ret at 1, bind at 1, _polite_delay, tell.
           destruct (google_search_loop _ _ _ _ _ _ _ _ _) as [[res2 w2] t2] eqn:Hrest.
           intros [= _ _ <-]. simpl. apply prefix_cons. by eapply IH.
        -- unfold ret at 1, bind at 1, _polite_delay, tell.
           destruct (google_search_loop _ _ _ _ _ _ _ _ _) as [[res2 w2] t2] eqn:Hrest.
           intros [= _ _ <-]. simpl. apply prefix_cons. by eapply IH.
    + destruct (is_HTTPError e).
      * unfold ret at 1, bind at 1, _polite_delay, tell.
        destruct (google_search_loop _ _ _ _ _ _ _ _ _) as [[res2 w2] t2] eqn:Hrest.
        intros [= _ _ <-]. simpl. apply prefix_cons. by eapply IH.
      * intros [= _ _ <-]. simpl. apply prefix_cons, prefix_nil.
Qed.

Lemma keep_first_distinct earlier l :
  NoDup (profile_url <$> l) ->
  (forall c, c ∈ l -> profile_url c ∉ earlier) ->
  keep_first earlier l = l.
Proof.
  revert earlier. induction l as [|d l IH]; intros earlier Hnd Hfresh; [done|].
  rewrite fmap_cons in Hnd. apply NoDup_cons in Hnd as [Hd Hnd].
  cbn [keep_first].
  rewrite (bool_decide_eq_false_2 (profile_url d ∈ earlier))
    by (apply Hfresh; by left).
  f_equal. apply IH; [done|].
  intros c Hc [Heq|Hin]%elem_of_cons.
  - apply Hd. apply list_elem_of_fmap. by exists c.
  - apply (Hfresh c); [by right | done].
Qed.

Lemma dedup_truncate_distinct l max_results :
  NoDup (profile_url <$> l) ->
  Z.of_nat (length l) <= max_results ->
  dedup_truncate l max_results = l.
Proof.
  intros Hnd Hlen. unfold dedup_truncate.
  rewrite deduplicate_keep_first, keep_first_distinct; [|done|].
  - by apply py_slice_to_all.
  - intros c _ ?%elem_of_nil. done.
Qed.

Lemma parse_search_results_omap data :
  _parse_search_results data
  = omap search_item (match included data with Some l => l | None => [] end).
Proof. unfold _parse_search_results. by rewrite fold_left_snoc_opt. Qed.

(** C4. In both per-query loops a response with status 429 to the query at
    hand costs one request, the fixed cooldown (60 on the authenticated
    path, 30 on the fallback path) and the polite delay, after which the
    loop goes on with the remaining queries and the candidates unchanged;
    no run of a loop requests a query twice or out of order.  In
    particular, when the criteria give two queries, the token is obtained,
    the first search request is answered 429 and the second 200 with three
    records that normalize to three profiles of distinct URLs, and
    [max_results] is at least 3, the authenticated [search_people] returns
    exactly these three profiles and raises nothing. *)
Theorem rate_limit_skips_to_next_query
    (net : nat -> request -> http_result) (max_results : Z) :
  (forall li_at csrf query rest candidates w r,
      Z.of_nat (length candidates) < max_results ->
      net (clock w)
          (VoyagerSearch li_at csrf query
             (Z.min 25 (max_results - Z.of_nat (length candidates)))) = Resp r ->
      status_code r = 429 ->
      voyager_loop net li_at csrf max_results (query :: rest) candidates w
      = let '(res, w2, t) :=
          voyager_loop net li_at csrf max_results rest candidates (tick w) in
        (res, w2,
         EvGet (VoyagerSearch li_at csrf query
                  (Z.min 25 (max_results - Z.of_nat (length candidates))))
         :: EvSleep 60 :: EvPoliteDelay 2 5 :: t))
  /\ (forall unquote bracketed_ok nfkc_ok soup_select query rest candidates w r,
      Z.of_nat (length candidates) < max_results ->
      net (clock w) (GoogleSearch (site_query query) 10) = Resp r ->
      status_code r = 429 ->
      google_search_loop net unquote bracketed_ok nfkc_ok soup_select max_results
        (query :: rest) candidates w
      = let '(res, w2, t) :=
          google_search_loop net unquote bracketed_ok nfkc_ok soup_select
            max_results rest candidates (tick w) in
        (res, w2,
         EvGet (GoogleSearch (site_query query) 10)
         :: EvSleep 30 :: EvPoliteDelay 3 7 :: t))
  /\ (forall li_at csrf queries candidates w res w' t,
      voyager_loop net li_at csrf max_results queries candidates w = (res, w', t) ->
      voyager_queries_of t `prefix_of` queries)
  /\ (forall unquote bracketed_ok nfkc_ok soup_select queries candidates w res w' t,
      google_search_loop net unquote bracketed_ok nfkc_ok soup_select max_results
        queries candidates w = (res, w', t) ->
      google_queries_of t `prefix_of` (site_query <$> queries))
  /\ (forall li_at criteria q1 q2 w csrf w0 t0 r1 r2 data it1 it2 it3 p1 p2 p3,
      _build_search_keywords criteria = [q1; q2] ->
      _get_csrf_token net li_at w = (Returned csrf, w0, t0) ->
      3 <= max_results ->
      net (clock w0) (VoyagerSearch li_at csrf q1 (Z.min 25 max_results)) = Resp r1 ->
      status_code r1 = 429 ->
      net (S (clock w0)) (VoyagerSearch li_at csrf q2 (Z.min 25 max_results)) = Resp r2 ->
      status_code r2 = 200 ->
      json r2 = Some data ->
      included data = Some [it1; it2; it3] ->
      search_item it1 = Some p1 ->
      search_item it2 = Some p2 ->
      search_item it3 = Some p3 ->
      NoDup [profile_url p1; profile_url p2; profile_url p3] ->
      voyager_search_people net li_at criteria max_results w
      = (Returned [p1; p2; p3], tick (tick w0),
         t0 ++ [EvGet (VoyagerSearch li_at csrf q1 (Z.min 25 max_results));
                EvSleep 60; EvPoliteDelay 2 5;
                EvGet (VoyagerSearch li_at csrf q2 (Z.min 25 max_results));
                EvPoliteDelay 2 5])).
Proof.
  split; [|split; [|split; [|split]]].
  - intros li_at csrf query rest candidates w r Hlt Hnet Hstatus.
    by apply (voyager_loop_429 _ _ _ _ _ _ _ _ r).
  - intros unquote bracketed_ok nfkc_ok soup_select query rest candidates w r
      Hlt Hnet Hstatus.
    by apply (google_search_loop_429 _ _ _ _ _ _ _ _ _ _ r).
  - intros li_at csrf queries candidates w res w' t. apply voyager_loop_requests.
  - intros unquote bracketed_ok nfkc_ok soup_select queries candidates w res w' t.
    apply google_search_loop_requests.
  - intros li_at criteria q1 q2 w csrf w0 t0 r1 r2 data it1 it2 it3 p1 p2 p3
      Hq Hcsrf Hmax Hn1 Hs1 Hn2 Hs2 Hjson Hinc H1 H2 H3 Hnd.
    assert (Hparse : _parse_search_results data = [p1; p2; p3]).
    { rewrite parse_search_results_omap, Hinc. simpl. by rewrite H1, H2, H3. }
    unfold voyager_search_people, voyager_accumulate.
    unfold bind at 1. unfold bind at 1. rewrite Hcsrf, Hq.
    rewrite (voyager_loop_429 net li_at csrf max_results q1 [q2] [] w0 r1);
      [|simpl; lia|simpl; by rewrite Z.sub_0_r|done].
    rewrite (voyager_loop_200 net li_at csrf max_results q2 [] [] (tick w0) r2 data);
      [|simpl; lia|simpl; by rewrite Z.sub_0_r|done|done].
    simpl. rewrite Hparse, Z.sub_0_r. unfold ret. 
    rewrite dedup_truncate_distinct; [|done|simpl; lia].
    by rewrite !app_nil_r.
Qed.

Lemma rate_limit_skips_to_next_query_witness :
  voyager_search_people sample_net "li_at" sample_criteria 25 world_with_token
  = (Returned
       [stub_profile "Jane Doe" None "https://www.linkedin.com/in/jane-doe";
        stub_profile "John Smith" None "https://www.linkedin.com/in/john-smith";
        stub_profile "Ann Lee" None "https://www.linkedin.com/in/ann-lee"],
     tick (tick world_with_token),
     [] ++ [EvGet (VoyagerSearch "li_at" "ajax:0123"
                     "Backend Engineer python backend" (Z.min 25 25));
            EvSleep 60; EvPoliteDelay 2 5;
            EvGet (VoyagerSearch "li_at" "ajax:0123"
                     "python backend Boston" (Z.min 25 25));
            EvPoliteDelay 2 5]).
Proof.
  refine (proj2 (proj2 (proj2 (proj2 (rate_limit_skips_to_next_query sample_net 25))))
            "li_at" sample_criteria
            "Backend Engineer python backend" "python backend Boston"
            world_with_token "ajax:0123" world_with_token []
            (empty_response 429)
            {| status_code := 200; json := Some sample_records;
               text := EmptyString; jsessionid := None |}
            sample_records
            (mini_profile "jane-doe" "Jane" "Doe")
            (mini_profile "john-smith" "John" "Smith")
            (mini_profile "ann-lee" "Ann" "Lee")
            _ _ _ _ _ _ _ _ _ _ _ _ _ _ _ _);
    try reflexivity; try (vm_compute; reflexivity).
  - lia.
  - apply (bool_decide_unpack _). vm_compute. exact I.
Defined.

(* ================================================================== *)
(** * Profile enrichment *)
(* ================================================================== *)

(** C5, as the claim states it, fails: a 200 response whose body does not
    decode makes [enrich_profile] raise instead of returning [None]. *)
Lemma enrich_profile_undecodable_body_raises :
  enrich_profile undecodable_net "li_at" "jane-doe" fresh_world
  = (Raised JSONDecodeError, tick fresh_world,
     [EvGet (VoyagerProfile "li_at" "jane-doe")]).
Proof. reflexivity. Qed.

(** C5 (amended). [enrich_profile] returns [None] when the fetch raises an
    [httpx.HTTPError] or the status is not 200, and a profile when the
    status is 200 and the body decodes; it returns a profile in that case
    only.  A body of a 200 response that does not decode, and a fetch
    exception that is no [httpx.HTTPError], propagate to the caller. *)
Theorem enrich_profile_outcomes
    (net : nat -> request -> http_result) (li_at public_id : string) (w : world) :
  let req := VoyagerProfile li_at public_id in
  let run := enrich_profile net li_at public_id w in
  (forall e, net (clock w) req = GetRaises e -> is_HTTPError e = true ->
             run = (Returned None, tick w, [EvGet req]))
  /\ (forall r, net (clock w) req = Resp r -> status_code r <> 200 ->
                run = (Returned None, tick w, [EvGet req]))
  /\ (forall r data, net (clock w) req = Resp r -> status_code r = 200 ->
                     json r = Some data ->
                     run = (Returned (Some (_parse_full_profile data public_id)),
                            tick w, [EvGet req]))
  /\ (forall r, net (clock w) req = Resp r -> status_code r = 200 ->
                json r = None ->
                run = (Raised JSONDecodeError, tick w, [EvGet req]))
  /\ (forall e, net (clock w) req = GetRaises e -> is_HTTPError e = false ->
                run = (Raised e, tick w, [EvGet req]))
  /\ (forall p w' t, run = (Returned (Some p), w', t) ->
        exists r data, net (clock w) req = Resp r /\ status_code r = 200
                       /\ json r = Some data
                       /\ p = _parse_full_profile data public_id).
Proof.
  intros req run. subst run req.
  unfold enrich_profile, try_except, bind, http_get, resp_json, ret, raise.
  repeat split.
  - intros e -> He. simpl. by rewrite He.
  - intros r -> Hs. simpl. apply Z.eqb_neq in Hs. by rewrite Hs.
  - intros r data -> Hs Hj. simpl. by rewrite Hs, Hj.
  - intros r -> Hs Hj. simpl. by rewrite Hs, Hj.
  - intros e -> He. simpl. by rewrite He.
  - intros p w' t. destruct (net (clock w) _) as [r|e]; simpl.
    + destruct (Z.eqb_spec (status_code r) 200) as [Hs|Hs]; simpl.
      * destruct (json r) as [data|] eqn:Hj; simpl; [|discriminate].
        intros [= <- _ _]. by exists r, data.
      * discriminate.
    + destruct (is_HTTPError e); simpl; discriminate.
Qed.

Lemma enrich_profile_outcomes_witness :
  enrich_profile sample_net "li_at" "jane-doe" fresh_world
  = (Returned None, tick fresh_world, [EvGet (VoyagerProfile "li_at" "jane-doe")]).
Proof.
  refine (proj1 (proj2 (enrich_profile_outcomes sample_net "li_at" "jane-doe"
                          fresh_world))
            (empty_response 429) eq_refl _).
  simpl. discriminate.
Defined.

(* ================================================================== *)
(** * Records without a name *)
(* ================================================================== *)

Lemma append_cons (c : ascii) (s t : string) :
  String c s +:+ t = String c (s +:+ t).
Proof. reflexivity. Qed.

Lemma append_empty_l (t : string) : EmptyString +:+ t = t.
Proof. reflexivity. Qed.

Lemma append_empty_r (s : string) : s +:+ EmptyString = s.
Proof. induction s as [|c s IH]; [done|]. by rewrite append_cons, IH. Qed.

Lemma forallb_append (p : ascii -> bool) (s t : string) :
  PyStr.forallb p (s +:+ t) = PyStr.forallb p s && PyStr.forallb p t.
Proof.
  induction s as [|c s IH]; [done|].
  rewrite append_cons. simpl. rewrite IH. by rewrite andb_assoc.
Qed.










(* ================================================================== *)
(** * Facts about the string methods *)
(* ================================================================== *)

Lemma append_assoc (s t u : string) : (s +:+ t) +:+ u = s +:+ t +:+ u.
Proof.
  induction s as [|c s IH]; [done|]. by rewrite !append_cons, IH.
Qed.

Lemma length_append (s t : string) :
  String.length (s +:+ t) = (String.length s + String.length t)%nat.
Proof.
  induction s as [|c s IH]; [done|]. rewrite append_cons. simpl. by rewrite IH.
Qed.

Lemma mem_append (c : ascii) (s t : string) :
  PyStr.mem c (s +:+ t) = PyStr.mem c s || PyStr.mem c t.
Proof.
  induction s as [|d s IH]; [done|]. rewrite append_cons. simpl.
  destruct (Ascii.eqb c d); [done | exact IH].
Qed.

Lemma partition_char_Some c s before after :
  PyStr.partition_char c s = Some (before, after) ->
  s = before +:+ String c after /\ PyStr.mem c before = false.
Proof.
  revert before. induction s as [|d s IH]; intros before; simpl; [done|].
  destruct (Ascii.eqb_spec d c) as [->|Hne].
  - intros [= <- <-]. done.
  - destruct (PyStr.partition_char c s) as [[b a]|]; [|done].
    intros [= <- <-]. destruct (IH b eq_refl) as [-> Hb].
    split; [done|]. simpl.
    destruct (Ascii.eqb_spec c d) as [->|_]; [done | exact Hb].
Qed.

Lemma partition_char_None c s :
  PyStr.partition_char c s = None -> PyStr.mem c s = false.
Proof.
  induction s as [|d s IH]; simpl; [done|].
  destruct (Ascii.eqb_spec d c) as [->|Hne]; [done|].
  destruct (PyStr.partition_char c s) as [[b a]|]; [done|].
  intros _. destruct (Ascii.eqb_spec c d) as [->|_]; [done | by apply IH].
Qed.

Lemma partition_char_not_mem c s :
  PyStr.mem c s = false -> PyStr.partition_char c s = None.
Proof.
  induction s as [|d s IH]; simpl; [done|].
  destruct (Ascii.eqb_spec c d) as [->|Hne]; [done|].
  intros Hs. destruct (Ascii.eqb_spec d c) as [->|_]; [done|].
  by rewrite IH.
Qed.

Lemma rsplit_at_Some c s a b :
  Urllib.rsplit_at c s = Some (a, b) -> s = a +:+ b.
Proof.
  revert a. induction s as [|d s IH]; intros a; simpl; [done|].
  destruct (Urllib.rsplit_at c s) as [[a' b']|].
  - intros [= <- <-]. rewrite append_cons. f_equal. by apply IH.
  - destruct (Ascii.eqb d c); [|done]. intros [= <- <-]. done.
Qed.

(** What [rstrip] returns is a prefix of its argument and does not end
    with a stripped character. *)
Lemma rstrip_with_prefix p s :
  exists t, s = PyStr.rstrip_with p s +:+ t.
Proof.
  induction s as [|c s [t IH]]; [by exists EmptyString|]. simpl.
  destruct (PyStr.rstrip_with p s) as [|d r] eqn:Hr.
  - destruct (p c).
    + by exists (String c s).
    + exists s. done.
  - exists t. rewrite append_cons. by f_equal.
Qed.

Lemma rstrip_with_last p s c :
  last_char (PyStr.rstrip_with p s) = Some c -> p c = false.
Proof.
  induction s as [|d s IH]; simpl; [done|].
  destruct (PyStr.rstrip_with p s) as [|e r] eqn:Hr.
  - destruct (p d) eqn:Hd; simpl; [done|]. by intros [= <-].
  - intros Hl. apply IH. exact Hl.
Qed.

Lemma mem_rstrip_with c p s :
  PyStr.mem c s = false -> PyStr.mem c (PyStr.rstrip_with p s) = false.
Proof.
  intros Hs. destruct (rstrip_with_prefix p s) as [t Ht].
  rewrite Ht, mem_append in Hs. by apply orb_false_iff in Hs as [? _].
Qed.

Lemma last_char_append_nonempty s c t :
  last_char (s +:+ String c t) = last_char (String c t).
Proof.
  induction s as [|d s IH]; [done|]. rewrite append_cons.
  destruct (s +:+ String c t) as [|e u] eqn:Hs.
  - destruct s; [rewrite append_empty_l in Hs | rewrite append_cons in Hs];
      discriminate Hs.
  - exact IH.
Qed.

Lemma starts_with_append (s t : string) : PyStr.starts_with s (s +:+ t) = true.
Proof.
  induction s as [|c s IH]; [done|]. rewrite append_cons. simpl.
  by rewrite Ascii.eqb_refl.
Qed.

(* ================================================================== *)
(** * Facts about [urlparse] *)
(* ================================================================== *)

Lemma splitparams_mem c url :
  PyStr.mem c url = false -> PyStr.mem c (fst (Urllib._splitparams url)) = false.
Proof.
  intros Hc. unfold Urllib._splitparams.
  destruct (Urllib.rsplit_at "/" url) as [[a b]|] eqn:Hr.
  - apply rsplit_at_Some in Hr. subst url.
    rewrite mem_append in Hc. apply orb_false_iff in Hc as [Ha Hb].
    destruct (PyStr.partition_char ";" b) as [[b1 b2]|] eqn:Hp; simpl.
    + apply partition_char_Some in Hp as [-> _].
      rewrite mem_append in Hb. apply orb_false_iff in Hb as [Hb1 _].
      by rewrite mem_append, Ha, Hb1.
    + by rewrite mem_append, Ha, Hb.
  - destruct (PyStr.partition_char ";" url) as [[u p]|] eqn:Hp; simpl; [|done].
    apply partition_char_Some in Hp as [-> _].
    rewrite mem_append in Hc. by apply orb_false_iff in Hc as [? _].
Qed.

Lemma split_at_char_fst c url :
  PyStr.mem c (fst (Urllib.split_at_char c url)) = false.
Proof.
  unfold Urllib.split_at_char.
  destruct (PyStr.partition_char c url) as [[u rest]|] eqn:Hp; simpl.
  - by apply partition_char_Some in Hp as [_ ?].
  - by apply partition_char_None.
Qed.

Lemma split_at_char_fst_mem c d url :
  PyStr.mem d url = false -> PyStr.mem d (fst (Urllib.split_at_char c url)) = false.
Proof.
  intros Hd. unfold Urllib.split_at_char.
  destruct (PyStr.partition_char c url) as [[u rest]|] eqn:Hp; simpl; [|done].
  apply partition_char_Some in Hp as [-> _].
  rewrite mem_append in Hd. by apply orb_false_iff in Hd as [? _].
Qed.

(** The path component holds neither [?] nor [#]. *)
Lemma urlsplit_path_clean bracketed_ok nfkc_ok url r :
  Urllib.urlsplit bracketed_ok nfkc_ok url = Some r ->
  PyStr.mem "?" (Urllib.path r) = false /\ PyStr.mem "#" (Urllib.path r) = false.
Proof.
  unfold Urllib.urlsplit.
  destruct (Urllib.split_scheme _) as [sch url1].
  destruct (Urllib.split_authority url1) as [nl url2].
  destruct (negb _); [done|].
  pose proof (split_at_char_fst "#" url2) as Hf.
  destruct (Urllib.split_at_char "#" url2) as [u f]. simpl in Hf.
  pose proof (split_at_char_fst "?" u) as Hq.
  pose proof (split_at_char_fst_mem "?" "#" u Hf) as Hf'.
  destruct (Urllib.split_at_char "?" u) as [u' q]. simpl in Hq, Hf'.
  by intros [= <-].
Qed.

Lemma urlparse_path_clean bracketed_ok nfkc_ok url r :
  Urllib.urlparse bracketed_ok nfkc_ok url = Some r ->
  PyStr.mem "?" (Urllib.path r) = false /\ PyStr.mem "#" (Urllib.path r) = false.
Proof.
  unfold Urllib.urlparse.
  destruct (Urllib.urlsplit bracketed_ok nfkc_ok url) as [r0|] eqn:Hs; [|done].
  apply urlsplit_path_clean in Hs as [Hq Hf].
  destruct (_ && _).
  - destruct (Urllib._splitparams (Urllib.path r0)) as [u p] eqn:Hsp.
    intros [= <-]. simpl.
    pose proof (splitparams_mem "?" _ Hq) as Hq'.
    pose proof (splitparams_mem "#" _ Hf) as Hf'.
    rewrite Hsp in Hq', Hf'. done.
  - by intros [= <-].
Qed.

(* ================================================================== *)
(** * Facts about [split] and the first occurrence of a separator *)
(* ================================================================== *)

Lemma partition_first_cons sep c rest :
  partition_first sep (String c rest)
  = if PyStr.starts_with sep (String c rest)
    then Some (EmptyString, PyStr.drop (String.length sep) (String c rest))
    else match partition_first sep rest with
         | Some (before, after) => Some (String c before, after)
         | None => None
         end.
Proof. reflexivity. Qed.

Lemma starts_with_drop sep s :
  PyStr.starts_with sep s = true -> s = sep +:+ PyStr.drop (String.length sep) s.
Proof.
  revert s. induction sep as [|a sep IH]; intros s; [by destruct s|].
  destruct s as [|b s]; [done|]. simpl.
  intros [Hab Hs]%andb_true_iff. apply Ascii.eqb_eq in Hab as ->.
  rewrite append_cons. f_equal. by apply IH.
Qed.

(** [partition_first] cuts at the first occurrence of the separator. *)
Lemma partition_first_spec sep s before after :
  partition_first sep s = Some (before, after) ->
  s = before +:+ sep +:+ after
  /\ forall before' after', s = before' +:+ sep +:+ after' ->
                            (String.length before <= String.length before')%nat.
Proof.
  revert before. induction s as [|c s IH]; intros before.
  - simpl. destruct (PyStr.starts_with sep "") eqn:Hp; [|done].
    intros [= <- <-]. split; [by apply starts_with_drop | simpl; lia].
  - rewrite partition_first_cons.
    destruct (PyStr.starts_with sep (String c s)) eqn:Hp.
    + intros [= <- <-]. split; [by apply starts_with_drop | simpl; lia].
    + destruct (partition_first sep s) as [[b a]|]; [|done].
      intros [= <- <-]. destruct (IH b eq_refl) as [Hs Hmin]. split.
      * rewrite append_cons. by f_equal.
      * intros [|d before'] after' Heq.
        -- rewrite append_empty_l in Heq.
           rewrite Heq, starts_with_append in Hp. discriminate.
        -- rewrite append_cons in Heq. injection Heq as _ Heq.
           simpl. apply le_n_S. by eapply Hmin.
Qed.

Lemma contains_partition_first sep s :
  PyStr.contains sep s
  = match partition_first sep s with Some _ => true | None => false end.
Proof.
  induction s as [|c s IH].
  - simpl. by destruct (PyStr.starts_with sep "").
  - rewrite partition_first_cons. simpl PyStr.contains.
    destruct (PyStr.starts_with sep (String c s)); [done|]. simpl. rewrite IH.
    by destruct (partition_first sep s) as [[b a]|].
Qed.

Lemma split_go_skip sep k cur s :
  PyStr.split_go sep k cur s = PyStr.split_go sep O cur (PyStr.drop k s).
Proof.
  revert s. induction k as [|k IH]; intros s; [by destruct s|].
  destruct s as [|c s]; [done|]. simpl. by rewrite IH.
Qed.

Lemma split_go_cons sep cur c rest :
  PyStr.split_go sep O cur (String c rest)
  = if PyStr.starts_with sep (String c rest)
    then cur :: PyStr.split_go sep (String.length sep - 1) EmptyString rest
    else PyStr.split_go sep O (cur +:+ String c EmptyString) rest.
Proof. reflexivity. Qed.

Lemma split_go_partition_first sep s :
  sep <> EmptyString ->
  forall cur,
    PyStr.split_go sep O cur s
    = match partition_first sep s with
      | Some (before, after) => (cur +:+ before) :: PyStr.split_go sep O EmptyString after
      | None => [cur +:+ s]
      end.
Proof.
  intros Hsep. destruct sep as [|a sep]; [done|].
  induction s as [|c s IH]; intros cur.
  - simpl. by rewrite append_empty_r.
  - rewrite partition_first_cons, split_go_cons.
    destruct (PyStr.starts_with (String a sep) (String c s)) eqn:Hp.
    + rewrite append_empty_r. f_equal.
      rewrite split_go_skip. simpl. by rewrite Nat.sub_0_r.
    + rewrite IH. destruct (partition_first (String a sep) s) as [[b r]|].
      * by rewrite append_assoc, append_cons, append_empty_l.
      * by rewrite append_assoc, append_cons, append_empty_l.
Qed.

Lemma split_partition_first sep s :
  sep <> EmptyString ->
  PyStr.split sep s
  = match partition_first sep s with
    | Some (before, after) => before :: PyStr.split sep after
    | None => [s]
    end.
Proof.
  intros Hsep. unfold PyStr.split. rewrite split_go_partition_first by done.
  by destruct (partition_first sep s) as [[b a]|].
Qed.


(* ================================================================== *)
(** * The fallback parser, anchor by anchor *)
(* ================================================================== *)

Section GoogleParserFacts.
Variable unquote : string -> string.
Variable bracketed_ok : string -> bool.
Variable nfkc_ok : string -> bool.

(** What an anchor that yields a profile looks like. *)
Lemma google_anchor_Some a p :
  google_anchor unquote bracketed_ok nfkc_ok a = Returned (Some p) ->
  PyStr.contains "linkedin.com/in/" (unwrap_redirect unquote (href a)) = true
  /\ exists parsed,
       Urllib.urlparse bracketed_ok nfkc_ok (unwrap_redirect unquote (href a))
         = Some parsed
       /\ public_id_of_path (PyStr.rstrip_chars "/" (Urllib.path parsed))
            <> EmptyString
       /\ p = stub_profile
                (fst (snippet_name_headline
                        (public_id_of_path (PyStr.rstrip_chars "/" (Urllib.path parsed)))
                        (anchor_text a)))
                (snd (snippet_name_headline
                        (public_id_of_path (PyStr.rstrip_chars "/" (Urllib.path parsed)))
                        (anchor_text a)))
                (LINKEDIN_HOST_PREFIX +:+ PyStr.rstrip_chars "/" (Urllib.path parsed)).
Proof.
  unfold google_anchor.
  destruct (PyStr.contains "linkedin.com/in/" _) eqn:Hc; [|done]. simpl.
  destruct (Urllib.urlparse _ _ _) as [parsed|]; [|done].
  destruct (public_id_of_path _) as [|c pid] eqn:Hid; [done|]. simpl.
  destruct (snippet_name_headline _ _) as [nm hl] eqn:Hsn.
  intros [= <-]. split; [done|]. exists parsed. split; [done|].
  rewrite Hid. split; [done|]. by rewrite Hsn.
Qed.

(** The URL of a profile built from a path without [?] and [#]. *)
Lemma canonical_url_clean path0 :
  PyStr.mem "?" path0 = false -> PyStr.mem "#" path0 = false ->
  let url := LINKEDIN_HOST_PREFIX +:+ PyStr.rstrip_chars "/" path0 in
  PyStr.starts_with LINKEDIN_HOST_PREFIX url = true
  /\ PyStr.mem "?" url = false
  /\ PyStr.mem "#" url = false
  /\ last_char url <> Some "/"%char.
Proof.
  intros Hq Hf url. subst url. unfold PyStr.rstrip_chars.
  split; [apply starts_with_append|].
  rewrite !mem_append, !mem_rstrip_with by done.
  split; [done|]. split; [done|].
  destruct (PyStr.rstrip_with _ path0) as [|c r] eqn:Hr.
  - by rewrite append_empty_r.
  - rewrite last_char_append_nonempty, <- Hr. intros Hl.
    by apply rstrip_with_last in Hl.
Qed.

Lemma google_loop_elem_of tags :
  forall candidates profiles p,
    google_loop unquote bracketed_ok nfkc_ok tags candidates = Returned profiles ->
    p ∈ profiles ->
    p ∈ candidates \/
    exists a, a ∈ tags /\
              google_anchor unquote bracketed_ok nfkc_ok a = Returned (Some p).
Proof.
  induction tags as [|a tags IH]; intros candidates profiles p; simpl.
  - intros [= <-] Hp. by left.
  - destruct (google_anchor unquote bracketed_ok nfkc_ok a) as [[q|]|e] eqn:Ha;
      [| |done].
    + intros Hrun Hp. destruct (IH _ _ _ Hrun Hp) as [Hin|(a' & Hin & Ha')].
      * apply elem_of_app in Hin as [Hin|Hin]; [by left|].
        apply list_elem_of_singleton in Hin as ->. right. exists a.
        split; [by left | done].
      * right. exists a'. split; [by right | done].
    + intros Hrun Hp. destruct (IH _ _ _ Hrun Hp) as [Hin|(a' & Hin & Ha')].
      * by left.
      * right. exists a'. split; [by right | done].
Qed.

Lemma google_loop_two a1 a2 p1 p2 :
  google_anchor unquote bracketed_ok nfkc_ok a1 = Returned (Some p1) ->
  google_anchor unquote bracketed_ok nfkc_ok a2 = Returned (Some p2) ->
  parse_google_anchors unquote bracketed_ok nfkc_ok [a1; a2] = Returned [p1; p2].
Proof.
  intros H1 H2. unfold parse_google_anchors. simpl. by rewrite H1, H2.
Qed.

Lemma public_id_of_path_marker path before rest :
  partition_first "/in/" path = Some (before, rest) ->
  PyStr.contains "/in/" rest = false ->
  public_id_of_path path
  = match partition_first "/" rest with
    | Some (public_id, _) => public_id
    | None => rest
    end.
Proof.
  intros Hp Hrest. unfold public_id_of_path.
  rewrite contains_partition_first, Hp.
  rewrite (split_partition_first "/in/" path), Hp by done.
  rewrite contains_partition_first in Hrest.
  rewrite (split_partition_first "/in/" rest) by done.
  destruct (partition_first "/in/" rest) as [[b r]|]; [done|].
  unfold PyStr.last_segment. simpl List.last.
  rewrite (split_partition_first "/" rest) by done.
  by destruct (partition_first "/" rest) as [[b r]|].
Qed.

End GoogleParserFacts.

Lemma deduplicate_same_url p1 p2 :
  profile_url p1 = profile_url p2 -> deduplicate [p1; p2] = [p1].
Proof.
  intros Heq. rewrite deduplicate_keep_first. cbn [keep_first].
  rewrite (bool_decide_eq_false_2 (profile_url p1 ∈ [])) by apply not_elem_of_nil.
  rewrite (bool_decide_eq_true_2 (profile_url p2 ∈ [profile_url p1])); [done|].
  rewrite Heq. by left.
Qed.

(* ================================================================== *)
(** * A query appended to a link does not change its path *)
(* ================================================================== *)

Lemma lstrip_with_append_stop p s c t :
  p c = false ->
  PyStr.lstrip_with p (s +:+ String c t) = PyStr.lstrip_with p s +:+ String c t.
Proof.
  intros Hc. induction s as [|d s IH].
  - rewrite !append_empty_l. simpl. by rewrite Hc.
  - rewrite append_cons. simpl. destruct (p d); [exact IH|].
    by rewrite append_cons.
Qed.

Lemma remove_if_append p s t :
  PyStr.remove_if p (s +:+ t) = PyStr.remove_if p s +:+ PyStr.remove_if p t.
Proof.
  induction s as [|d s IH]; [done|]. rewrite append_cons. simpl.
  destruct (p d); [exact IH|]. by rewrite append_cons, IH.
Qed.

Lemma mem_lstrip_with c p s :
  PyStr.mem c s = false -> PyStr.mem c (PyStr.lstrip_with p s) = false.
Proof.
  induction s as [|d s IH]; [done|]. simpl.
  destruct (Ascii.eqb c d) eqn:Hcd; [done|]. intros Hs.
  destruct (p d); [by apply IH|]. simpl. by rewrite Hcd.
Qed.

Lemma mem_remove_if c p s :
  PyStr.mem c s = false -> PyStr.mem c (PyStr.remove_if p s) = false.
Proof.
  induction s as [|d s IH]; [done|]. simpl.
  destruct (Ascii.eqb c d) eqn:Hcd; [done|]. intros Hs.
  destruct (p d); [by apply IH|]. simpl. rewrite Hcd. by apply IH.
Qed.

Lemma partition_char_append c s t before after :
  PyStr.partition_char c s = Some (before, after) ->
  PyStr.partition_char c (s +:+ t) = Some (before, after +:+ t).
Proof.
  revert before. induction s as [|d s IH]; intros before; [done|].
  rewrite append_cons. simpl. destruct (Ascii.eqb d c); [by intros [= <- <-]|].
  destruct (PyStr.partition_char c s) as [[b a]|]; [|done].
  intros [= <- <-]. by rewrite (IH b eq_refl).
Qed.

Lemma partition_char_append_None c s t :
  PyStr.partition_char c s = None ->
  PyStr.partition_char c (s +:+ t)
  = match PyStr.partition_char c t with
    | Some (before, after) => Some (s +:+ before, after)
    | None => None
    end.
Proof.
  induction s as [|d s IH].
  - intros _. rewrite append_empty_l.
    by destruct (PyStr.partition_char c t) as [[b a]|].
  - rewrite append_cons. simpl. destruct (Ascii.eqb d c); [done|].
    destruct (PyStr.partition_char c s) as [[b a]|]; [done|].
    intros _. rewrite IH by done.
    by destruct (PyStr.partition_char c t) as [[b a]|].
Qed.

Lemma span_append_stop p s c t :
  p c = false ->
  PyStr.span p (s +:+ String c t)
  = (fst (PyStr.span p s), snd (PyStr.span p s) +:+ String c t).
Proof.
  intros Hc. induction s as [|d s IH].
  - rewrite append_empty_l. simpl. by rewrite Hc.
  - rewrite append_cons. simpl. destruct (p d).
    + rewrite IH. by destruct (PyStr.span p s).
    + done.
Qed.

Lemma mem_span_snd c p s :
  PyStr.mem c s = false -> PyStr.mem c (snd (PyStr.span p s)) = false.
Proof.
  induction s as [|d s IH]; [done|]. simpl.
  destruct (Ascii.eqb c d) eqn:Hcd; [done|]. intros Hs.
  destruct (p d).
  - specialize (IH Hs). by destruct (PyStr.span p s).
  - simpl. by rewrite Hcd.
Qed.

Lemma mem_drop c k s :
  PyStr.mem c s = false -> PyStr.mem c (PyStr.drop k s) = false.
Proof.
  revert s. induction k as [|k IH]; intros s; [by destruct s|].
  destruct s as [|d s]; [done|]. simpl.
  destruct (Ascii.eqb c d); [done|]. apply IH.
Qed.

Lemma split_scheme_query_suffix u q :
  PyStr.mem "?" u = false ->
  Urllib.split_scheme (u +:+ String "?" q)
  = (fst (Urllib.split_scheme u), snd (Urllib.split_scheme u) +:+ String "?" q).
Proof.
  intros Hu. unfold Urllib.split_scheme.
  destruct (PyStr.partition_char ":" u) as [[before after]|] eqn:Hp.
  - rewrite (partition_char_append _ _ _ _ _ Hp).
    destruct before as [|c0 before]; [done|].
    by destruct (_ && _).
  - rewrite (partition_char_append_None _ _ _ Hp). simpl.
    destruct (PyStr.partition_char ":" q) as [[b a]|]; [|done].
    destruct u as [|c0 u]; [done|]. rewrite append_cons, forallb_append.
    change (PyStr.forallb Urllib.scheme_char (String "?" b)) with false.
    by rewrite !andb_false_r.
Qed.

Lemma mem_split_scheme_snd c u :
  PyStr.mem c u = false -> PyStr.mem c (snd (Urllib.split_scheme u)) = false.
Proof.
  intros Hu. unfold Urllib.split_scheme.
  destruct (PyStr.partition_char ":" u) as [[before after]|] eqn:Hp; [|done].
  destruct before as [|c0 before]; [done|].
  destruct (_ && _); [|done]. simpl.
  apply partition_char_Some in Hp as [-> _].
  rewrite mem_append in Hu. apply orb_false_iff in Hu as [_ Hu].
  simpl in Hu. by destruct (Ascii.eqb c ":").
Qed.

Lemma starts_with_slashes_query_suffix u q :
  PyStr.starts_with "//" (u +:+ String "?" q) = PyStr.starts_with "//" u.
Proof.
  destruct u as [|a [|b u]]; [done| |done].
  cbn. by destruct (Ascii.eqb "/" a).
Qed.

Lemma split_authority_query_suffix u q :
  Urllib.split_authority (u +:+ String "?" q)
  = (fst (Urllib.split_authority u),
     snd (Urllib.split_authority u) +:+ String "?" q).
Proof.
  unfold Urllib.split_authority. rewrite starts_with_slashes_query_suffix.
  destruct (PyStr.starts_with "//" u) eqn:Hs; [|done].
  unfold Urllib._splitnetloc.
  destruct u as [|a [|b u]];
    [done | by (simpl in Hs; rewrite andb_false_r in Hs) |].
  rewrite !append_cons. cbn [PyStr.drop].
  by rewrite span_append_stop.
Qed.

Lemma mem_split_authority_snd c u :
  PyStr.mem c u = false -> PyStr.mem c (snd (Urllib.split_authority u)) = false.
Proof.
  intros Hu. unfold Urllib.split_authority.
  destruct (PyStr.starts_with "//" u); [|done].
  unfold Urllib._splitnetloc. by apply mem_span_snd, mem_drop.
Qed.

Lemma split_fragment_query_suffix u q :
  PyStr.mem "#" u = false ->
  exists q', fst (Urllib.split_at_char "#" (u +:+ String "?" q)) = u +:+ String "?" q'.
Proof.
  intros Hu. unfold Urllib.split_at_char.
  rewrite (partition_char_append_None _ _ _ (partition_char_not_mem _ _ Hu)).
  simpl. destruct (PyStr.partition_char "#" q) as [[b a]|]; simpl.
  - by exists b.
  - by exists q.
Qed.

Lemma split_query_suffix u q :
  PyStr.mem "?" u = false ->
  fst (Urllib.split_at_char "?" (u +:+ String "?" q)) = u.
Proof.
  intros Hu. unfold Urllib.split_at_char.
  rewrite (partition_char_append_None _ _ _ (partition_char_not_mem _ _ Hu)).
  simpl. by rewrite append_empty_r.
Qed.

Lemma split_at_char_not_mem c u :
  PyStr.mem c u = false -> Urllib.split_at_char c u = (u, EmptyString).
Proof.
  intros Hu. unfold Urllib.split_at_char. by rewrite partition_char_not_mem.
Qed.

(** [urlsplit] of a link without [?] and [#], and of the same link followed
    by [?] and a query: same scheme, same host, same path. *)
Lemma urlsplit_query_suffix bracketed_ok nfkc_ok link q :
  PyStr.mem "?" link = false -> PyStr.mem "#" link = false ->
  match Urllib.urlsplit bracketed_ok nfkc_ok link,
        Urllib.urlsplit bracketed_ok nfkc_ok (link +:+ String "?" q) with
  | Some r, Some r' =>
      Urllib.scheme r' = Urllib.scheme r /\ Urllib.netloc r' = Urllib.netloc r
      /\ Urllib.path r' = Urllib.path r
  | None, None => True
  | _, _ => False
  end.
Proof.
  intros Hq Hf. unfold Urllib.urlsplit.
  rewrite lstrip_with_append_stop by done.
  rewrite remove_if_append.
  change (PyStr.remove_if Urllib.unsafe_url_byte (String "?" q))
    with (String "?" (PyStr.remove_if Urllib.unsafe_url_byte q)).
  set (u0 := PyStr.remove_if _ (PyStr.lstrip_with _ link)).
  set (q0 := PyStr.remove_if _ q).
  assert (Hq0 : PyStr.mem "?" u0 = false) by by apply mem_remove_if, mem_lstrip_with.
  assert (Hf0 : PyStr.mem "#" u0 = false) by by apply mem_remove_if, mem_lstrip_with.
  rewrite split_scheme_query_suffix by done.
  pose proof (mem_split_scheme_snd "?" u0 Hq0) as Hq1.
  pose proof (mem_split_scheme_snd "#" u0 Hf0) as Hf1.
  destruct (Urllib.split_scheme u0) as [sch u1]. simpl in Hq1, Hf1 |- *.
  rewrite split_authority_query_suffix.
  pose proof (mem_split_authority_snd "?" u1 Hq1) as Hq2.
  pose proof (mem_split_authority_snd "#" u1 Hf1) as Hf2.
  destruct (Urllib.split_authority u1) as [nl u2]. simpl in Hq2, Hf2 |- *.
  destruct (negb _); [done|].
  rewrite (split_at_char_not_mem "#" u2 Hf2), (split_at_char_not_mem "?" u2 Hq2).
  destruct (split_fragment_query_suffix u2 q0 Hf2) as [q' Hfr].
  destruct (Urllib.split_at_char "#" (u2 +:+ String "?" q0)) as [u3 fr].
  simpl in Hfr. subst u3.
  pose proof (split_query_suffix u2 q' Hq2) as Hqu.
  destruct (Urllib.split_at_char "?" (u2 +:+ String "?" q')) as [u4 qu].
  simpl in Hqu. subst u4. done.
Qed.

Lemma urlparse_query_suffix bracketed_ok nfkc_ok link q :
  PyStr.mem "?" link = false -> PyStr.mem "#" link = false ->
  match Urllib.urlparse bracketed_ok nfkc_ok link,
        Urllib.urlparse bracketed_ok nfkc_ok (link +:+ String "?" q) with
  | Some r, Some r' => Urllib.path r' = Urllib.path r
  | None, None => True
  | _, _ => False
  end.
Proof.
  intros Hq Hf. unfold Urllib.urlparse.
  pose proof (urlsplit_query_suffix bracketed_ok nfkc_ok link q Hq Hf) as H.
  destruct (Urllib.urlsplit bracketed_ok nfkc_ok link) as [r|],
           (Urllib.urlsplit bracketed_ok nfkc_ok (link +:+ String "?" q)) as [r'|];
    try done.
  destruct H as (Hs & _ & Hp). rewrite Hs, Hp.
  destruct (_ && _); [|done].
  by destruct (Urllib._splitparams (Urllib.path r)).
Qed.

Lemma contains_append needle s t :
  PyStr.contains needle s = true -> PyStr.contains needle (s +:+ t) = true.
Proof.
  induction s as [|c s IH].
  - simpl. rewrite orb_false_r. destruct needle; [|done]. intros _.
    by destruct t.
  - rewrite append_cons. simpl.
    intros [Hp|Hc]%orb_true_iff.
    + apply orb_true_iff. left. revert Hp. clear IH.
      revert c s. induction needle as [|a needle IHn]; intros c s; [done|].
      simpl. intros [Hac Hn]%andb_true_iff. rewrite Hac. simpl.
      destruct s as [|d s].
      * by destruct needle.
      * rewrite append_cons. by apply IHn.
    + apply orb_true_iff. right. by apply IH.
Qed.

(** A direct link and the same link followed by a query give profiles with
    the same URL. *)
Lemma google_anchor_query_suffix unquote bracketed_ok nfkc_ok link q text text' p :
  PyStr.mem "?" link = false -> PyStr.mem "#" link = false ->
  PyStr.contains "/url?q=" (link +:+ String "?" q) = false ->
  google_anchor unquote bracketed_ok nfkc_ok
    {| href := link; parent_div_text := text |} = Returned (Some p) ->
  exists p',
    google_anchor unquote bracketed_ok nfkc_ok
      {| href := link +:+ String "?" q; parent_div_text := text' |}
    = Returned (Some p')
    /\ profile_url p' = profile_url p.
Proof.
  intros Hq Hf Hw' Hp.
  assert (Hw : PyStr.contains "/url?q=" link = false).
  { destruct (PyStr.contains "/url?q=" link) eqn:Hc; [|done].
    by rewrite (contains_append _ _ (String "?" q) Hc) in Hw'. }
  unfold google_anchor, unwrap_redirect in Hp |- *. simpl href in *.
  rewrite Hw in Hp. rewrite Hw'.
  destruct (PyStr.contains "linkedin.com/in/" link) eqn:Hc; [|done].
  rewrite (contains_append _ _ (String "?" q) Hc). simpl negb in *. cbv iota in *.
  pose proof (urlparse_query_suffix bracketed_ok nfkc_ok link q Hq Hf) as Hparse.
  destruct (Urllib.urlparse bracketed_ok nfkc_ok link) as [r|]; [|done].
  destruct (Urllib.urlparse bracketed_ok nfkc_ok (link +:+ String "?" q)) as [r'|];
    [|done].
  rewrite Hparse.
  destruct (negb (PyStr.truthy _)); [done|].
  destruct (snippet_name_headline _ (anchor_text {| href := link; parent_div_text := text |}))
    as [nm hl].
  injection Hp as <-.
  destruct (snippet_name_headline _ _) as [nm' hl'].
  eexists. split; [done|]. done.
Qed.

(* ================================================================== *)
(** * The fallback parser: URLs, identity, snippets *)
(* ================================================================== *)

(** C7. For every anchor, the profile the fallback parser builds has the
    URL made of the fixed scheme and host and of the path component of the
    link, the query, the fragment and the trailing slashes being dropped;
    the public identifier is computed from that path alone, it is the
    segment that follows the "/in/" marker, and the link is discarded when
    it is empty.  Hence two anchors that yield profiles of the same URL,
    such as two links that differ by a tracking parameter, leave exactly
    one profile after deduplication. *)
Theorem fallback_canonical_url_and_identity
    (unquote : string -> string) (bracketed_ok nfkc_ok : string -> bool)
    (a : a_tag) :
  let link := unwrap_redirect unquote (href a) in
  (forall p,
      google_anchor unquote bracketed_ok nfkc_ok a = Returned (Some p) ->
      exists parsed,
        Urllib.urlparse bracketed_ok nfkc_ok link = Some parsed
        /\ profile_url p
           = "https://www.linkedin.com" +:+ PyStr.rstrip_chars "/" (Urllib.path parsed)
        /\ PyStr.mem "?" (profile_url p) = false
        /\ PyStr.mem "#" (profile_url p) = false
        /\ last_char (profile_url p) <> Some "/"%char
        /\ public_id_of_path (PyStr.rstrip_chars "/" (Urllib.path parsed))
           <> EmptyString)
  /\ (forall parsed,
      PyStr.contains "linkedin.com/in/" link = true ->
      Urllib.urlparse bracketed_ok nfkc_ok link = Some parsed ->
      public_id_of_path (PyStr.rstrip_chars "/" (Urllib.path parsed)) = EmptyString ->
      google_anchor unquote bracketed_ok nfkc_ok a = Returned None)
  /\ (forall path before rest,
      partition_first "/in/" path = Some (before, rest) ->
      PyStr.contains "/in/" rest = false ->
      public_id_of_path path
      = match partition_first "/" rest with
        | Some (public_id, _) => public_id
        | None => rest
        end)
  /\ (forall path, PyStr.contains "/in/" path = false ->
                   public_id_of_path path = EmptyString)
  /\ (forall a' p p',
      google_anchor unquote bracketed_ok nfkc_ok a = Returned (Some p) ->
      google_anchor unquote bracketed_ok nfkc_ok a' = Returned (Some p') ->
      profile_url p = profile_url p' ->
      parse_google_anchors unquote bracketed_ok nfkc_ok [a; a'] = Returned [p; p']
      /\ deduplicate [p; p'] = [p]
      /\ forall max_results, 1 <= max_results ->
                             dedup_truncate [p; p'] max_results = [p])
  /\ (forall direct tracking text text' p,
      PyStr.mem "?" direct = false -> PyStr.mem "#" direct = false ->
      PyStr.contains "/url?q=" (direct +:+ String "?" tracking) = false ->
      google_anchor unquote bracketed_ok nfkc_ok
        {| href := direct; parent_div_text := text |} = Returned (Some p) ->
      exists p',
        parse_google_anchors unquote bracketed_ok nfkc_ok
          [{| href := direct; parent_div_text := text |};
           {| href := direct +:+ String "?" tracking; parent_div_text := text' |}]
        = Returned [p; p']
        /\ profile_url p' = profile_url p
        /\ deduplicate [p; p'] = [p]).
Proof.
  intros link. split; [|split; [|split; [|split; [|split]]]].
  - intros p Hp. apply google_anchor_Some in Hp as (_ & parsed & Hparse & Hid & ->).
    exists parsed. split; [done|]. split; [done|].
    destruct (urlparse_path_clean _ _ _ _ Hparse) as [Hq Hf].
    destruct (canonical_url_clean _ Hq Hf) as (_ & Hq' & Hf' & Hl).
    done.
  - intros parsed Hc Hparse Hid. unfold google_anchor. fold link.
    by rewrite Hc, Hparse, Hid.
  - apply public_id_of_path_marker.
  - intros path Hc. unfold public_id_of_path. by rewrite Hc.
  - intros a' p p' Hp Hp' Heq.
    split; [by apply google_loop_two|]. split; [by apply deduplicate_same_url|].
    intros max_results Hmax. unfold dedup_truncate.
    rewrite deduplicate_same_url by done. apply py_slice_to_all. simpl. lia.
  - intros direct tracking text text' p Hq Hf Hw Hp.
    destruct (google_anchor_query_suffix unquote bracketed_ok nfkc_ok
                direct tracking text text' p Hq Hf Hw Hp) as (p' & Hp' & Heq).
    exists p'. split; [by apply google_loop_two|]. split; [done|].
    by apply deduplicate_same_url.
Qed.

Lemma fallback_canonical_url_and_identity_witness :
  let p := stub_profile "Jane Doe" (Some "Senior Engineer")
             "https://www.linkedin.com/in/jane-doe" in
  exists p',
    parse_google_anchors no_unquote accept_all accept_all [plain_link; tracked_link]
      = Returned [p; p']
    /\ profile_url p' = profile_url p
    /\ deduplicate [p; p'] = [p].
Proof.
  intros p.
  apply (proj2 (proj2 (proj2 (proj2 (proj2
           (fallback_canonical_url_and_identity no_unquote accept_all accept_all
              plain_link)))))
           "https://www.linkedin.com/in/jane-doe" "trk=public_profile"
           (Some "Jane Doe - Senior Engineer - BigCo - LinkedIn")
           (Some "Jane Doe - Staff Engineer") p); reflexivity.
Defined.




(** C9. The fallback parser is a function of the markup: two runs on the
    same markup, or on markups with the same anchors, give the same
    profiles in the same order (or raise the same exception); inside a
    computation a run sends no request, sleeps not, leaves the world as it
    found it, and a second run returns what the first returned. *)
Theorem parse_google_results_deterministic
    (unquote : string -> string) (bracketed_ok nfkc_ok : string -> bool)
    (soup_select : string -> list a_tag)
    (html1 html2 : string) (w : world) :
  (html1 = html2 ->
   _parse_google_results unquote bracketed_ok nfkc_ok soup_select html1
   = _parse_google_results unquote bracketed_ok nfkc_ok soup_select html2)
  /\ (soup_select html1 = soup_select html2 ->
      _parse_google_results unquote bracketed_ok nfkc_ok soup_select html1
      = _parse_google_results unquote bracketed_ok nfkc_ok soup_select html2)
  /\ (let first_run :=
        parse_google_text unquote bracketed_ok nfkc_ok soup_select html1 w in
      let second_run :=
        parse_google_text unquote bracketed_ok nfkc_ok soup_select html1
          (snd (fst first_run)) in
      second_run = first_run
      /\ snd (fst first_run) = w
      /\ snd first_run = []).
Proof.
  split; [|split].
  - by intros ->.
  - unfold _parse_google_results. by intros ->.
  - unfold parse_google_text.
    by destruct (_parse_google_results _ _ _ _ _) as [new|e].
Qed.

Lemma parse_google_results_deterministic_witness :
  _parse_google_results no_unquote accept_all accept_all
    (fun _ => [plain_link; tracked_link]) "<html>a</html>"
  = _parse_google_results no_unquote accept_all accept_all
      (fun _ => [plain_link; tracked_link]) "<html>a</html>".
Proof.
  apply (proj1 (parse_google_results_deterministic no_unquote accept_all accept_all
                  (fun _ => [plain_link; tracked_link])
                  "<html>a</html>" "<html>a</html>" fresh_world)).
  reflexivity.
Defined.

(** C10. Every profile of the fallback parser has a URL that starts with
    "https://www.linkedin.com" and holds neither "?" nor "#", the host of
    the link being replaced whatever it is.  A link passes the filter
    exactly when "linkedin.com/in/" occurs somewhere in it, so that a link
    on another host with that text in its path is kept and gets a URL on
    www.linkedin.com. *)
Theorem fallback_urls_on_linkedin_host
    (unquote : string -> string) (bracketed_ok nfkc_ok : string -> bool)
    (soup_select : string -> list a_tag) :
  (forall html profiles p,
      _parse_google_results unquote bracketed_ok nfkc_ok soup_select html
        = Returned profiles ->
      p ∈ profiles ->
      PyStr.starts_with "https://www.linkedin.com" (profile_url p) = true
      /\ PyStr.mem "?" (profile_url p) = false
      /\ PyStr.mem "#" (profile_url p) = false)
  /\ (forall a p,
      google_anchor unquote bracketed_ok nfkc_ok a = Returned (Some p) ->
      exists parsed,
        Urllib.urlparse bracketed_ok nfkc_ok (unwrap_redirect unquote (href a))
          = Some parsed
        /\ profile_url p
           = "https://www.linkedin.com" +:+ PyStr.rstrip_chars "/" (Urllib.path parsed))
  /\ (forall a,
      PyStr.contains "linkedin.com/in/" (unwrap_redirect unquote (href a)) = false ->
      google_anchor unquote bracketed_ok nfkc_ok a = Returned None)
  /\ (forall a p,
      google_anchor unquote bracketed_ok nfkc_ok a = Returned (Some p) ->
      PyStr.contains "linkedin.com/in/" (unwrap_redirect unquote (href a)) = true)
  /\ (Urllib.urlparse bracketed_ok nfkc_ok (href foreign_link)
      = Some {| Urllib.scheme := "https"; Urllib.netloc := "evil.example";
                Urllib.path := "/linkedin.com/in/jane-doe";
                Urllib.params := ""; Urllib.query := ""; Urllib.fragment := "" |}
      /\ google_anchor unquote bracketed_ok nfkc_ok foreign_link
         = Returned (Some (stub_profile "Jane Doe" None
                             "https://www.linkedin.com/linkedin.com/in/jane-doe"))).
Proof.
  split; [|split; [|split; [|split]]].
  - intros html profiles p Hrun Hp.
    destruct (google_loop_elem_of unquote bracketed_ok nfkc_ok _ _ _ _ Hrun Hp)
      as [Hnil|(a & _ & Ha)]; [by apply elem_of_nil in Hnil|].
    apply google_anchor_Some in Ha as (_ & parsed & Hparse & _ & ->).
    destruct (urlparse_path_clean _ _ _ _ Hparse) as [Hq Hf].
    destruct (canonical_url_clean _ Hq Hf) as (Hs & Hq' & Hf' & _).
    done.
  - intros a p Ha.
    apply google_anchor_Some in Ha as (_ & parsed & Hparse & _ & ->).
    by exists parsed.
  - intros a Hc. unfold google_anchor. by rewrite Hc.
  - intros a p Ha. by apply google_anchor_Some in Ha as (Hc & _).
  - split; reflexivity.
Qed.

Lemma fallback_urls_on_linkedin_host_witness :
  let p := stub_profile "Jane Doe" None
             "https://www.linkedin.com/linkedin.com/in/jane-doe" in
  PyStr.starts_with "https://www.linkedin.com" (profile_url p) = true
  /\ PyStr.mem "?" (profile_url p) = false
  /\ PyStr.mem "#" (profile_url p) = false.
Proof.
  intros p.
  apply (proj1 (fallback_urls_on_linkedin_host no_unquote accept_all accept_all
                  (fun _ => [foreign_link]))
           "<html>b</html>" [p] p).
  - reflexivity.
  - by left.
Defined.

(* ================================================================== *)
(** * Scenarios of the unit tests and of the specification *)
(* ================================================================== *)

(** [test_parse_google_results_extracts_linkedin_urls]. *)
Example parse_test_page :
  parse_google_anchors no_unquote accept_all accept_all test_page_anchors
  = Returned
      [stub_profile "Jane Doe" (Some "Senior Engineer")
         "https://www.linkedin.com/in/jane-doe-12345";
       stub_profile "John Smith" (Some "Staff Engineer")
         "https://www.linkedin.com/in/john-smith-67890"].
Proof. reflexivity. Qed.

(** [test_parse_google_results_empty_html]. *)
Example parse_no_anchor :
  parse_google_anchors no_unquote accept_all accept_all [] = Returned [].
Proof. reflexivity. Qed.

(** No credential: only the fallback client is called, and the two queries
    are returned even though nothing is found. *)
Example search_without_credential :
  LinkedInCrawler_search dead_net no_unquote accept_all accept_all (fun _ => [])
    None sample_criteria 25 fresh_world
  = (Returned ([], ["Backend Engineer python backend"; "python backend Boston"]),
     tick (tick fresh_world),
     [EvSearchPeople GoogleClient;
      EvGet (GoogleSearch (site_query "Backend Engineer python backend") 10);
      EvPoliteDelay 3 7;
      EvGet (GoogleSearch (site_query "python backend Boston") 10);
      EvPoliteDelay 3 7]).
Proof. reflexivity. Qed.

(** A credential and a network that never answers: the token request
    fails, the authenticated search raises, the fallback client is called
    and the search returns no profile. *)
Example search_falls_back_on_failure :
  LinkedInCrawler_search dead_net no_unquote accept_all accept_all (fun _ => [])
    (Some "li_at") sample_criteria 25 fresh_world
  = (Returned ([], ["Backend Engineer python backend"; "python backend Boston"]),
     tick (tick (tick fresh_world)),
     [EvSearchPeople AuthenticatedClient; EvGet (FeedPage "li_at");
      EvSearchPeople GoogleClient;
      EvGet (GoogleSearch (site_query "Backend Engineer python backend") 10);
      EvPoliteDelay 3 7;
      EvGet (GoogleSearch (site_query "python backend Boston") 10);
      EvPoliteDelay 3 7]).
Proof. reflexivity. Qed.

(** A negative [max_results] makes the slice drop entries from the end. *)
Example negative_max_results :
  py_slice_to [1; 2; 3]%nat (-1) = [1; 2]%nat
  /\ dedup_truncate [] (-1) = [].
Proof. split; reflexivity. Qed.

(* ================================================================== *)
(** * The per-query loops, run by run *)
(* ================================================================== *)

Lemma parse_google_results_raises unquote bracketed_ok nfkc_ok soup_select html e :
  _parse_google_results unquote bracketed_ok nfkc_ok soup_select html = Raised e ->
  e = ValueError.
Proof.
  unfold _parse_google_results, parse_google_anchors.
  generalize (@nil CandidateProfile) as candidates.
  induction (soup_select html) as [|a tags IH]; intros candidates; simpl; [done|].
  destruct (google_anchor unquote bracketed_ok nfkc_ok a) as [[p|]|e'] eqn:Ha.
  - apply IH.
  - apply IH.
  - intros [= <-]. unfold google_anchor in Ha.
    destruct (negb _); [done|].
    destruct (Urllib.urlparse _ _ _); [|by injection Ha as <-].
    destruct (negb _); [done|]. by destruct (snippet_name_headline _ _).
Qed.

(** The [try] statement of the authenticated loop: one request, the
    cooldown after a 429, the candidates extended or an exception that is
    no [httpx.HTTPError]. *)
Lemma voyager_query_cases net li_at csrf query max_results candidates w r w1 t1 :
  voyager_query net li_at csrf query max_results candidates w = (r, w1, t1) ->
  let req := VoyagerSearch li_at csrf query
               (Z.min 25 (max_results - Z.of_nat (length candidates))) in
  w1 = tick w
  /\ ((exists candidates', r = Returned candidates'
                           /\ candidates `prefix_of` candidates'
                           /\ (t1 = [EvGet req] \/ t1 = [EvGet req; EvSleep 60]))
      \/ (exists e, r = Raised e /\ t1 = [EvGet req]
                    /\ is_HTTPError e = false
                    /\ (e = JSONDecodeError
                        \/ net (clock w) req = GetRaises e))).
Proof.
  unfold voyager_query, try_except, bind, http_get, resp_json, sleep, tell, ret, raise.
  destruct (net (clock w) _) as [resp|e] eqn:Hnet; simpl.
  - destruct (status_code resp =? 200); simpl.
    + destruct (json resp) as [data|]; simpl.
      * intros [= <- <- <-]. split; [done|]. left.
        eexists. split; [done|]. split; [by apply prefix_app_r | by left].
      * intros [= <- <- <-]. split; [done|]. right.
        exists JSONDecodeError. split; [done|]. split; [done|]. split; [done|]. by left.
    + destruct (status_code resp =? 429); simpl.
      * intros [= <- <- <-]. split; [done|]. left.
        exists candidates. split; [done|]. split; [done | by right].
      * intros [= <- <- <-]. split; [done|]. left.
        exists candidates. split; [done|]. split; [done | by left].
  - destruct (is_HTTPError e) eqn:He; simpl.
    + intros [= <- <- <-]. split; [done|]. left.
      exists candidates. split; [done|]. split; [done | by left].
    + intros [= <- <- <-]. split; [done|]. right.
      exists e. split; [done|]. split; [done|]. split; [done|]. by right.
Qed.

Lemma google_query_cases net unquote bracketed_ok nfkc_ok soup_select
    query candidates w r w1 t1 :
  google_query net unquote bracketed_ok nfkc_ok soup_select query candidates w
    = (r, w1, t1) ->
  let req := GoogleSearch (site_query query) 10 in
  w1 = tick w
  /\ ((exists candidates', r = Returned candidates'
                           /\ candidates `prefix_of` candidates'
                           /\ (t1 = [EvGet req] \/ t1 = [EvGet req; EvSleep 30]))
      \/ (exists e, r = Raised e /\ t1 = [EvGet req]
                    /\ is_HTTPError e = false
                    /\ (e = ValueError
                        \/ net (clock w) req = GetRaises e))).
Proof.
  unfold google_query, try_except, bind, http_get, parse_google_text, sleep,
    tell, ret, raise.
  destruct (net (clock w) _) as [resp|e] eqn:Hnet; simpl.
  - destruct (status_code resp =? 200); simpl.
    + destruct (_parse_google_results _ _ _ _ _) as [new|e] eqn:Hparse; simpl.
      * intros [= <- <- <-]. split; [done|]. left.
        eexists. split; [done|]. split; [by apply prefix_app_r | by left].
      * apply parse_google_results_raises in Hparse as ->. simpl.
        intros [= <- <- <-]. split; [done|]. right.
        exists ValueError. split; [done|]. split; [done|]. split; [done|]. by left.
    + destruct (status_code resp =? 429); simpl.
      * intros [= <- <- <-]. split; [done|]. left.
        exists candidates. split; [done|]. split; [done | by right].
      * intros [= <- <- <-]. split; [done|]. left.
        exists candidates. split; [done|]. split; [done | by left].
  - destruct (is_HTTPError e) eqn:He; simpl.
    + intros [= <- <- <-]. split; [done|]. left.
      exists candidates. split; [done|]. split; [done | by left].
    + intros [= <- <- <-]. split; [done|]. right.
      exists e. split; [done|]. split; [done|]. split; [done|]. by right.
Qed.

(** One turn of each loop, by the outcome of its [try] statement. *)
Lemma voyager_loop_turn net li_at csrf max_results query rest candidates w :
  Z.of_nat (length candidates) < max_results ->
  voyager_loop net li_at csrf max_results (query :: rest) candidates w
  = match voyager_query net li_at csrf query max_results candidates w with
    | (Returned candidates', w1, t1) =>
        let '(r, w2, t2) :=
          voyager_loop net li_at csrf max_results rest candidates' w1 in
        (r, w2, t1 ++ EvPoliteDelay 2 5 :: t2)
    | (Raised e, w1, t1) => (Raised e, w1, t1)
    end.
Proof.
  intros Hlt. rewrite voyager_loop_cons, (geb_false_lt _ _ Hlt).
  unfold bind at 1.
  destruct (voyager_query _ _ _ _ _ _ _) as [[[c'|e] w1] t1]; [|done].
  unfold bind, _polite_delay, tell. simpl.
  by destruct (voyager_loop _ _ _ _ _ _ _) as [[r w2] t2].
Qed.

Lemma google_search_loop_turn net unquote bracketed_ok nfkc_ok soup_select
    max_results query rest candidates w :
  Z.of_nat (length candidates) < max_results ->
  google_search_loop net unquote bracketed_ok nfkc_ok soup_select max_results
    (query :: rest) candidates w
  = match google_query net unquote bracketed_ok nfkc_ok soup_select query
            candidates w with
    | (Returned candidates', w1, t1) =>
        let '(r, w2, t2) :=
          google_search_loop net unquote bracketed_ok nfkc_ok soup_select
            max_results rest candidates' w1 in
        (r, w2, t1 ++ EvPoliteDelay 3 7 :: t2)
    | (Raised e, w1, t1) => (Raised e, w1, t1)
    end.
Proof.
  intros Hlt. rewrite google_search_loop_cons, (geb_false_lt _ _ Hlt).
  unfold bind at 1.
  destruct (google_query _ _ _ _ _ _ _ _) as [[[c'|e] w1] t1]; [|done].
  unfold bind, _polite_delay, tell. simpl.
  by destruct (google_search_loop _ _ _ _ _ _ _ _ _) as [[r w2] t2].
Qed.

(** What a run of the authenticated loop looks like, whatever the network
    answers. *)
Lemma voyager_loop_run net li_at csrf max_results queries :
  forall candidates w r w' t,
    voyager_loop net li_at csrf max_results queries candidates w = (r, w', t) ->
    paced 2 5 t
    /\ Forall (fun count => 1 <= count <= 25 /\ count <= max_results)
              (voyager_counts_of t)
    /\ (length (requests_of t) <= length queries)%nat
    /\ clock w' = (clock w + length (requests_of t))%nat
    /\ match r with
       | Returned candidates' => candidates `prefix_of` candidates'
       | Raised e =>
           is_HTTPError e = false
           /\ (e = JSONDecodeError
               \/ exists n query count,
                    net n (VoyagerSearch li_at csrf query count) = GetRaises e)
       end.
Proof.
  induction queries as [|query rest IH]; intros candidates w r w' t.
  - intros [= <- <- <-]. simpl.
    split; [constructor|]. split; [constructor|]. split; [lia|]. split; [lia|]. done.
  - destruct (Z.lt_ge_cases (Z.of_nat (length candidates)) max_results) as [Hlt|Hge].
    2:{ rewrite voyager_loop_full by lia. intros [= <- <- <-]. simpl.
        split; [constructor|]. split; [constructor|]. split; [lia|].
        split; [lia|]. done. }
    rewrite voyager_loop_turn by done.
    destruct (voyager_query _ _ _ _ _ _ _) as [[r1 w1] t1] eqn:Hq.
    apply voyager_query_cases in Hq as [-> Hq].
    assert (Hcount :
      1 <= Z.min 25 (max_results - Z.of_nat (length candidates)) <= 25
      /\ Z.min 25 (max_results - Z.of_nat (length candidates)) <= max_results)
      by lia.
    destruct Hq as [(c' & -> & Hpre & Ht1)|(e & -> & -> & He & Hsrc)].
    + destruct (voyager_loop _ _ _ _ rest c' (tick w)) as [[r2 w2] t2] eqn:Hrest.
      apply IH in Hrest as (Hpaced & Hcounts & Hlen & Hclock & Hres).
      intros [= <- <- <-].
      destruct Ht1 as [-> | ->]; simpl.
      * split; [by constructor|]. split; [by constructor|].
        split; [lia|]. split; [simpl in Hclock; lia|].
        destruct r2 as [c''|e]; [by etrans | destruct Hres; eauto].
      * split; [by constructor|]. split; [by constructor|].
        split; [lia|]. split; [simpl in Hclock; lia|].
        destruct r2 as [c''|e]; [by etrans | destruct Hres; eauto].
    + intros [= <- <- <-]. simpl.
      split; [constructor|].
      split; [constructor; [exact Hcount | constructor]|].
      split; [lia|]. split; [lia|]. split; [done|].
      destruct Hsrc as [->|Hnet]; [by left | right; eauto].
Qed.

Lemma google_search_loop_run net unquote bracketed_ok nfkc_ok soup_select
    max_results queries :
  forall candidates w r w' t,
    google_search_loop net unquote bracketed_ok nfkc_ok soup_select max_results
      queries candidates w = (r, w', t) ->
    paced 3 7 t
    /\ (length (requests_of t) <= length queries)%nat
    /\ clock w' = (clock w + length (requests_of t))%nat
    /\ match r with
       | Returned candidates' => candidates `prefix_of` candidates'
       | Raised e =>
           is_HTTPError e = false
           /\ (e = ValueError
               \/ exists n query, net n (GoogleSearch query 10) = GetRaises e)
       end.
Proof.
  induction queries as [|query rest IH]; intros candidates w r w' t.
  - intros [= <- <- <-]. simpl.
    split; [constructor|]. split; [lia|]. split; [lia|]. done.
  - destruct (Z.lt_ge_cases (Z.of_nat (length candidates)) max_results) as [Hlt|Hge].
    2:{ rewrite google_search_loop_full by lia. intros [= <- <- <-]. simpl.
        split; [constructor|]. split; [lia|]. split; [lia|]. done. }
    rewrite google_search_loop_turn by done.
    destruct (google_query _ _ _ _ _ _ _ _) as [[r1 w1] t1] eqn:Hq.
    apply google_query_cases in Hq as [-> Hq].
    destruct Hq as [(c' & -> & Hpre & Ht1)|(e & -> & -> & He & Hsrc)].
    + destruct (google_search_loop _ _ _ _ _ _ rest c' (tick w))
        as [[r2 w2] t2] eqn:Hrest.
      apply IH in Hrest as (Hpaced & Hlen & Hclock & Hres).
      intros [= <- <- <-].
      destruct Ht1 as [-> | ->]; simpl.
      * split; [by constructor|].
        split; [lia|]. split; [simpl in Hclock; lia|].
        destruct r2 as [c''|e]; [by etrans | destruct Hres; eauto].
      * split; [by constructor|].
        split; [lia|]. split; [simpl in Hclock; lia|].
        destruct r2 as [c''|e]; [by etrans | destruct Hres; eauto].
    + intros [= <- <- <-]. simpl.
      split; [constructor|].
      split; [lia|]. split; [lia|]. split; [done|].
      destruct Hsrc as [->|Hnet]; [by left | right; eauto].
Qed.

(* ================================================================== *)
(** * The session token *)
(* ================================================================== *)

(** The two ways [_get_csrf_token] runs: a cached token that is not empty
    is returned without any request; otherwise the feed page is requested
    once and the token harvested from its cookie is cached, whatever the
    status of the response. *)
Lemma get_csrf_token_cases net li_at w r w1 t1 :
  _get_csrf_token net li_at w = (r, w1, t1) ->
  (exists tok, _csrf_token w = Some tok /\ tok <> EmptyString
               /\ r = Returned tok /\ w1 = w /\ t1 = [])
  \/ ((_csrf_token w = None \/ _csrf_token w = Some EmptyString)
      /\ t1 = [EvGet (FeedPage li_at)]
      /\ ((exists resp,
             net (clock w) (FeedPage li_at) = Resp resp
             /\ r = Returned (PyStr.strip_chars dquote
                                (default EmptyString (jsessionid resp)))
             /\ w1 = {| _csrf_token :=
                          Some (PyStr.strip_chars dquote
                                  (default EmptyString (jsessionid resp)));
                        clock := S (clock w) |})
          \/ (exists e, net (clock w) (FeedPage li_at) = GetRaises e
                        /\ r = Raised e /\ w1 = tick w))).
Proof.
  unfold _get_csrf_token.
  destruct (_csrf_token w) as [[|c tok]|] eqn:Htok.
  - unfold bind, http_get, set_csrf, ret.
    destruct (net (clock w) _) as [resp|e]; simpl.
    + intros [= <- <- <-]. right. split; [by right|]. split; [done|]. left.
      exists resp. by destruct (jsessionid resp).
    + intros [= <- <- <-]. right. split; [by right|]. split; [done|]. right.
      by exists e.
  - intros [= <- <- <-]. left. by exists (String c tok).
  - unfold bind, http_get, set_csrf, ret.
    destruct (net (clock w) _) as [resp|e]; simpl.
    + intros [= <- <- <-]. right. split; [by left|]. split; [done|]. left.
      exists resp. by destruct (jsessionid resp).
    + intros [= <- <- <-]. right. split; [by left|]. split; [done|]. right.
      by exists e.
Qed.

(** X1. Once [_get_csrf_token] has returned a token that is not empty,
    the token is cached: the next call, whatever the network and the
    cookie, sends no request, returns the same token and leaves the state
    as it is. *)
Theorem csrf_token_is_cached
    (net net' : nat -> request -> http_result) (li_at li_at' : string)
    (w w1 : world) (tok : string) (t1 : list event) :
  _get_csrf_token net li_at w = (Returned tok, w1, t1) ->
  tok <> EmptyString ->
  _csrf_token w1 = Some tok
  /\ _get_csrf_token net' li_at' w1 = (Returned tok, w1, []).
Proof.
  intros Hrun Htok.
  assert (Hcached : _csrf_token w1 = Some tok).
  { apply get_csrf_token_cases in Hrun
      as [(tok' & Hw & _ & [= <-] & -> & _)
         |(_ & _ & [(resp & _ & [= <-] & ->)|(e & _ & [=] & _)])]; done. }
  split; [done|]. unfold _get_csrf_token. rewrite Hcached.
  by destruct tok.
Qed.

Lemma csrf_token_is_cached_witness :
  let resp := {| status_code := 200; json := None; text := EmptyString;
                 jsessionid := Some (dquote +:+ "ajax:42" +:+ dquote) |} in
  let w1 := {| _csrf_token := Some "ajax:42"; clock := 1 |} in
  _csrf_token w1 = Some "ajax:42"
  /\ _get_csrf_token dead_net "other" w1 = (Returned "ajax:42", w1, []).
Proof.
  intros resp w1.
  apply (csrf_token_is_cached (fun _ _ => Resp resp) dead_net "li_at" "other"
           fresh_world w1 "ajax:42" [EvGet (FeedPage "li_at")]);
    [reflexivity | discriminate].
Defined.

(** X2. A response of the feed page without session cookie, whatever its
    status, yields the empty token; the empty token does not count as
    cached, so that the next call requests the feed page again. *)
Theorem empty_csrf_token_is_fetched_again
    (net net' : nat -> request -> http_result) (li_at li_at' : string)
    (w : world) (resp : response) :
  _csrf_token w = None \/ _csrf_token w = Some EmptyString ->
  net (clock w) (FeedPage li_at) = Resp resp ->
  jsessionid resp = None ->
  exists w1,
    _get_csrf_token net li_at w
      = (Returned EmptyString, w1, [EvGet (FeedPage li_at)])
    /\ forall r w2 t2,
         _get_csrf_token net' li_at' w1 = (r, w2, t2) ->
         t2 = [EvGet (FeedPage li_at')].
Proof.
  intros Hw Hnet Hcookie.
  exists {| _csrf_token := Some EmptyString; clock := S (clock w) |}. split.
  - unfold _get_csrf_token, bind, http_get, set_csrf, ret.
    rewrite Hnet, Hcookie. by destruct Hw as [-> | ->].
  - intros r w2 t2 Hrun.
    apply get_csrf_token_cases in Hrun
      as [(tok & Hc & Hne & _)|(_ & -> & _)]; [|done].
    simpl in Hc. by injection Hc as <-.
Qed.

Lemma empty_csrf_token_is_fetched_again_witness :
  exists w1,
    _get_csrf_token sample_net "li_at" fresh_world
      = (Returned EmptyString, w1, [EvGet (FeedPage "li_at")])
    /\ forall r w2 t2,
         _get_csrf_token dead_net "li_at" w1 = (r, w2, t2) ->
         t2 = [EvGet (FeedPage "li_at")].
Proof.
  apply (empty_csrf_token_is_fetched_again sample_net dead_net "li_at" "li_at"
           fresh_world (empty_response 429));
    [by left | reflexivity | reflexivity].
Defined.

(* ================================================================== *)
(** * Properties of the runs of the two clients *)
(* ================================================================== *)

(** X3. Every request the authenticated loop sends asks for a page of at
    least 1 and at most 25 profiles, and never for more than
    [max_results]. *)
Theorem voyager_page_size_bounds
    (net : nat -> request -> http_result) (li_at csrf : string)
    (max_results : Z) (queries : list string)
    (candidates : list CandidateProfile) (w w' : world)
    (r : outcome (list CandidateProfile)) (t : list event) :
  voyager_loop net li_at csrf max_results queries candidates w = (r, w', t) ->
  Forall (fun count => 1 <= count <= 25 /\ count <= max_results)
         (voyager_counts_of t).
Proof. intros Hrun. by apply voyager_loop_run in Hrun as (_ & Hc & _). Qed.

Lemma voyager_page_size_bounds_witness :
  Forall (fun count => 1 <= count <= 25 /\ count <= 2)
    (voyager_counts_of
       [EvGet (VoyagerSearch "li_at" "ajax:0123"
                 "Backend Engineer python backend" 2);
        EvSleep 60; EvPoliteDelay 2 5;
        EvGet (VoyagerSearch "li_at" "ajax:0123" "python backend Boston" 2);
        EvPoliteDelay 2 5]).
Proof.
  apply (voyager_page_size_bounds sample_net "li_at" "ajax:0123" 2
           ["Backend Engineer python backend"; "python backend Boston"] []
           world_with_token (tick (tick world_with_token))
           (Returned
              [stub_profile "Jane Doe" None "https://www.linkedin.com/in/jane-doe";
               stub_profile "John Smith" None "https://www.linkedin.com/in/john-smith";
               stub_profile "Ann Lee" None "https://www.linkedin.com/in/ann-lee"])).
  vm_compute. reflexivity.
Defined.





(** X6. The candidates a loop returns start with the candidates it was
    entered with: a failed or rate-limited query never loses what earlier
    queries found. *)
Theorem loops_keep_partial_results
    (net : nat -> request -> http_result) (max_results : Z)
    (queries : list string) (candidates candidates' : list CandidateProfile)
    (w w' : world) (t : list event) :
  (forall li_at csrf,
      voyager_loop net li_at csrf max_results queries candidates w
        = (Returned candidates', w', t) ->
      candidates `prefix_of` candidates')
  /\ (forall unquote bracketed_ok nfkc_ok soup_select,
      google_search_loop net unquote bracketed_ok nfkc_ok soup_select max_results
        queries candidates w = (Returned candidates', w', t) ->
      candidates `prefix_of` candidates').
Proof.
  split.
  - intros li_at csrf Hrun. by apply voyager_loop_run in Hrun as (_ & _ & _ & _ & H).
  - intros unquote bracketed_ok nfkc_ok soup_select Hrun.
    by apply google_search_loop_run in Hrun as (_ & _ & _ & H).
Qed.

Lemma loops_keep_partial_results_witness :
  let ann := stub_profile "Ann Lee" None "https://www.linkedin.com/in/ann-lee" in
  [ann] `prefix_of` [ann].
Proof.
  intros ann.
  apply (proj1 (loops_keep_partial_results dead_net 25
                  ["Backend Engineer python backend"] [ann] [ann] fresh_world
                  (tick fresh_world)
                  [EvGet (VoyagerSearch "li_at" "ajax:0123"
                            "Backend Engineer python backend" 24);
                   EvPoliteDelay 2 5])
           "li_at" "ajax:0123").
  vm_compute. reflexivity.
Defined.

(* ================================================================== *)
(** * Properties of a whole crawl *)
(* ================================================================== *)

Lemma bind_inv {A B} (m : M A) (k : A -> M B) w r w' t :
  bind m k w = (r, w', t) ->
  (exists a w1 t1 t2, m w = (Returned a, w1, t1) /\ k a w1 = (r, w', t2)
                      /\ t = t1 ++ t2)
  \/ (exists e, m w = (Raised e, w', t) /\ r = Raised e).
Proof.
  unfold bind. destruct (m w) as [[[a|e] w1] t1].
  - destruct (k a w1) as [[r2 w2] t2] eqn:Hk. intros [= <- <- <-].
    left. by exists a, w1, t1, t2.
  - intros [= <- <- <-]. right. by exists e.
Qed.

Lemma requests_of_app t1 t2 :
  requests_of (t1 ++ t2) = requests_of t1 ++ requests_of t2.
Proof. apply omap_app. Qed.

Lemma build_search_keywords_length criteria :
  (length (_build_search_keywords criteria) <= 4)%nat.
Proof.
  rewrite build_search_keywords_refines. unfold spec_build_queries.
  rewrite length_app, length_map, length_take.
  destruct (locations criteria); cbn [length]; lia.
Qed.

(** A run of the authenticated [search_people]. *)
Lemma voyager_search_people_run net li_at criteria max_results w r w' t :
  voyager_search_people net li_at criteria max_results w = (r, w', t) ->
  (length (requests_of t) <= 1 + length (_build_search_keywords criteria))%nat
  /\ (max_results <= 0 -> requests_of t = [] \/ requests_of t = [FeedPage li_at])
  /\ match r with
     | Returned profiles =>
         NoDup (profile_url <$> profiles)
         /\ Z.of_nat (length profiles) <= Z.max 0 max_results
     | Raised e =>
         e = JSONDecodeError
         \/ net (clock w) (FeedPage li_at) = GetRaises e
         \/ exists n csrf query count,
              net n (VoyagerSearch li_at csrf query count) = GetRaises e
     end.
Proof.
  unfold voyager_search_people, voyager_accumulate. intros Hrun.
  assert (Hacc : exists ra ta,
    (let* csrf := _get_csrf_token net li_at in
     voyager_loop net li_at csrf max_results (_build_search_keywords criteria) [])
      w = (ra, w', ta)
    /\ t = ta
    /\ r = match ra with
           | Returned acc => Returned (dedup_truncate acc max_results)
           | Raised e => Raised e
           end).
  { apply bind_inv in Hrun as [(acc & w1 & t1 & t2 & Hacc & [= <- <- <-] & ->)
                              |(e & Hacc & ->)].
    - exists (Returned acc), t1. by rewrite app_nil_r.
    - by exists (Raised e), t. }
  destruct Hacc as (ra & ta & Hacc & -> & ->). clear Hrun.
  apply bind_inv in Hacc as [(csrf & w1 & t1 & t2 & Htok & Hloop & ->)
                            |(e & Htok & ->)].
  - assert (Ht1 : requests_of t1 = [] \/ requests_of t1 = [FeedPage li_at]).
    { apply get_csrf_token_cases in Htok
        as [(tok & _ & _ & _ & _ & ->)|(_ & -> & _)]; [by left | by right]. }
    pose proof Hloop as Hfull.
    apply voyager_loop_run in Hloop as (_ & _ & Hlen & _ & Hres).
    rewrite requests_of_app, length_app.
    split; [destruct Ht1 as [-> | ->]; simpl; lia|]. split.
    + intros Hmax. rewrite voyager_loop_full in Hfull by (simpl; lia).
      injection Hfull as <- <- <-. by rewrite app_nil_r.
    + destruct ra as [acc|e].
      2:{ destruct Hres as [_ [-> | (n & query & count & Hn)]];
            [by left | right; right; eauto]. }
      split.
      * eapply sublist_NoDup; [|by apply fmap_sublist, py_slice_to_sublist].
        rewrite deduplicate_keep_first. apply keep_first_NoDup.
      * apply dedup_truncate_length_max. intros Hneg.
        rewrite voyager_loop_full in Hfull by (simpl; lia).
        by injection Hfull as <-.
  - apply get_csrf_token_cases in Htok
      as [(tok & _ & _ & [=] & _)
         |(_ & -> & [(resp & _ & [=] & _)|(e' & Hnet & [= <-] & _)])].
    simpl. split; [lia|]. split; [by right|]. right. by left.
Qed.

(** A run of the fallback [search_people]. *)
Lemma google_search_people_run net unquote bracketed_ok nfkc_ok soup_select
    criteria max_results w r w' t :
  google_search_people net unquote bracketed_ok nfkc_ok soup_select
    criteria max_results w = (r, w', t) ->
  (length (requests_of t) <= length (_build_search_keywords criteria))%nat
  /\ (max_results <= 0 -> r = Returned [] /\ t = [])
  /\ match r with
     | Returned profiles =>
         NoDup (profile_url <$> profiles)
         /\ Z.of_nat (length profiles) <= Z.max 0 max_results
     | Raised e =>
         is_HTTPError e = false
         /\ (e = ValueError
             \/ exists n query, net n (GoogleSearch query 10) = GetRaises e)
     end.
Proof.
  unfold google_search_people, google_accumulate. intros Hrun.
  apply bind_inv in Hrun as [(acc & w1 & t1 & t2 & Hloop & [= <- <- <-] & ->)
                            |(e & Hloop & ->)].
  - pose proof Hloop as Hfull.
    apply google_search_loop_run in Hloop as (_ & Hlen & _ & Hres).
    rewrite app_nil_r. split; [done|]. split.
    + intros Hmax. rewrite google_search_loop_full in Hfull by (simpl; lia).
      injection Hfull as <- <- <-. split; [|done]. f_equal.
      unfold dedup_truncate, deduplicate, py_slice_to. simpl.
      destruct (0 <=? max_results); by rewrite ?take_nil.
    + split.
      * eapply sublist_NoDup; [|by apply fmap_sublist, py_slice_to_sublist].
        rewrite deduplicate_keep_first. apply keep_first_NoDup.
      * apply dedup_truncate_length_max. intros Hneg.
        rewrite google_search_loop_full in Hfull by (simpl; lia).
        by injection Hfull as <-.
  - pose proof Hloop as Hfull.
    apply google_search_loop_run in Hloop as (_ & Hlen & _ & Hres).
    split; [done|]. split; [|done].
    intros Hmax. rewrite google_search_loop_full in Hfull by (simpl; lia).
    discriminate.
Qed.

(** A run of [search]: either the authenticated client returned profiles
    and they are the result, or the Google client was called after the
    authenticated one, if any, had returned nothing or raised. *)
Lemma search_run (_authenticated : option client) (_google : client)
    criteria max_results w r w' t :
  search _authenticated _google criteria max_results w = (r, w', t) ->
  (exists authenticated profiles t1,
      _authenticated = Some authenticated
      /\ authenticated criteria max_results w = (Returned profiles, w', t1)
      /\ profiles <> []
      /\ r = Returned (profiles, _build_search_keywords criteria)
      /\ t = EvSearchPeople AuthenticatedClient :: t1)
  \/ (exists w1 t1 rg t2,
        _google criteria max_results w1 = (rg, w', t2)
        /\ r = with_queries (_build_search_keywords criteria) rg
        /\ t = t1 ++ EvSearchPeople GoogleClient :: t2
        /\ ((_authenticated = None /\ w1 = w /\ t1 = [])
            \/ (exists authenticated ra t1',
                  _authenticated = Some authenticated
                  /\ authenticated criteria max_results w = (ra, w1, t1')
                  /\ t1 = EvSearchPeople AuthenticatedClient :: t1'
                  /\ (ra = Returned [] \/ exists e, ra = Raised e)))).
Proof.
  unfold search. destruct _authenticated as [authenticated|].
  - unfold bind at 1. unfold try_except. unfold bind at 1.
    unfold call_search_people at 1. unfold bind at 1. unfold tell at 1.
    destruct (authenticated criteria max_results w) as [[[[|p ps]|e] w1] t1] eqn:Ha.
    + cbn [nonempty]. unfold ret at 1. cbv beta iota.
      rewrite search_fallback_run.
      destruct (_google criteria max_results w1) as [[rg w2] t2] eqn:Hg.
      intros [= <- <- <-]. right.
      exists w1, (EvSearchPeople AuthenticatedClient :: t1), rg, t2.
      split; [done|]. split; [done|]. split; [by rewrite app_nil_r|].
      right. exists authenticated, (Returned []), t1. eauto.
    + cbn [nonempty]. unfold ret at 1. cbv beta iota. unfold ret.
      intros [= <- <- <-]. left. exists authenticated, (p :: ps), t1.
      split; [done|]. split; [done|]. split; [done|]. split; [done|].
      by rewrite !app_nil_r.
    + cbv beta iota. unfold ret at 1. cbv beta iota.
      rewrite search_fallback_run.
      destruct (_google criteria max_results w1) as [[rg w2] t2] eqn:Hg.
      intros [= <- <- <-]. right.
      exists w1, (EvSearchPeople AuthenticatedClient :: t1), rg, t2.
      split; [done|]. split; [done|]. split; [by rewrite app_nil_r|].
      right. exists authenticated, (Raised e), t1. eauto 10.
  - unfold bind at 1. unfold ret at 1. rewrite search_fallback_run.
    destruct (_google criteria max_results w) as [[rg w2] t2] eqn:Hg.
    intros [= <- <- <-]. right. exists w, [], rg, t2. eauto 10.
Qed.

(** The two ways a crawl runs, with the two clients of the module. *)
Lemma crawl_run net unquote bracketed_ok nfkc_ok soup_select li_at_cookie
    criteria max_results w r w' t :
  LinkedInCrawler_search net unquote bracketed_ok nfkc_ok soup_select
    li_at_cookie criteria max_results w = (r, w', t) ->
  (exists li_at profiles t1,
      LinkedInCrawler_authenticated li_at_cookie = Some li_at
      /\ voyager_search_people net li_at criteria max_results w
         = (Returned profiles, w', t1)
      /\ profiles <> []
      /\ r = Returned (profiles, _build_search_keywords criteria)
      /\ t = EvSearchPeople AuthenticatedClient :: t1)
  \/ (exists w1 t1 rg t2,
        google_search_people net unquote bracketed_ok nfkc_ok soup_select
          criteria max_results w1 = (rg, w', t2)
        /\ r = with_queries (_build_search_keywords criteria) rg
        /\ t = t1 ++ EvSearchPeople GoogleClient :: t2
        /\ ((LinkedInCrawler_authenticated li_at_cookie = None
             /\ w1 = w /\ t1 = [])
            \/ (exists li_at ra t1',
                  LinkedInCrawler_authenticated li_at_cookie = Some li_at
                  /\ voyager_search_people net li_at criteria max_results w
                     = (ra, w1, t1')
                  /\ t1 = EvSearchPeople AuthenticatedClient :: t1'
                  /\ (ra = Returned [] \/ exists e, ra = Raised e)))).
Proof.
  unfold LinkedInCrawler_search. intros Hrun.
  apply search_run in Hrun
    as [(a & profiles & t1 & Ha & Hrun & Hne & -> & ->)
       |(w1 & t1 & rg & t2 & Hg & -> & -> & Hfrom)].
  - left. destruct (LinkedInCrawler_authenticated li_at_cookie) as [li_at|];
      [|done].
    injection Ha as <-. by exists li_at, profiles, t1.
  - right. exists w1, t1, rg, t2. split; [done|]. split; [done|]. split; [done|].
    destruct Hfrom as [(Ha & -> & ->)|(a & ra & t1' & Ha & Hrun & -> & Hra)].
    + left. by destruct (LinkedInCrawler_authenticated li_at_cookie).
    + right. destruct (LinkedInCrawler_authenticated li_at_cookie) as [li_at|];
        [|done].
      injection Ha as <-. by exists li_at, ra, t1'.
Qed.

Lemma requests_of_search_people k t :
  requests_of (EvSearchPeople k :: t) = requests_of t.
Proof. done. Qed.

(** What a crawl returns. *)
Lemma crawl_returned_profiles
    (net : nat -> request -> http_result) (unquote : string -> string)
    (bracketed_ok nfkc_ok : string -> bool) (soup_select : string -> list a_tag)
    (li_at_cookie : option string) (criteria : SearchCriteria)
    (max_results : Z) (w w' : world) (profiles : list CandidateProfile)
    (queries : list string) (t : list event) :
  LinkedInCrawler_search net unquote bracketed_ok nfkc_ok soup_select
    li_at_cookie criteria max_results w = (Returned (profiles, queries), w', t) ->
  NoDup (profile_url <$> profiles)
  /\ Z.of_nat (length profiles) <= Z.max 0 max_results
  /\ queries = _build_search_keywords criteria
  /\ (length queries <= 4)%nat.
Proof.
  intros Hrun.
  apply crawl_run in Hrun
    as [(li_at & ps & t1 & _ & Hrun & _ & [= -> ->] & _)
       |(w1 & t1 & rg & t2 & Hrun & Hr & _)].
  - apply voyager_search_people_run in Hrun as (_ & _ & Hnd & Hlen).
    split; [done|]. split; [done|]. split; [done|].
    apply build_search_keywords_length.
  - destruct rg as [ps|e]; [|done]. injection Hr as -> ->.
    apply google_search_people_run in Hrun as (_ & _ & Hnd & Hlen).
    split; [done|]. split; [done|]. split; [done|].
    apply build_search_keywords_length.
Qed.

(** X7. Whatever the cookie, the network and the strategy that answered,
    the profiles a crawl returns have pairwise distinct URLs and are at
    most [max_results] (none for a [max_results] below one), and they come
    with the queries of the criteria, of which there are at most four. *)
Theorem crawl_result_invariant
    (net : nat -> request -> http_result) (unquote : string -> string)
    (bracketed_ok nfkc_ok : string -> bool) (soup_select : string -> list a_tag)
    (li_at_cookie : option string) (criteria : SearchCriteria)
    (max_results : Z) (w w' : world) (profiles : list CandidateProfile)
    (queries : list string) (t : list event) :
  LinkedInCrawler_search net unquote bracketed_ok nfkc_ok soup_select
    li_at_cookie criteria max_results w = (Returned (profiles, queries), w', t) ->
  NoDup (profile_url <$> profiles)
  /\ Z.of_nat (length profiles) <= Z.max 0 max_results
  /\ queries = _build_search_keywords criteria
  /\ (length queries <= 4)%nat.
Proof.
  intros Hrun.
  apply crawl_run in Hrun
    as [(li_at & ps & t1 & _ & Hrun & _ & [= -> ->] & _)
       |(w1 & t1 & rg & t2 & Hrun & Hr & _)].
  - apply voyager_search_people_run in Hrun as (_ & _ & Hnd & Hlen).
    split; [done|]. split; [done|]. split; [done|].
    apply build_search_keywords_length.
  - destruct rg as [ps|e]; [|done]. injection Hr as -> ->.
    apply google_search_people_run in Hrun as (_ & _ & Hnd & Hlen).
    split; [done|]. split; [done|]. split; [done|].
    apply build_search_keywords_length.
Qed.

Lemma crawl_result_invariant_witness :
  NoDup (profile_url <$> sample_profiles)
  /\ Z.of_nat (length sample_profiles) <= Z.max 0 25
  /\ sample_queries = _build_search_keywords sample_criteria
  /\ (length sample_queries <= 4)%nat.
Proof.
  eapply (crawl_result_invariant sample_net no_unquote accept_all accept_all
            (fun _ => []) (Some "li_at") sample_criteria 25 fresh_world).
  vm_compute. reflexivity.
Defined.

(** What a crawl raises. *)
Lemma crawl_raised
    (net : nat -> request -> http_result) (unquote : string -> string)
    (bracketed_ok nfkc_ok : string -> bool) (soup_select : string -> list a_tag)
    (li_at_cookie : option string) (criteria : SearchCriteria)
    (max_results : Z) (w w' : world) (e : exn) (t : list event) :
  LinkedInCrawler_search net unquote bracketed_ok nfkc_ok soup_select
    li_at_cookie criteria max_results w = (Raised e, w', t) ->
  is_HTTPError e = false
  /\ (e = ValueError
      \/ exists n query, net n (GoogleSearch query 10) = GetRaises e)
  /\ EvSearchPeople GoogleClient ∈ t
  /\ 0 < max_results.
Proof.
  intros Hrun.
  apply crawl_run in Hrun
    as [(li_at & ps & t1 & _ & _ & _ & [=] & _)
       |(w1 & t1 & rg & t2 & Hrun & Hr & -> & _)].
  destruct rg as [ps|e']; [done|]. injection Hr as <-.
  apply google_search_people_run in Hrun as (_ & Hzero & Hhttp & Hsrc).
  split; [done|]. split; [done|]. split.
  - apply elem_of_app. right. apply elem_of_cons. by left.
  - destruct (Z.lt_ge_cases 0 max_results) as [|Hle]; [done|].
    destruct Hzero as [[=] _]. lia.
Qed.

(** X8. An exception that escapes a crawl was raised while the fallback
    client was at work: it is the [ValueError] of the link parser or an
    exception, no [httpx.HTTPError], of a request to Google.  Nothing the
    authenticated client raises escapes, and a crawl with [max_results]
    below one raises nothing. *)
Theorem crawl_raises_only_from_fallback
    (net : nat -> request -> http_result) (unquote : string -> string)
    (bracketed_ok nfkc_ok : string -> bool) (soup_select : string -> list a_tag)
    (li_at_cookie : option string) (criteria : SearchCriteria)
    (max_results : Z) (w w' : world) (e : exn) (t : list event) :
  LinkedInCrawler_search net unquote bracketed_ok nfkc_ok soup_select
    li_at_cookie criteria max_results w = (Raised e, w', t) ->
  is_HTTPError e = false
  /\ (e = ValueError
      \/ exists n query, net n (GoogleSearch query 10) = GetRaises e)
  /\ EvSearchPeople GoogleClient ∈ t
  /\ 0 < max_results.
Proof.
  intros Hrun.
  apply crawl_run in Hrun
    as [(li_at & ps & t1 & _ & _ & _ & [=] & _)
       |(w1 & t1 & rg & t2 & Hrun & Hr & -> & _)].
  destruct rg as [ps|e']; [done|]. injection Hr as <-.
  apply google_search_people_run in Hrun as (_ & Hzero & Hhttp & Hsrc).
  split; [done|]. split; [done|]. split.
  - apply elem_of_app. right. apply elem_of_cons. by left.
  - destruct (Z.lt_ge_cases 0 max_results) as [|Hle]; [done|].
    destruct Hzero as [[=] _]. lia.
Qed.

Lemma crawl_raises_only_from_fallback_witness :
  is_HTTPError JSONDecodeError = false
  /\ (JSONDecodeError = ValueError
      \/ exists n query,
           failing_net JSONDecodeError n (GoogleSearch query 10)
           = GetRaises JSONDecodeError)
  /\ EvSearchPeople GoogleClient
       ∈ [EvSearchPeople AuthenticatedClient; EvGet (FeedPage "li_at");
          EvSearchPeople GoogleClient;
          EvGet (GoogleSearch (site_query "Backend Engineer python backend") 10)]
  /\ 0 < 25.
Proof.
  eapply (crawl_raises_only_from_fallback (failing_net JSONDecodeError)
            no_unquote accept_all accept_all (fun _ => []) (Some "li_at")
            sample_criteria 25 fresh_world).
  vm_compute. reflexivity.
Defined.

(** The requests of a crawl. *)
Lemma crawl_requests_run
    (net : nat -> request -> http_result) (unquote : string -> string)
    (bracketed_ok nfkc_ok : string -> bool) (soup_select : string -> list a_tag)
    (li_at_cookie : option string) (criteria : SearchCriteria)
    (max_results : Z) (w w' : world)
    (r : outcome (list CandidateProfile * list string)) (t : list event) :
  LinkedInCrawler_search net unquote bracketed_ok nfkc_ok soup_select
    li_at_cookie criteria max_results w = (r, w', t) ->
  (length (requests_of t)
   <= 1 + 2 * length (_build_search_keywords criteria))%nat
  /\ (length (requests_of t) <= 9)%nat
  /\ (li_at_cookie = None \/ li_at_cookie = Some EmptyString ->
      (length (requests_of t) <= length (_build_search_keywords criteria))%nat
      /\ (length (requests_of t) <= 4)%nat).
Proof.
  intros Hrun. pose proof (build_search_keywords_length criteria) as Hq.
  apply crawl_run in Hrun
    as [(li_at & ps & t1 & Hauth & Hrun & _ & _ & ->)
       |(w1 & t1 & rg & t2 & Hrun & _ & -> & Hfrom)].
  - apply voyager_search_people_run in Hrun as (Hlen & _).
    rewrite requests_of_search_people.
    split; [lia|]. split; [lia|].
    intros [-> | ->]; discriminate.
  - apply google_search_people_run in Hrun as (Hlen & _).
    rewrite requests_of_app, requests_of_search_people, length_app.
    destruct Hfrom as [(_ & _ & ->)|(li_at & ra & t1' & Hauth & Hrun & -> & _)].
    + simpl. split; [lia|]. split; lia.
    + apply voyager_search_people_run in Hrun as (Hlen' & _).
      rewrite requests_of_search_people.
      split; [lia|]. split; [lia|].
      intros [-> | ->]; discriminate.
Qed.

(** X9. A crawl sends at most one request per query and client, and one
    more for the session token: at most nine requests with a cookie, at
    most four without. *)
Theorem crawl_request_budget
    (net : nat -> request -> http_result) (unquote : string -> string)
    (bracketed_ok nfkc_ok : string -> bool) (soup_select : string -> list a_tag)
    (li_at_cookie : option string) (criteria : SearchCriteria)
    (max_results : Z) (w w' : world)
    (r : outcome (list CandidateProfile * list string)) (t : list event) :
  LinkedInCrawler_search net unquote bracketed_ok nfkc_ok soup_select
    li_at_cookie criteria max_results w = (r, w', t) ->
  (length (requests_of t)
   <= 1 + 2 * length (_build_search_keywords criteria))%nat
  /\ (length (requests_of t) <= 9)%nat
  /\ (li_at_cookie = None \/ li_at_cookie = Some EmptyString ->
      (length (requests_of t) <= length (_build_search_keywords criteria))%nat
      /\ (length (requests_of t) <= 4)%nat).
Proof.
  intros Hrun. pose proof (build_search_keywords_length criteria) as Hq.
  apply crawl_run in Hrun
    as [(li_at & ps & t1 & Hauth & Hrun & _ & _ & ->)
       |(w1 & t1 & rg & t2 & Hrun & _ & -> & Hfrom)].
  - apply voyager_search_people_run in Hrun as (Hlen & _).
    rewrite requests_of_search_people.
    split; [lia|]. split; [lia|].
    intros [-> | ->]; discriminate.
  - apply google_search_people_run in Hrun as (Hlen & _).
    rewrite requests_of_app, requests_of_search_people, length_app.
    destruct Hfrom as [(_ & _ & ->)|(li_at & ra & t1' & Hauth & Hrun & -> & _)].
    + simpl. split; [lia|]. split; lia.
    + apply voyager_search_people_run in Hrun as (Hlen' & _).
      rewrite requests_of_search_people.
      split; [lia|]. split; [lia|].
      intros [-> | ->]; discriminate.
Qed.

Lemma crawl_request_budget_witness :
  let t := [EvSearchPeople AuthenticatedClient; EvGet (FeedPage "li_at");
            EvSearchPeople GoogleClient;
            EvGet (GoogleSearch (site_query "Backend Engineer python backend") 10);
            EvPoliteDelay 3 7;
            EvGet (GoogleSearch (site_query "python backend Boston") 10);
            EvPoliteDelay 3 7] in
  (length (requests_of t)
   <= 1 + 2 * length (_build_search_keywords sample_criteria))%nat
  /\ (length (requests_of t) <= 9)%nat
  /\ (Some "li_at" = None \/ Some "li_at" = Some EmptyString ->
      (length (requests_of t) <= length (_build_search_keywords sample_criteria))%nat
      /\ (length (requests_of t) <= 4)%nat).
Proof.
  intros t.
  eapply (crawl_request_budget dead_net no_unquote accept_all accept_all
            (fun _ => []) (Some "li_at") sample_criteria 25 fresh_world).
  vm_compute. reflexivity.
Defined.

(** X10. With a [max_results] of zero or less a crawl returns no profile,
    together with the queries, and raises nothing; it sends no search
    request, and no request at all unless the authenticated client has to
    fetch its session token. *)
Theorem crawl_without_budget
    (net : nat -> request -> http_result) (unquote : string -> string)
    (bracketed_ok nfkc_ok : string -> bool) (soup_select : string -> list a_tag)
    (li_at_cookie : option string) (criteria : SearchCriteria)
    (max_results : Z) (w w' : world)
    (r : outcome (list CandidateProfile * list string)) (t : list event) :
  max_results <= 0 ->
  LinkedInCrawler_search net unquote bracketed_ok nfkc_ok soup_select
    li_at_cookie criteria max_results w = (r, w', t) ->
  r = Returned ([], _build_search_keywords criteria)
  /\ (requests_of t = []
      \/ exists li_at, li_at_cookie = Some li_at
                       /\ requests_of t = [FeedPage li_at]
                       /\ (_csrf_token w = None
                           \/ _csrf_token w = Some EmptyString)).
Proof.
  intros Hmax Hrun.
  apply crawl_run in Hrun
    as [(li_at & ps & t1 & Hauth & Hrun & Hne & _ & _)
       |(w1 & t1 & rg & t2 & Hrun & -> & -> & Hfrom)].
  - apply voyager_search_people_run in Hrun as (_ & _ & _ & Hlen).
    destruct ps; [done | simpl in Hlen; lia].
  - apply google_search_people_run in Hrun as (_ & Hzero & _).
    destruct (Hzero Hmax) as [-> ->]. split; [done|].
    rewrite requests_of_app, requests_of_search_people, app_nil_r.
    destruct Hfrom as [(_ & _ & ->)|(li_at & ra & t1' & Hauth & Hrun & -> & _)];
      [by left|].
    rewrite requests_of_search_people.
    assert (Hcookie : li_at_cookie = Some li_at).
    { destruct li_at_cookie as [[|c s]|]; simpl in Hauth; congruence. }
    unfold voyager_search_people, voyager_accumulate in Hrun.
    assert (Htok : exists rt wt tt', _get_csrf_token net li_at w = (rt, wt, tt')
                                     /\ requests_of t1' = requests_of tt').
    { apply bind_inv in Hrun as [(acc & w2 & ta & tb & Hacc & [= <- <- <-] & ->)
                                |(e & Hacc & ->)].
      - apply bind_inv in Hacc as [(csrf & w3 & tc & td & Htok & Hloop & ->)
                                  |(e & Htok & [=])].
        rewrite voyager_loop_full in Hloop by (simpl; lia).
        injection Hloop as <- <- <-. exists (Returned csrf), w3, tc.
        by rewrite !app_nil_r.
      - apply bind_inv in Hacc as [(csrf & w3 & tc & td & Htok & Hloop & ->)
                                  |(e' & Htok & [= <-])].
        + rewrite voyager_loop_full in Hloop by (simpl; lia). done.
        + by exists (Raised e), w1, t1'. }
    destruct Htok as (rt & wt & tt' & Htok & ->).
    apply get_csrf_token_cases in Htok
      as [(tok & _ & _ & _ & _ & ->)|(Hw & -> & _)]; [by left|].
    right. by exists li_at.
Qed.

Lemma crawl_without_budget_witness :
  let t := [EvSearchPeople AuthenticatedClient; EvGet (FeedPage "li_at");
            EvSearchPeople GoogleClient] in
  @Returned (list CandidateProfile * list string) ([], sample_queries)
  = Returned ([], _build_search_keywords sample_criteria)
  /\ (requests_of t = []
      \/ exists li_at, Some "li_at" = Some li_at
                       /\ requests_of t = [FeedPage li_at]
                       /\ (_csrf_token fresh_world = None
                           \/ _csrf_token fresh_world = Some EmptyString)).
Proof.
  intros t.
  eapply (crawl_without_budget sample_net no_unquote accept_all accept_all
            (fun _ => []) (Some "li_at") sample_criteria 0 fresh_world);
    [lia | vm_compute; reflexivity].
Defined.

(** X11. The request for the session token is not guarded: when it raises,
    an [httpx.HTTPError] included, the authenticated [search_people] raises
    the same exception after that single request, and the crawl goes on
    with the fallback client. *)
Theorem token_failure_falls_back
    (net : nat -> request -> http_result) (unquote : string -> string)
    (bracketed_ok nfkc_ok : string -> bool) (soup_select : string -> list a_tag)
    (c : ascii) (cookie : string) (criteria : SearchCriteria)
    (max_results : Z) (w : world) (e : exn) :
  let li_at := String c cookie in
  _csrf_token w = None \/ _csrf_token w = Some EmptyString ->
  net (clock w) (FeedPage li_at) = GetRaises e ->
  voyager_search_people net li_at criteria max_results w
  = (Raised e, tick w, [EvGet (FeedPage li_at)])
  /\ LinkedInCrawler_search net unquote bracketed_ok nfkc_ok soup_select
       (Some li_at) criteria max_results w
     = let '(r, w', t) :=
         google_search_people net unquote bracketed_ok nfkc_ok soup_select
           criteria max_results (tick w) in
       (with_queries (_build_search_keywords criteria) r, w',
        EvSearchPeople AuthenticatedClient :: EvGet (FeedPage li_at)
        :: EvSearchPeople GoogleClient :: t).
Proof.
  intros li_at Hw Hnet.
  assert (Hsp : voyager_search_people net li_at criteria max_results w
                = (Raised e, tick w, [EvGet (FeedPage li_at)])).
  { unfold voyager_search_people, voyager_accumulate.
    unfold bind at 1. unfold bind at 1.
    assert (Htok : _get_csrf_token net li_at w
                   = (Raised e, tick w, [EvGet (FeedPage li_at)])).
    { unfold _get_csrf_token, bind, http_get. rewrite Hnet.
      by destruct Hw as [-> | ->]. }
    by rewrite Htok. }
  split; [done|].
  destruct (LinkedInCrawler_search _ _ _ _ _ _ _ _ _) as [[r w'] t] eqn:Hrun.
  apply crawl_run in Hrun
    as [(li_at' & ps & t1 & [= <-] & Hrun & _)
       |(w1 & t1 & rg & t2 & Hrun & -> & -> & Hfrom)].
  - fold li_at in Hrun. rewrite Hsp in Hrun. done.
  - destruct Hfrom as [([=] & _)|(li_at' & ra & t1' & [= <-] & Hrun' & -> & _)].
    fold li_at in Hrun'. rewrite Hsp in Hrun'. injection Hrun' as <- <- <-.
    by rewrite Hrun.
Qed.

Lemma token_failure_falls_back_witness :
  voyager_search_people dead_net "li_at" sample_criteria 25 fresh_world
  = (Raised HTTPError, tick fresh_world, [EvGet (FeedPage "li_at")])
  /\ LinkedInCrawler_search dead_net no_unquote accept_all accept_all
       (fun _ => []) (Some "li_at") sample_criteria 25 fresh_world
     = let '(r, w', t) :=
         google_search_people dead_net no_unquote accept_all accept_all
           (fun _ => []) sample_criteria 25 (tick fresh_world) in
       (with_queries (_build_search_keywords sample_criteria) r, w',
        EvSearchPeople AuthenticatedClient :: EvGet (FeedPage "li_at")
        :: EvSearchPeople GoogleClient :: t).
Proof.
  apply (token_failure_falls_back dead_net no_unquote accept_all accept_all
           (fun _ => []) "l"%char "i_at" sample_criteria 25 fresh_world HTTPError);
    [by left | reflexivity].
Defined.

(* ================================================================== *)
(** * Result pages with a malformed link *)
(* ================================================================== *)

Lemma google_anchor_raises unquote bracketed_ok nfkc_ok a e :
  google_anchor unquote bracketed_ok nfkc_ok a = Raised e -> e = ValueError.
Proof.
  unfold google_anchor. destruct (negb _); [done|].
  destruct (Urllib.urlparse _ _ _); [|by intros [= <-]].
  destruct (negb _); [done|]. by destruct (snippet_name_headline _ _).
Qed.

Lemma google_loop_raises unquote bracketed_ok nfkc_ok tags a :
  a ∈ tags ->
  google_anchor unquote bracketed_ok nfkc_ok a = Raised ValueError ->
  forall candidates,
    google_loop unquote bracketed_ok nfkc_ok tags candidates = Raised ValueError.
Proof.
  intros Hin Ha. induction tags as [|a' tags IH]; [by apply elem_of_nil in Hin|].
  intros candidates. simpl.
  destruct (google_anchor unquote bracketed_ok nfkc_ok a') as [[p|]|e] eqn:Ha'.
  - apply IH. apply elem_of_cons in Hin as [->|Hin]; [congruence | done].
  - apply IH. apply elem_of_cons in Hin as [->|Hin]; [congruence | done].
  - by apply google_anchor_raises in Ha' as ->.
Qed.

(** X12. One link to a profile that [urlparse] rejects is enough to lose a
    whole crawl: the parser of the result page raises [ValueError], which
    the loop of the fallback client does not catch, so that the loop ends
    on that request without its delay, the candidates of the earlier
    queries are dropped, and [search_people] and the crawl raise. *)
Theorem malformed_link_aborts_the_search
    (net : nat -> request -> http_result) (unquote : string -> string)
    (bracketed_ok nfkc_ok : string -> bool) (soup_select : string -> list a_tag)
    (max_results : Z) (query : string) (rest : list string)
    (w : world) (resp : response) (a : a_tag) :
  let link := unwrap_redirect unquote (href a) in
  let req := GoogleSearch (site_query query) 10 in
  net (clock w) req = Resp resp ->
  status_code resp = 200 ->
  a ∈ soup_select (text resp) ->
  PyStr.contains "linkedin.com/in/" link = true ->
  Urllib.urlparse bracketed_ok nfkc_ok link = None ->
  _parse_google_results unquote bracketed_ok nfkc_ok soup_select (text resp)
  = Raised ValueError
  /\ (forall candidates,
       Z.of_nat (length candidates) < max_results ->
       google_search_loop net unquote bracketed_ok nfkc_ok soup_select
         max_results (query :: rest) candidates w
       = (Raised ValueError, tick w, [EvGet req]))
  /\ (forall criteria li_at_cookie,
       0 < max_results ->
       _build_search_keywords criteria = query :: rest ->
       li_at_cookie = None \/ li_at_cookie = Some EmptyString ->
       google_search_people net unquote bracketed_ok nfkc_ok soup_select
         criteria max_results w
       = (Raised ValueError, tick w, [EvGet req])
       /\ LinkedInCrawler_search net unquote bracketed_ok nfkc_ok soup_select
            li_at_cookie criteria max_results w
          = (Raised ValueError, tick w, [EvSearchPeople GoogleClient; EvGet req])).
Proof.
  intros link req Hnet Hstatus Hin Hlink Hparse.
  assert (Ha : google_anchor unquote bracketed_ok nfkc_ok a = Raised ValueError).
  { unfold google_anchor. fold link. by rewrite Hlink, Hparse. }
  assert (Hpage : _parse_google_results unquote bracketed_ok nfkc_ok soup_select
                    (text resp) = Raised ValueError).
  { unfold _parse_google_results, parse_google_anchors.
    by eapply google_loop_raises. }
  assert (Hloop : forall candidates,
    Z.of_nat (length candidates) < max_results ->
    google_search_loop net unquote bracketed_ok nfkc_ok soup_select
      max_results (query :: rest) candidates w
    = (Raised ValueError, tick w, [EvGet req])).
  { intros candidates Hlt. rewrite google_search_loop_turn by done.
    unfold google_query, try_except, bind, http_get, parse_google_text.
    fold req. rewrite Hnet, Hstatus. simpl. by rewrite Hpage. }
  split; [done|]. split; [done|].
  intros criteria li_at_cookie Hmax Hq Hcookie.
  assert (Hsp : google_search_people net unquote bracketed_ok nfkc_ok soup_select
                  criteria max_results w
                = (Raised ValueError, tick w, [EvGet req])).
  { unfold google_search_people, google_accumulate. unfold bind at 1.
    by rewrite Hq, Hloop. }
  split; [done|].
  rewrite search_without_cookie by done. by rewrite Hsp.
Qed.

Lemma malformed_link_aborts_the_search_witness :
  let select := fun _ : string => [plain_link; malformed_link] in
  let req := GoogleSearch (site_query "Backend Engineer python backend") 10 in
  _parse_google_results no_unquote accept_all accept_all select "<html>"
  = Raised ValueError
  /\ (forall candidates,
       Z.of_nat (length candidates) < 25 ->
       google_search_loop page_net no_unquote accept_all accept_all select 25
         sample_queries candidates fresh_world
       = (Raised ValueError, tick fresh_world, [EvGet req]))
  /\ (forall criteria li_at_cookie,
       0 < 25 ->
       _build_search_keywords criteria = sample_queries ->
       li_at_cookie = None \/ li_at_cookie = Some EmptyString ->
       google_search_people page_net no_unquote accept_all accept_all select
         criteria 25 fresh_world
       = (Raised ValueError, tick fresh_world, [EvGet req])
       /\ LinkedInCrawler_search page_net no_unquote accept_all accept_all
            select li_at_cookie criteria 25 fresh_world
          = (Raised ValueError, tick fresh_world,
             [EvSearchPeople GoogleClient; EvGet req])).
Proof.
  intros select req.
  apply (malformed_link_aborts_the_search page_net no_unquote accept_all
           accept_all select 25 "Backend Engineer python backend"
           ["python backend Boston"] fresh_world
           {| status_code := 200; json := None; text := "<html>";
              jsessionid := None |} malformed_link);
    [reflexivity | reflexivity
    | apply elem_of_cons; right; apply elem_of_cons; by left
    | reflexivity | reflexivity].
Defined.

(* ================================================================== *)
(** * What the two Voyager parsers build *)
(* ================================================================== *)

Lemma starts_with_contains_suffix (a b s : string) :
  PyStr.starts_with (a +:+ b) s = true -> PyStr.contains b s = true.
Proof.
  revert s. induction a as [|c a IH]; intros s.
  - rewrite append_empty_l. intros Hs. destruct s; simpl; by rewrite Hs.
  - rewrite append_cons. destruct s as [|d s]; [done|]. simpl.
    intros [_ Hs]%andb_true_iff. apply IH in Hs. rewrite Hs. apply orb_true_r.
Qed.

Lemma contains_suffix (a b s : string) :
  PyStr.contains (a +:+ b) s = true -> PyStr.contains b s = true.
Proof.
  induction s as [|d s IH].
  - intros Hc. simpl in Hc. rewrite orb_false_r in Hc.
    by apply starts_with_contains_suffix in Hc.
  - intros Hc. simpl in Hc. apply orb_true_iff in Hc as [Hs|Hc].
    + by apply starts_with_contains_suffix in Hs.
    + simpl. rewrite (IH Hc). apply orb_true_r.
Qed.

Lemma lstrip_with_head p s :
  PyStr.lstrip_with p s = EmptyString
  \/ exists c r, PyStr.lstrip_with p s = String c r /\ p c = false.
Proof.
  induction s as [|c s IH]; [by left|]. simpl.
  destruct (p c) eqn:Hc; [done|]. right. by exists c, s.
Qed.

Lemma rstrip_with_idem p s :
  PyStr.rstrip_with p (PyStr.rstrip_with p s) = PyStr.rstrip_with p s.
Proof.
  induction s as [|c s IH]; [done|]. simpl.
  destruct (PyStr.rstrip_with p s) as [|d r] eqn:Hr.
  - destruct (p c) eqn:Hc; [done|]. simpl. by rewrite Hc.
  - change (PyStr.rstrip_with p (String c (String d r)))
      with (match PyStr.rstrip_with p (String d r) with
            | EmptyString => if p c then EmptyString else String c EmptyString
            | r' => String c r'
            end).
    by rewrite IH.
Qed.

Lemma rstrip_with_head p c r :
  p c = false -> exists r', PyStr.rstrip_with p (String c r) = String c r'.
Proof.
  intros Hc. simpl. destruct (PyStr.rstrip_with p r) as [|d r'].
  - rewrite Hc. by eexists.
  - by eexists.
Qed.

Lemma strip_idem (s : string) : PyStr.strip (PyStr.strip s) = PyStr.strip s.
Proof.
  unfold PyStr.strip.
  destruct (lstrip_with_head PyStr.isspace s) as [-> | (c & r & -> & Hc)]; [done|].
  destruct (rstrip_with_head PyStr.isspace c r Hc) as [r' Hr].
  assert (Hl : PyStr.lstrip_with PyStr.isspace
                 (PyStr.rstrip_with PyStr.isspace (String c r))
               = PyStr.rstrip_with PyStr.isspace (String c r)).
  { rewrite Hr. simpl. by rewrite Hc. }
  rewrite Hl. apply rstrip_with_idem.
Qed.

(** X13. Every profile the search parser returns was built from a record of
    the body whose type holds "Profile" (the test for "MiniProfile" adds
    nothing to it) and whose identifier, read from [publicIdentifier] or
    else from [public_id], is not empty; its URL is the profile page of
    that identifier, its name is not empty and carries no surrounding
    white space, and it holds no skill, position, school or summary.
    There are at most as many profiles as records. *)
Theorem search_results_are_well_formed (data : voyager) (p : CandidateProfile) :
  p ∈ _parse_search_results data ->
  (exists it public_id,
      it ∈ records_of data
      /\ PyStr.contains "Profile" (record_type it) = true
      /\ public_id <> EmptyString
      /\ (get it "publicIdentifier" = Some public_id
          \/ (absent_or_empty (get it "publicIdentifier")
              /\ get it "public_id" = Some public_id))
      /\ profile_url p = LINKEDIN_PROFILE_VIEW public_id
      /\ name p = search_item_name it
      /\ current_title p = get it "occupation")
  /\ name p <> EmptyString
  /\ PyStr.strip (name p) = name p
  /\ skills p = [] /\ experience p = [] /\ education p = []
  /\ summary p = None
  /\ (length (_parse_search_results data) <= length (records_of data))%nat.
Proof.
  rewrite parse_search_results_omap. fold (records_of data).
  intros (it & Hin & Hit)%list_elem_of_omap.
  assert (Hlen : (length (omap search_item (records_of data))
                  <= length (records_of data))%nat).
  { generalize (records_of data) as l. induction l as [|x l IH]; [done|].
    change (omap search_item (x :: l))
      with (match search_item x with
            | Some y => y :: omap search_item l
            | None => omap search_item l
            end).
    destruct (search_item x); simpl; lia. }
  unfold search_item in Hit. fold (record_type it) in Hit.
  destruct (PyStr.contains "MiniProfile" (record_type it)
            || PyStr.contains "Profile" (record_type it)) eqn:Htype; [|done].
  assert (Hprofile : PyStr.contains "Profile" (record_type it) = true).
  { apply orb_true_iff in Htype as [Hmini|Hp]; [|done].
    by apply (contains_suffix "Mini" "Profile"). }
  destruct (py_or (get it "publicIdentifier")
              (Some (get_default it "public_id" ""))) as [[|c id]|] eqn:Hid;
    [done| |done].
  destruct (PyStr.truthy (search_item_name it)) eqn:Hname; [|done].
  simpl in Hit. injection Hit as <-. simpl.
  split.
  - exists it, (String c id). split; [done|]. split; [done|]. split; [done|].
    split; [|done].
    unfold py_or, get_default, get in Hid |- *.
    destruct (it !! "publicIdentifier") as [[|c' id']|] eqn:Hpid;
      simpl in Hid.
    + right. split; [by right|].
      destruct (it !! "public_id") as [v|]; [congruence | done].
    + left. congruence.
    + right. split; [by left|].
      destruct (it !! "public_id") as [v|]; [congruence | done].
  - split; [by destruct (search_item_name it)|].
    split; [apply strip_idem | done].
Qed.

Lemma search_results_are_well_formed_witness :
  let p := stub_profile "Ann Lee" None "https://www.linkedin.com/in/ann-lee" in
  (exists it public_id,
      it ∈ records_of sample_records
      /\ PyStr.contains "Profile" (record_type it) = true
      /\ public_id <> EmptyString
      /\ (get it "publicIdentifier" = Some public_id
          \/ (absent_or_empty (get it "publicIdentifier")
              /\ get it "public_id" = Some public_id))
      /\ profile_url p = LINKEDIN_PROFILE_VIEW public_id
      /\ name p = search_item_name it
      /\ current_title p = get it "occupation")
  /\ name p <> EmptyString
  /\ PyStr.strip (name p) = name p
  /\ skills p = [] /\ experience p = [] /\ education p = []
  /\ summary p = None
  /\ (length (_parse_search_results sample_records)
      <= length (records_of sample_records))%nat.
Proof.
  intros p. apply (search_results_are_well_formed sample_records p).
  vm_compute. apply elem_of_cons. right. apply elem_of_cons. right.
  apply elem_of_cons. by left.
Defined.

Lemma last_cons_default {A} (l : list A) (x d : A) :
  List.last (x :: l) d = List.last l x.
Proof.
  revert x d. induction l as [|y l IH]; intros x d; [done|].
  change (List.last (x :: y :: l) d) with (List.last (y :: l) d).
  by rewrite (IH y d), (IH y x).
Qed.

Lemma full_profile_fold public_id (l : list item) :
  forall acc,
    let acc' := fold_left (full_profile_step public_id) l acc in
    profile_data acc'
    = List.last (List.filter (is_profile_record public_id) l) (profile_data acc)
    /\ experiences acc'
       = experiences acc
         ++ (experience_of <$> List.filter (is_position_record public_id) l)
    /\ educations acc'
       = educations acc
         ++ (education_of <$> List.filter (is_education_record public_id) l)
    /\ skill_names acc'
       = skill_names acc
         ++ filter_none ((fun it => get it "name")
                           <$> List.filter (is_skill_record public_id) l).
Proof.
  induction l as [|it l IH]; intros acc.
  - simpl. by rewrite !app_nil_r.
  - cbn [fold_left]. cbv zeta.
    destruct (IH (full_profile_step public_id acc it)) as (Hp & He & Hd & Hs).
    rewrite Hp, He, Hd, Hs. clear IH Hp He Hd Hs.
    cbn [List.filter].
    unfold full_profile_step, is_position_record, is_education_record,
      is_skill_record, is_profile_record.
    fold (record_type it).
    destruct (PyStr.contains "Profile" (record_type it)
              && bool_decide (get it "publicIdentifier" = Some public_id))
      eqn:Hprof; cbn [negb andb].
    { cbn [profile_data experiences educations skill_names].
      split; [|done]. by rewrite last_cons_default. }
    destruct (PyStr.contains "Position" (record_type it)); cbn [negb andb].
    { cbn [profile_data experiences educations skill_names fmap list_fmap].
      split; [done|]. split; [|done]. by rewrite <- app_assoc. }
    destruct (PyStr.contains "Education" (record_type it)); cbn [negb andb].
    { cbn [profile_data experiences educations skill_names fmap list_fmap].
      split; [done|]. split; [done|]. split; [|done]. by rewrite <- app_assoc. }
    destruct (PyStr.contains "Skill" (record_type it)); cbn [negb andb]; [|done].
    cbn [fmap list_fmap]. unfold filter_none at 2. cbn [omap list_omap].
    fold (filter_none ((fun it0 => get it0 "name")
                         <$> List.filter
                               (fun it0 =>
                                  negb (PyStr.contains "Profile" (record_type it0)
                                        && bool_decide (get it0 "publicIdentifier"
                                                        = Some public_id))
                                  && negb (PyStr.contains "Position" (record_type it0))
                                  && negb (PyStr.contains "Education" (record_type it0))
                                  && PyStr.contains "Skill" (record_type it0)) l)).
    destruct (get it "name") as [[|c s]|]; cbn [PyStr.truthy];
      cbn [profile_data experiences educations skill_names]; try done.
    split; [done|]. split; [done|]. split; [done|]. by rewrite <- app_assoc.
Qed.

Lemma parse_full_profile_acc (data : voyager) (public_id : string) :
  let acc := fold_left (full_profile_step public_id) (records_of data)
               {| profile_data := ∅; experiences := []; educations := [];
                  skill_names := [] |} in
  profile_data acc = last_profile_record public_id (records_of data)
  /\ experiences acc
     = experience_of <$> List.filter (is_position_record public_id) (records_of data)
  /\ educations acc
     = education_of <$> List.filter (is_education_record public_id) (records_of data)
  /\ skill_names acc
     = filter_none ((fun it => get it "name")
                      <$> List.filter (is_skill_record public_id) (records_of data)).
Proof.
  intros acc.
  destruct (full_profile_fold public_id (records_of data)
              {| profile_data := ∅; experiences := []; educations := [];
                 skill_names := [] |}) as (Hp & He & Hd & Hs).
  done.
Qed.

Lemma filter_none_truthy (values : list (option string)) (s : string) :
  s ∈ filter_none values -> s <> EmptyString.
Proof.
  unfold filter_none. intros (v & _ & Hv)%list_elem_of_omap.
  destruct v as [[|c r]|]; simpl in Hv; [done| |done].
  by injection Hv as <-.
Qed.

Lemma filter_none_length (values : list (option string)) :
  (length (filter_none values) <= length values)%nat.
Proof.
  unfold filter_none. induction values as [|v values IH]; [done|].
  change (omap ?f (v :: values))
    with (match f v with
          | Some y => y :: omap f values
          | None => omap f values
          end).
  destruct v as [[|c r]|]; simpl; lia.
Qed.

Lemma filter_none_matching {A} (f : A -> bool) (l : list A) :
  Forall (fun x => f x = false) l -> List.filter f l = [].
Proof.
  induction 1 as [|x l Hx _ IH]; [done|]. cbn [List.filter]. by rewrite Hx.
Qed.

(** X14. The fields of a full profile are read from one record only: the
    last record of the body whose type holds "Profile" and whose
    [publicIdentifier] is the identifier asked for.  The records of other
    members never leak into the result: when no record matches, the
    profile is named "Unknown" and has no headline, location or summary.
    The name is never empty. *)
Theorem full_profile_reads_the_last_matching_record
    (data : voyager) (public_id : string) :
  let p := _parse_full_profile data public_id in
  let record := last_profile_record public_id (records_of data) in
  let joined :=
    PyStr.join " " (filter_none [get record "firstName"; get record "lastName"]) in
  headline p = get record "headline"
  /\ current_title p = get record "headline"
  /\ location p = get record "locationName"
  /\ summary p = get record "summary"
  /\ name p = (if PyStr.truthy joined then joined else "Unknown")
  /\ name p <> EmptyString
  /\ (Forall (fun it => is_profile_record public_id it = false) (records_of data) ->
      record = ∅
      /\ name p = "Unknown" /\ headline p = None /\ location p = None
      /\ summary p = None)
  /\ (forall before it after,
        records_of data = before ++ it :: after ->
        is_profile_record public_id it = true ->
        Forall (fun it' => is_profile_record public_id it' = false) after ->
        record = it).
Proof.
  intros p record joined.
  destruct (parse_full_profile_acc data public_id) as (Hp & _).
  assert (Hfields : headline p = get record "headline"
                    /\ current_title p = get record "headline"
                    /\ location p = get record "locationName"
                    /\ summary p = get record "summary"
                    /\ name p = (if PyStr.truthy joined then joined else "Unknown")).
  { unfold p, _parse_full_profile. fold (records_of data). cbv zeta.
    cbn [headline current_title location summary name].
    rewrite Hp. by fold record. }
  destruct Hfields as (Hh & Hc & Hl & Hs & Hn).
  split; [done|]. split; [done|]. split; [done|]. split; [done|].
  split; [done|]. split.
  { rewrite Hn. by destruct joined. }
  split.
  - intros Hnone.
    assert (Hempty : record = ∅).
    { unfold record, last_profile_record.
      by rewrite (filter_none_matching _ _ Hnone). }
    split; [done|]. rewrite Hh, Hl, Hs, Hn. unfold joined. by rewrite Hempty.
  - intros before it after Hrecords Hit Hafter.
    unfold record, last_profile_record. rewrite Hrecords.
    rewrite List.filter_app. cbn [List.filter]. rewrite Hit.
    rewrite (filter_none_matching _ _ Hafter). apply List.last_last.
Qed.

Lemma full_profile_reads_the_last_matching_record_witness :
  let p := _parse_full_profile sample_profile_body "john-smith" in
  let record :=
    <["$type" := "com.linkedin.voyager.identity.profile.Profile"]>
      (<["publicIdentifier" := "john-smith"]>
         (<["firstName" := "John"]> (<["headline" := "Recruiter"]> ∅))) in
  last_profile_record "john-smith" (records_of sample_profile_body) = record
  /\ name p = "John" /\ headline p = Some "Recruiter".
Proof.
  intros p record.
  pose proof (full_profile_reads_the_last_matching_record sample_profile_body
                "john-smith") as (Hh & _ & _ & _ & Hn & _ & _ & Hlast).
  assert (Hrecord : last_profile_record "john-smith"
                      (records_of sample_profile_body) = record).
  { apply (Hlast (take 2 (records_of sample_profile_body)) record
                 (drop 3 (records_of sample_profile_body)));
      [reflexivity | reflexivity | by repeat constructor]. }
  split; [exact Hrecord|]. split.
  - etrans; [exact Hn|]. by rewrite Hrecord.
  - etrans; [exact Hh|]. by rewrite Hrecord.
Defined.

Lemma full_profile_counts public_id (l : list item) :
  (length (List.filter (is_position_record public_id) l)
   + length (List.filter (is_education_record public_id) l)
   + length (List.filter (is_skill_record public_id) l)
   + length (List.filter (is_profile_record public_id) l)
   <= length l)%nat.
Proof.
  induction l as [|it l IH]; [done|]. cbn [List.filter].
  unfold is_position_record at 1, is_education_record at 1,
    is_skill_record at 1.
  destruct (is_profile_record public_id it);
    destruct (PyStr.contains "Position" (record_type it));
    destruct (PyStr.contains "Education" (record_type it));
    destruct (PyStr.contains "Skill" (record_type it));
    cbn [negb andb length]; lia.
Qed.

(** X15. The positions, the schools and the skills of a full profile are
    those of the records of the body, in the order of the body.  A record
    is read as one kind only, the first that fits among the profile asked
    for, position, education and skill, so that the three lists and the
    matching profile records together never outnumber the records; a
    skill without a name is left out, and no skill is the empty string. *)
Theorem full_profile_lists_follow_the_body
    (data : voyager) (public_id : string) :
  let p := _parse_full_profile data public_id in
  let records := records_of data in
  experience p
  = experience_of <$> List.filter (is_position_record public_id) records
  /\ education p
     = education_of <$> List.filter (is_education_record public_id) records
  /\ skills p
     = filter_none ((fun it => get it "name")
                      <$> List.filter (is_skill_record public_id) records)
  /\ (EmptyString ∉ skills p)
  /\ (length (experience p) + length (education p) + length (skills p)
      + length (List.filter (is_profile_record public_id) records)
      <= length records)%nat.
Proof.
  intros p records.
  destruct (parse_full_profile_acc data public_id) as (_ & He & Hd & Hs).
  assert (Hlists :
    experience p
    = experience_of <$> List.filter (is_position_record public_id) records
    /\ education p
       = education_of <$> List.filter (is_education_record public_id) records
    /\ skills p
       = filter_none ((fun it => get it "name")
                        <$> List.filter (is_skill_record public_id) records)).
  { unfold p, _parse_full_profile. fold (records_of data). cbv zeta.
    cbn [experience education skills]. by rewrite He, Hd, Hs. }
  destruct Hlists as (Hexp & Hedu & Hsk).
  split; [done|]. split; [done|]. split; [done|]. split.
  - rewrite Hsk. intros Hin. by apply filter_none_truthy in Hin.
  - rewrite Hexp, Hedu, Hsk.
    pose proof (full_profile_counts public_id records) as Hcount.
    pose proof (filter_none_length
                  ((fun it => get it "name")
                     <$> List.filter (is_skill_record public_id) records)) as Hf.
    rewrite !length_fmap in *. lia.
Qed.

Lemma full_profile_lists_follow_the_body_witness :
  let p := _parse_full_profile sample_profile_body "jane-doe" in
  experience p
  = [{| exp_title := "Staff Engineer"; exp_company := "BigCo";
        exp_location := None; exp_duration := None; exp_description := None |}]
  /\ education p
     = [{| edu_school := "MIT"; edu_degree := None; edu_field_of_study := None;
           edu_years := None |}]
  /\ skills p = ["Python"]
  /\ (EmptyString ∉ skills p).
Proof.
  intros p.
  pose proof (full_profile_lists_follow_the_body sample_profile_body "jane-doe")
    as (He & Hd & Hs & Hne & _).
  split; [exact He|]. split; [exact Hd|]. split; [exact Hs|]. exact Hne.
Defined.

(* ================================================================== *)
(** * Deduplication as a projection *)
(* ================================================================== *)

Lemma keep_first_app earlier l more :
  exists earlier',
    keep_first earlier (l ++ more)
    = keep_first earlier l ++ keep_first earlier' more.
Proof.
  revert earlier. induction l as [|c l IH]; intros earlier.
  - by exists earlier.
  - rewrite <- app_comm_cons. cbn [keep_first].
    destruct (bool_decide (profile_url c ∈ earlier)).
    + apply IH.
    + destruct (IH (profile_url c :: earlier)) as [earlier' ->].
      by exists earlier'.
Qed.

(** X16. Deduplication changes nothing in a list exactly when its URLs are
    pairwise distinct, so that it is idempotent, and cutting at a
    [max_results] that is not negative is idempotent too.  Candidates found
    later never displace those found earlier: the deduplicated list of the
    candidates so far is a prefix of the deduplicated list of any
    extension. *)
Theorem deduplication_is_a_projection
    (candidates more : list CandidateProfile) (max_results : Z) :
  (NoDup (profile_url <$> candidates) <-> deduplicate candidates = candidates)
  /\ deduplicate (deduplicate candidates) = deduplicate candidates
  /\ (0 <= max_results ->
      dedup_truncate (dedup_truncate candidates max_results) max_results
      = dedup_truncate candidates max_results)
  /\ deduplicate candidates `prefix_of` deduplicate (candidates ++ more).
Proof.
  assert (Hfix : forall l, NoDup (profile_url <$> l) -> deduplicate l = l).
  { intros l Hnd. rewrite deduplicate_keep_first.
    apply keep_first_distinct; [done|]. intros c _ ?%elem_of_nil. done. }
  assert (Hnd : NoDup (profile_url <$> deduplicate candidates)).
  { rewrite deduplicate_keep_first. apply keep_first_NoDup. }
  split; [|split; [|split]].
  - split; [apply Hfix|]. intros <-. exact Hnd.
  - by apply Hfix.
  - intros Hmax. apply dedup_truncate_distinct.
    + eapply sublist_NoDup; [exact Hnd|].
      apply fmap_sublist, py_slice_to_sublist.
    + by apply py_slice_to_length.
  - rewrite !deduplicate_keep_first.
    destruct (keep_first_app [] candidates more) as [earlier' ->].
    by apply prefix_app_r.
Qed.

Lemma deduplication_is_a_projection_witness :
  let jane := stub_profile "Jane Doe" None "https://www.linkedin.com/in/jane-doe" in
  let jane' := stub_profile "J. Doe" (Some "Engineer")
                 "https://www.linkedin.com/in/jane-doe" in
  let ann := stub_profile "Ann Lee" None "https://www.linkedin.com/in/ann-lee" in
  dedup_truncate (dedup_truncate [jane; jane'; ann] 1) 1
  = dedup_truncate [jane; jane'; ann] 1
  /\ deduplicate [jane; jane'; ann] = [jane; ann].
Proof.
  intros jane jane' ann.
  destruct (deduplication_is_a_projection [jane; jane'; ann] [] 1)
    as (_ & _ & Hcut & _).
  split; [apply Hcut; lia | reflexivity].
Defined.

(* ================================================================== *)
(** * Names of the profiles of the fallback parser *)
(* ================================================================== *)









(* ================================================================== *)
(** * One URL for one member, whatever the strategy *)
(* ================================================================== *)

Lemma starts_with_mem (pre s : string) (c : ascii) :
  PyStr.starts_with pre s = true -> PyStr.mem c pre = true -> PyStr.mem c s = true.
Proof.
  revert s. induction pre as [|a pre IH]; intros s; [done|].
  destruct s as [|b s]; [done|]. simpl.
  intros [Hab Hs]%andb_true_iff. apply Ascii.eqb_eq in Hab as <-.
  destruct (Ascii.eqb c a); [done|]. by apply IH.
Qed.

Lemma contains_mem (needle s : string) (c : ascii) :
  PyStr.contains needle s = true -> PyStr.mem c needle = true ->
  PyStr.mem c s = true.
Proof.
  intros Hc Hn. induction s as [|b s IH].
  - simpl in Hc. rewrite orb_false_r in Hc. by eapply starts_with_mem.
  - simpl in Hc. apply orb_true_iff in Hc as [Hs|Hc].
    + by eapply starts_with_mem.
    + simpl. rewrite (IH Hc). by destruct (Ascii.eqb c b).
Qed.

Lemma not_mem_not_contains (needle s : string) (c : ascii) :
  PyStr.mem c needle = true -> PyStr.mem c s = false ->
  PyStr.contains needle s = false.
Proof.
  intros Hn Hs. destruct (PyStr.contains needle s) eqn:Hc; [|done].
  by rewrite (contains_mem _ _ _ Hc Hn) in Hs.
Qed.

Lemma not_mem_not_starts_with (pre s : string) (c : ascii) :
  PyStr.mem c pre = true -> PyStr.mem c s = false ->
  PyStr.starts_with pre s = false.
Proof.
  intros Hn Hs. destruct (PyStr.starts_with pre s) eqn:Hc; [|done].
  by rewrite (starts_with_mem _ _ _ Hc Hn) in Hs.
Qed.

Lemma remove_if_none p s :
  PyStr.forallb (fun c => negb (p c)) s = true -> PyStr.remove_if p s = s.
Proof.
  induction s as [|c s IH]; [done|]. simpl.
  intros [Hc Hs]%andb_true_iff. apply negb_true_iff in Hc as ->.
  by rewrite IH.
Qed.

Lemma rstrip_with_not_mem (chars s : string) :
  (forall c, PyStr.mem c chars = true -> PyStr.mem c s = false) ->
  PyStr.rstrip_with (fun c => PyStr.mem c chars) s = s.
Proof.
  induction s as [|d s IH]; [done|]. intros Hs. simpl.
  assert (Hd : PyStr.mem d chars = false).
  { destruct (PyStr.mem d chars) eqn:Hd; [|done].
    specialize (Hs d Hd). simpl in Hs. by rewrite Ascii.eqb_refl in Hs. }
  rewrite IH.
  - rewrite Hd. by destruct s.
  - intros c Hc. specialize (Hs c Hc). simpl in Hs.
    by destruct (Ascii.eqb c d).
Qed.

Lemma rstrip_with_append_kept p (a s : string) :
  PyStr.rstrip_with p s = s -> s <> EmptyString ->
  PyStr.rstrip_with p (a +:+ s) = a +:+ s.
Proof.
  intros Hs Hne. induction a as [|c a IH]; [done|].
  rewrite append_cons. simpl. rewrite IH.
  destruct (a +:+ s) as [|d r] eqn:Has; [|done].
  destruct a; [by rewrite append_empty_l in Has | by rewrite append_cons in Has].
Qed.

(** [urlparse] of the page of a member on www.linkedin.com. *)
Lemma urlparse_profile_view bracketed_ok nfkc_ok (public_id : string) :
  PyStr.mem "?" public_id = false ->
  PyStr.mem "#" public_id = false ->
  PyStr.mem ";" public_id = false ->
  PyStr.forallb (fun c => negb (Urllib.unsafe_url_byte c)) public_id = true ->
  Urllib.urlparse bracketed_ok nfkc_ok (LINKEDIN_PROFILE_VIEW public_id)
  = Some {| Urllib.scheme := "https"; Urllib.netloc := "www.linkedin.com";
            Urllib.path := "/in/" +:+ public_id; Urllib.params := "";
            Urllib.query := ""; Urllib.fragment := "" |}.
Proof.
  intros Hq Hf Hp Hsafe.
  assert (Hsplit :
    Urllib.urlsplit bracketed_ok nfkc_ok (LINKEDIN_PROFILE_VIEW public_id)
    = Some {| Urllib.scheme := "https"; Urllib.netloc := "www.linkedin.com";
              Urllib.path := "/in/" +:+ public_id; Urllib.params := "";
              Urllib.query := ""; Urllib.fragment := "" |}).
  { unfold Urllib.urlsplit, LINKEDIN_PROFILE_VIEW.
    change (PyStr.lstrip_with Urllib.c0_control_or_space
              ("https://www.linkedin.com/in/" +:+ public_id))
      with ("https://www.linkedin.com/in/" +:+ public_id).
    rewrite remove_if_append, (remove_if_none _ _ Hsafe).
    change (PyStr.remove_if Urllib.unsafe_url_byte "https://www.linkedin.com/in/")
      with "https://www.linkedin.com/in/".
    change (Urllib.split_scheme ("https://www.linkedin.com/in/" +:+ public_id))
      with ("https", "//www.linkedin.com/in/" +:+ public_id).
    cbv beta iota.
    change (Urllib.split_authority ("//www.linkedin.com/in/" +:+ public_id))
      with ("www.linkedin.com", "/in/" +:+ public_id).
    cbv beta iota.
    change (Urllib.netloc_accepted bracketed_ok nfkc_ok "www.linkedin.com")
      with true.
    cbn [negb]. cbv beta iota.
    rewrite (split_at_char_not_mem "#") by (by rewrite mem_append, Hf).
    by rewrite (split_at_char_not_mem "?") by (by rewrite mem_append, Hq). }
  unfold Urllib.urlparse. rewrite Hsplit. cbn [Urllib.path Urllib.scheme].
  rewrite mem_append, Hp. by rewrite andb_false_r.
Qed.

Lemma span_all p s :
  PyStr.forallb p s = true -> PyStr.span p s = (s, EmptyString).
Proof.
  induction s as [|c s IH]; [done|]. simpl.
  intros [Hc Hs]%andb_true_iff. by rewrite Hc, IH.
Qed.

Lemma forallb_not_char (c : ascii) (s : string) :
  PyStr.mem c s = false ->
  PyStr.forallb (fun d => negb (Ascii.eqb d c)) s = true.
Proof.
  induction s as [|d s IH]; [done|]. simpl.
  destruct (Ascii.eqb_spec c d) as [->|Hne]; [done|]. intros Hs.
  destruct (Ascii.eqb_spec d c) as [->|_]; [done|]. by apply IH.
Qed.

Lemma public_id_of_profile_path (public_id : string) :
  PyStr.mem "/" public_id = false ->
  public_id_of_path ("/in/" +:+ public_id) = public_id.
Proof.
  intros Hslash.
  rewrite (public_id_of_path_marker _ EmptyString public_id).
  - assert (Hc : PyStr.contains "/" public_id = false)
      by by apply (not_mem_not_contains _ _ "/").
    rewrite contains_partition_first in Hc.
    by destruct (partition_first "/" public_id) as [[b a]|].
  - done.
  - by apply (not_mem_not_contains _ _ "/").
Qed.

Lemma profile_view_is_no_redirect (public_id : string) :
  PyStr.mem "?" public_id = false ->
  PyStr.contains "/url?q=" (LINKEDIN_PROFILE_VIEW public_id) = false.
Proof.
  intros Hq. unfold LINKEDIN_PROFILE_VIEW.
  apply (not_mem_not_contains _ _ "?"); [done|].
  by rewrite mem_append, Hq.
Qed.

Lemma starts_with_contains (needle s : string) :
  PyStr.starts_with needle s = true -> PyStr.contains needle s = true.
Proof. intros Hs. destruct s; simpl; by rewrite Hs. Qed.

Lemma profile_view_has_marker (public_id : string) :
  PyStr.contains "linkedin.com/in/" (LINKEDIN_PROFILE_VIEW public_id) = true.
Proof.
  apply (contains_suffix "https://www." "linkedin.com/in/").
  apply starts_with_contains. unfold LINKEDIN_PROFILE_VIEW.
  exact (starts_with_append "https://www.linkedin.com/in/" public_id).
Qed.

(** The profile the fallback parser builds from a link to the page of a
    member. *)
Lemma google_anchor_profile_view unquote bracketed_ok nfkc_ok public_id a :
  plain_identifier public_id ->
  unwrap_redirect unquote (href a) = LINKEDIN_PROFILE_VIEW public_id ->
  exists name headline,
    google_anchor unquote bracketed_ok nfkc_ok a
    = Returned (Some (stub_profile name headline
                        (LINKEDIN_PROFILE_VIEW public_id))).
Proof.
  intros (Hne & Hslash & Hq & Hf & Hp & _ & Hsafe) Hlink.
  unfold google_anchor. rewrite Hlink, profile_view_has_marker.
  cbn [negb]. rewrite urlparse_profile_view by done.
  cbn [Urllib.path].
  assert (Hpath : PyStr.rstrip_chars "/" ("/in/" +:+ public_id)
                  = "/in/" +:+ public_id).
  { unfold PyStr.rstrip_chars. apply rstrip_with_append_kept; [|done].
    apply rstrip_with_not_mem. intros c Hc. simpl in Hc.
    destruct (Ascii.eqb_spec c "/") as [Heq|]; [by rewrite Heq | done]. }
  rewrite Hpath, public_id_of_profile_path by done.
  destruct public_id as [|c r]; [done|]. cbn [PyStr.truthy negb].
  destruct (snippet_name_headline (String c r) (anchor_text a)) as [nm hl].
  by exists nm, hl.
Qed.

Lemma redirect_search_match (s g : string) :
  redirect_match_at s = Some g -> redirect_search s = Some g.
Proof.
  intros Hm. destruct s as [|c s]; [by vm_compute in Hm|].
  cbn [redirect_search]. by rewrite Hm.
Qed.

Lemma unwrap_google_redirect unquote (url : string) :
  PyStr.starts_with "https://" url = true ->
  PyStr.mem "&" url = false ->
  String.length url <> 8%nat ->
  unwrap_redirect unquote (google_redirect url) = unquote url.
Proof.
  intros Hscheme Hamp Hlen.
  apply starts_with_drop in Hscheme. simpl String.length in Hscheme.
  set (rest := PyStr.drop 8 url) in *.
  assert (Hrest : rest <> EmptyString).
  { intros Hr. rewrite Hscheme, Hr, length_append in Hlen. simpl in Hlen. lia. }
  assert (Hrest_amp : PyStr.mem "&" rest = false).
  { rewrite Hscheme, mem_append in Hamp. by apply orb_false_iff in Hamp as [_ ?]. }
  unfold unwrap_redirect, google_redirect.
  rewrite (starts_with_contains "/url?q=")
    by apply (starts_with_append "/url?q=").
  rewrite Hscheme at 1.
  assert (Hmatch : redirect_match_at ("/url?q=" +:+ ("https://" +:+ rest) +:+ "&sa=U")
                   = Some ("https://" +:+ rest)).
  { unfold redirect_match_at.
    change (PyStr.starts_with "/url?q=" ("/url?q=" +:+ ("https://" +:+ rest) +:+ "&sa=U"))
      with true. cbv iota.
    change (PyStr.drop 7 ("/url?q=" +:+ ("https://" +:+ rest) +:+ "&sa=U"))
      with ("https://" +:+ rest +:+ "&sa=U").
    cbv zeta.
    change (PyStr.starts_with "https://" ("https://" +:+ rest +:+ "&sa=U"))
      with true. cbv iota.
    change (PyStr.drop 8 ("https://" +:+ rest +:+ "&sa=U"))
      with (rest +:+ "&sa=U").
    rewrite (span_append_stop _ rest "&" "sa=U") by done.
    rewrite (span_all _ rest) by by apply forallb_not_char.
    cbn [fst snd]. by destruct rest. }
  by rewrite (redirect_search_match _ _ Hmatch), <- Hscheme.
Qed.

(** X18. The two strategies give one member one URL.  For an identifier
    free of URL delimiters, the fallback parser turns a link to the page
    the authenticated parser names, be it direct or wrapped in a Google
    redirect, into a profile with exactly that URL, and reads the
    identifier back from its path; the search parser gives every record
    with that [publicIdentifier] the same URL. *)
Theorem profile_url_is_stable_across_strategies
    (unquote : string -> string) (bracketed_ok nfkc_ok : string -> bool)
    (public_id : string) (text : option string) :
  let url := LINKEDIN_PROFILE_VIEW public_id in
  plain_identifier public_id ->
  unquote url = url ->
  public_id_of_path ("/in/" +:+ public_id) = public_id
  /\ (forall link,
        link = url \/ link = google_redirect url ->
        exists name headline,
          google_anchor unquote bracketed_ok nfkc_ok
            {| href := link; parent_div_text := text |}
          = Returned (Some (stub_profile name headline url)))
  /\ (forall it q,
        get it "publicIdentifier" = Some public_id ->
        search_item it = Some q ->
        profile_url q = url).
Proof.
  intros url Hplain Hunquote.
  pose proof Hplain as (Hne & Hslash & Hq & Hf & Hp & Hamp & Hsafe).
  split; [by apply public_id_of_profile_path|]. split.
  - intros link Hlink. apply google_anchor_profile_view; [done|].
    cbn [href]. destruct Hlink as [-> | ->].
    + unfold unwrap_redirect, url.
      by rewrite (profile_view_is_no_redirect public_id Hq).
    + rewrite unwrap_google_redirect; [done|done| |].
      * unfold url, LINKEDIN_PROFILE_VIEW. by rewrite mem_append, Hamp.
      * unfold url, LINKEDIN_PROFILE_VIEW. rewrite length_append. simpl. lia.
  - intros it q Hid. unfold search_item. rewrite Hid.
    destruct (_ || _); [|done].
    destruct public_id as [|c r]; [done|]. cbn [py_or PyStr.truthy].
    destruct (negb _); [done|]. by intros [= <-].
Qed.

Lemma profile_url_is_stable_across_strategies_witness :
  let url := "https://www.linkedin.com/in/jane-doe" in
  public_id_of_path "/in/jane-doe" = "jane-doe"
  /\ (forall link,
        link = url \/ link = google_redirect url ->
        exists name headline,
          google_anchor no_unquote accept_all accept_all
            {| href := link; parent_div_text := Some "Jane Doe - Engineer" |}
          = Returned (Some (stub_profile name headline url)))
  /\ (forall it q,
        get it "publicIdentifier" = Some "jane-doe" ->
        search_item it = Some q ->
        profile_url q = url).
Proof.
  intros url.
  apply (profile_url_is_stable_across_strategies no_unquote accept_all
           accept_all "jane-doe" (Some "Jane Doe - Engineer"));
    [by repeat split | reflexivity].
Defined.

(* ================================================================== *)
(** * Replies of the language model wrapped in a Markdown fence *)
(* ================================================================== *)

Lemma starts_with_length (pre s : string) :
  PyStr.starts_with pre s = true -> (String.length pre <= String.length s)%nat.
Proof.
  revert s. induction pre as [|a pre IH]; intros s; [simpl; lia|].
  destruct s as [|b s]; [done|]. simpl.
  intros [_ Hs]%andb_true_iff. apply IH in Hs. lia.
Qed.

Lemma str_index_char_none (c : ascii) (s : string) :
  PyStr.mem c s = false -> str_index (String c EmptyString) s = None.
Proof.
  induction s as [|d s IH]; [done|]. simpl.
  destruct (Ascii.eqb c d); [done|]. intros Hs. by rewrite IH.
Qed.

Lemma str_index_char_absent (c : ascii) (s : string) :
  str_index (String c EmptyString) s = None -> PyStr.mem c s = false.
Proof.
  induction s as [|d s IH]; [done|]. simpl.
  destruct (Ascii.eqb c d); [done|].
  destruct (str_index (String c EmptyString) s); [done|]. intros _. by apply IH.
Qed.

Lemma str_index_char_first (c : ascii) (a b : string) :
  PyStr.mem c a = false ->
  str_index (String c EmptyString) (a +:+ String c b) = Some (String.length a).
Proof.
  induction a as [|d a IH].
  - intros _. rewrite append_empty_l. simpl. by rewrite Ascii.eqb_refl.
  - rewrite append_cons. simpl.
    destruct (Ascii.eqb c d); [done|]. intros Ha. by rewrite IH.
Qed.

Lemma str_rfind_cons (sub : string) (c : ascii) (rest : string) :
  str_rfind sub (String c rest)
  = if 0 <=? str_rfind sub rest then str_rfind sub rest + 1
    else if PyStr.starts_with sub (String c rest) then 0 else -1.
Proof. reflexivity. Qed.

Lemma str_rfind_none (sub s : string) :
  PyStr.contains sub s = false -> str_rfind sub s = -1.
Proof.
  induction s as [|c s IH].
  - simpl. rewrite orb_false_r. by intros ->.
  - intros Hc. simpl in Hc. apply orb_false_iff in Hc as [Hs Hc].
    rewrite str_rfind_cons, (IH Hc), Hs. done.
Qed.

Lemma contains_length (sub s : string) :
  PyStr.contains sub s = true -> (String.length sub <= String.length s)%nat.
Proof.
  induction s as [|c s IH].
  - simpl. rewrite orb_false_r. apply starts_with_length.
  - intros Hc. simpl in Hc. apply orb_true_iff in Hc as [Hs|Hc].
    + by apply starts_with_length.
    + apply IH in Hc. simpl. lia.
Qed.

Lemma str_rfind_suffix (sub s : string) :
  sub <> EmptyString ->
  str_rfind sub (s +:+ sub) = Z.of_nat (String.length s).
Proof.
  intros Hsub. induction s as [|c s IH].
  - rewrite append_empty_l. destruct sub as [|a sub]; [done|].
    rewrite str_rfind_cons.
    rewrite (str_rfind_none (String a sub) sub).
    + assert (Hs : PyStr.starts_with (String a sub) (String a sub) = true).
      { rewrite <- (append_empty_r (String a sub)) at 2.
        apply starts_with_append. }
      by rewrite Hs.
    + destruct (PyStr.contains (String a sub) sub) eqn:Hc; [|done].
      apply contains_length in Hc. simpl in Hc. lia.
  - rewrite append_cons, str_rfind_cons, IH.
    rewrite (proj2 (Z.leb_le _ _)) by lia. simpl String.length. lia.
Qed.

Lemma substring_drop (a b : string) (m : nat) :
  String.substring (String.length a) m (a +:+ b) = String.substring 0 m b.
Proof.
  induction a as [|c a IH]; [by rewrite append_empty_l|].
  rewrite append_cons. simpl. exact IH.
Qed.

Lemma substring_take (b c : string) :
  String.substring 0 (String.length b) (b +:+ c) = b.
Proof.
  induction b as [|d b IH].
  - rewrite append_empty_l. by destruct c.
  - rewrite append_cons. simpl. by rewrite IH.
Qed.

Lemma slice_bound_in_range (len k : nat) :
  (k <= len)%nat -> slice_bound len (Z.of_nat k) = k.
Proof.
  intros Hk. unfold slice_bound.
  rewrite (proj2 (Z.leb_le _ _)) by lia. rewrite Nat2Z.id. lia.
Qed.

(** The slice between two positions of a text cut in three. *)
Lemma str_slice_middle (a b c : string) :
  str_slice (a +:+ b +:+ c) (Z.of_nat (String.length a))
    (Z.of_nat (String.length a + String.length b)) = b.
Proof.
  unfold str_slice. rewrite !length_append.
  rewrite !slice_bound_in_range by lia.
  replace (String.length a + String.length b - String.length a)%nat
    with (String.length b) by lia.
  by rewrite substring_drop, substring_take.
Qed.

Lemma substring_nothing (n : nat) (s : string) :
  String.substring n 0 s = EmptyString.
Proof.
  revert s. induction n as [|n IH]; intros s; [by destruct s|].
  destruct s as [|c s]; [done|]. simpl. apply IH.
Qed.

Lemma str_slice_empty (s : string) (lo : Z) :
  str_slice s lo 0 = EmptyString.
Proof.
  unfold str_slice.
  change (slice_bound (String.length s) 0) with (Nat.min 0 (String.length s)).
  rewrite Nat.min_0_l. simpl. apply substring_nothing.
Qed.

(** The text of a fenced reply: the fence, a language tag, a line break,
    the body and the closing fence. *)
Lemma strip_fences_fenced (text lang body : string) :
  PyStr.strip text = FENCE +:+ lang +:+ NEWLINE +:+ body +:+ FENCE ->
  PyStr.mem "010" lang = false ->
  strip_fences text = Returned (PyStr.strip body).
Proof.
  intros Htext Hlang. unfold strip_fences. rewrite Htext.
  rewrite (starts_with_append FENCE).
  assert (Hopen : PyStr.mem "010" (FENCE +:+ lang) = false)
    by by rewrite mem_append, Hlang.
  assert (Hnl : str_index NEWLINE (FENCE +:+ lang +:+ NEWLINE +:+ body +:+ FENCE)
                = Some (String.length (FENCE +:+ lang))).
  { rewrite <- append_assoc. unfold NEWLINE at 2. rewrite append_cons, append_empty_l.
    by apply str_index_char_first. }
  rewrite Hnl.
  assert (Hlast : str_rfind FENCE (FENCE +:+ lang +:+ NEWLINE +:+ body +:+ FENCE)
                  = Z.of_nat (String.length (FENCE +:+ lang +:+ NEWLINE)
                              + String.length body)).
  { rewrite <- length_append.
    replace (FENCE +:+ lang +:+ NEWLINE +:+ body +:+ FENCE)
      with (((FENCE +:+ lang +:+ NEWLINE) +:+ body) +:+ FENCE)
      by by rewrite !append_assoc.
    by apply str_rfind_suffix. }
  rewrite Hlast.
  replace (Z.of_nat (String.length (FENCE +:+ lang)) + 1)
    with (Z.of_nat (String.length (FENCE +:+ lang +:+ NEWLINE))).
  2:{ rewrite <- append_assoc, (length_append (FENCE +:+ lang)). simpl String.length. lia. }
  replace (FENCE +:+ lang +:+ NEWLINE +:+ body +:+ FENCE)
    with ((FENCE +:+ lang +:+ NEWLINE) +:+ body +:+ FENCE)
    by by rewrite !append_assoc.
  by rewrite str_slice_middle.
Qed.

(** X19. A reply that opens no fence is decoded as it stands, white space
    around it apart.  A reply made of a fence, a language tag, a line
    break, a body and a closing fence is decoded as its body, whatever the
    body holds: the closing fence is found from the end, so that back
    quotes inside the body do no harm. *)
Theorem fenced_reply_is_unwrapped
    (json_loads : string -> outcome jval) (text lang body : string) :
  (PyStr.starts_with FENCE (PyStr.strip text) = false ->
   strip_fences text = Returned (PyStr.strip text)
   /\ _extract_json json_loads text = json_loads (PyStr.strip text))
  /\ (PyStr.strip text = FENCE +:+ lang +:+ NEWLINE +:+ body +:+ FENCE ->
      PyStr.mem "010" lang = false ->
      strip_fences text = Returned (PyStr.strip body)
      /\ _extract_json json_loads text = json_loads (PyStr.strip body)).
Proof.
  split.
  - intros Hplain.
    assert (Hs : strip_fences text = Returned (PyStr.strip text))
      by (unfold strip_fences; by rewrite Hplain).
    split; [done|]. unfold _extract_json. by rewrite Hs.
  - intros Htext Hlang.
    pose proof (strip_fences_fenced text lang body Htext Hlang) as Hs.
    split; [done|]. unfold _extract_json. by rewrite Hs.
Qed.

Lemma fenced_reply_is_unwrapped_witness :
  let loads := fun s : string => Returned (JStr s) in
  let text := " ```json" +:+ NEWLINE +:+ "[`x`]" +:+ NEWLINE +:+ "``` " in
  strip_fences text = Returned "[`x`]"
  /\ _extract_json loads text = Returned (JStr "[`x`]").
Proof.
  intros loads text.
  apply (proj2 (fenced_reply_is_unwrapped loads text "json"
                  ("[`x`]" +:+ NEWLINE)));
    reflexivity.
Defined.

Lemma strip_fences_unclosed (text rest : string) :
  PyStr.strip text = FENCE +:+ rest ->
  PyStr.mem "`" rest = false ->
  PyStr.mem "010" rest = true ->
  strip_fences text = Returned EmptyString.
Proof.
  intros Htext Htick Hnl. unfold strip_fences. rewrite Htext.
  rewrite (starts_with_append FENCE).
  destruct (str_index NEWLINE (FENCE +:+ rest)) as [first_nl|] eqn:Hi.
  2:{ apply str_index_char_absent in Hi.
      by rewrite mem_append, Hnl, orb_true_r in Hi. }
  assert (Hlast : str_rfind FENCE (FENCE +:+ rest) = 0).
  { unfold FENCE.
    assert (Hr : str_rfind "```" rest = -1).
    { apply str_rfind_none. by apply (not_mem_not_contains _ _ "`"). }
    assert (H1 : PyStr.starts_with "``" rest = false)
      by by apply (not_mem_not_starts_with _ _ "`").
    assert (H2 : PyStr.starts_with "`" rest = false)
      by by apply (not_mem_not_starts_with _ _ "`").
    assert (Hr1 : str_rfind "```" (String "`" rest) = -1).
    { rewrite str_rfind_cons, Hr.
      change (PyStr.starts_with "```" (String "`" rest))
        with (PyStr.starts_with "``" rest).
      by rewrite H1. }
    assert (Hr2 : str_rfind "```" (String "`" (String "`" rest)) = -1).
    { rewrite str_rfind_cons, Hr1.
      change (PyStr.starts_with "```" (String "`" (String "`" rest)))
        with (PyStr.starts_with "`" rest).
      by rewrite H2. }
    change ("```" +:+ rest) with (String "`" (String "`" (String "`" rest))).
    rewrite str_rfind_cons, Hr2.
    change (PyStr.starts_with "```" (String "`" (String "`" (String "`" rest))))
      with (PyStr.starts_with "" rest).
    by destruct rest. }
  by rewrite Hlast, str_slice_empty.
Qed.

(* ================================================================== *)
(** * The replies the ranker reads *)
(* ================================================================== *)

Section RankerFacts.
Variable json_loads : string -> outcome jval.
Variable validate_score : jval -> option Q.
Variable validate_reasoning : jval -> option string.
Variable validate_strings : jval -> option (list string).

Lemma parse_scores_stripped text candidates e :
  strip_fences text = Raised e ->
  _parse_scores json_loads validate_score validate_reasoning validate_strings
    text candidates = Raised e.
Proof. intros Hs. unfold _parse_scores. by rewrite Hs. Qed.

Lemma parse_scores_undecodable text stripped candidates :
  strip_fences text = Returned stripped ->
  json_loads stripped = Raised JSONDecodeError ->
  _parse_scores json_loads validate_score validate_reasoning validate_strings
    text candidates = Returned (unscored <$> candidates).
Proof. intros Hs Hj. unfold _parse_scores. by rewrite Hs, Hj. Qed.

(** X20. Two ways a fence goes wrong.  A reply that opens a fence and
    holds no line break makes [str.index] raise [ValueError]: neither
    [_extract_json] nor [_parse_scores] decodes anything, and
    [_parse_scores] raises instead of falling back, its handler being for
    [json.JSONDecodeError] only.  A reply that opens a fence and never
    closes it loses its whole body: the last fence found is the opening
    one, the text left to decode is empty, and [_parse_scores] falls back
    to unscored matches when the decoder rejects the empty text. *)
Theorem broken_fences (text : string) (candidates : list CandidateProfile) :
  (PyStr.starts_with FENCE (PyStr.strip text) = true ->
   PyStr.mem "010" (PyStr.strip text) = false ->
   strip_fences text = Raised ValueError
   /\ _extract_json json_loads text = Raised ValueError
   /\ _parse_scores json_loads validate_score validate_reasoning
        validate_strings text candidates = Raised ValueError)
  /\ (forall rest,
        PyStr.strip text = FENCE +:+ rest ->
        PyStr.mem "`" rest = false ->
        PyStr.mem "010" rest = true ->
        strip_fences text = Returned EmptyString
        /\ _extract_json json_loads text = json_loads EmptyString
        /\ (json_loads EmptyString = Raised JSONDecodeError ->
            _parse_scores json_loads validate_score validate_reasoning
              validate_strings text candidates
            = Returned (unscored <$> candidates))).
Proof.
  split.
  - intros Hfence Hline.
    assert (Hs : strip_fences text = Raised ValueError).
    { unfold strip_fences, NEWLINE. rewrite Hfence.
      by rewrite (str_index_char_none "010" _ Hline). }
    split; [done|]. split; [|by apply parse_scores_stripped].
    unfold _extract_json. by rewrite Hs.
  - intros rest Htext Htick Hnl.
    pose proof (strip_fences_unclosed text rest Htext Htick Hnl) as Hs.
    split; [done|]. split.
    + unfold _extract_json. by rewrite Hs.
    + intros Hj. by eapply parse_scores_undecodable.
Qed.
End RankerFacts.

Lemma broken_fences_witness :
  strip_fences "```[]```" = Raised ValueError
  /\ _extract_json no_json "```[]```" = Raised ValueError
  /\ _parse_scores no_json plain_score plain_string plain_strings
       "```[]```" [alice; bob] = Raised ValueError.
Proof.
  apply (proj1 (broken_fences no_json plain_score plain_string plain_strings
                  "```[]```" [alice; bob])); reflexivity.
Defined.

Section ScoreFacts.
Variable json_loads : string -> outcome jval.
Variable validate_score : jval -> option Q.
Variable validate_reasoning : jval -> option string.
Variable validate_strings : jval -> option (list string).

Lemma scored_candidate score_map c m :
  scored validate_score validate_reasoning validate_strings score_map c
    = Returned m ->
  candidate m = c.
Proof.
  unfold scored.
  repeat match goal with
         | |- context [match ?v with Some _ => _ | None => _ end] => destruct v
         end; try done.
  by intros [= <-].
Qed.

Lemma scored_raises score_map c e :
  scored validate_score validate_reasoning validate_strings score_map c
    = Raised e ->
  e = ValueError.
Proof.
  unfold scored.
  repeat match goal with
         | |- context [match ?v with Some _ => _ | None => _ end] => destruct v
         end; try done; by intros [= <-].
Qed.

Lemma scored_all_run score_map candidates :
  forall matches r,
    scored_all validate_score validate_reasoning validate_strings score_map
      candidates matches = r ->
    match r with
    | Returned result =>
        exists more,
          result = matches ++ more
          /\ Forall2 (fun c m =>
                        scored validate_score validate_reasoning validate_strings
                          score_map c = Returned m) candidates more
    | Raised e => e = ValueError
    end.
Proof.
  induction candidates as [|c rest IH]; intros matches r; simpl.
  - intros <-. exists []. by rewrite app_nil_r.
  - destruct (scored _ _ _ score_map c) as [m|e] eqn:Hc.
    + intros Hr. apply IH in Hr. destruct r as [result|e]; [|done].
      destruct Hr as (more & -> & Hmore). exists (m :: more).
      rewrite <- app_assoc. split; [done|]. by constructor.
    + intros <-. by apply scored_raises in Hc.
Qed.

Lemma score_map_step_raises score_map s e :
  score_map_step score_map s = Raised e -> exists what, e = OtherError what.
Proof.
  unfold score_map_step. destruct s as [ |b|x| |str|items|d];
    try (intros [= <-]; eauto).
  destruct (dict_get d "profile_url" (JStr "")); try done; intros [= <-]; eauto.
Qed.

Lemma build_score_map_run items :
  forall score_map r,
    build_score_map items score_map = r ->
    match r with
    | Returned result =>
        forall url,
          result !! url
          = match omap (entry_for url) items with
            | [] => score_map !! url
            | d :: ds => Some (List.last ds d)
            end
    | Raised e => exists what, e = OtherError what
    end.
Proof.
  induction items as [|s rest IH]; intros score_map r; simpl.
  - by intros <-.
  - destruct (score_map_step score_map s) as [score_map'|e] eqn:Hs.
    2:{ intros <-. by eapply score_map_step_raises. }
    intros Hr. apply IH in Hr. destruct r as [result|e]; [|done].
    intros url. rewrite (Hr url). clear Hr IH.
    change (omap (entry_for url) (s :: rest))
      with (match entry_for url s with
            | Some d => d :: omap (entry_for url) rest
            | None => omap (entry_for url) rest
            end).
    unfold score_map_step in Hs. unfold entry_for at 2.
    destruct s as [ |b|x| |str|items|d]; try done.
    destruct (dict_get d "profile_url" (JStr "")) as [ |b|x| |u|items|d'];
      try done; try (injection Hs as <-; reflexivity).
    injection Hs as <-.
    destruct (String.eqb_spec u url) as [->|Hne].
    + rewrite lookup_insert_eq.
      change (list_omap jval jdict (entry_for url) rest)
        with (omap (entry_for url) rest).
      destruct (omap (entry_for url) rest) as [|d0 ds]; [done|].
      by rewrite last_cons_default.
    + by rewrite lookup_insert_ne by done.
Qed.

Lemma scored_ext score_map score_map' c :
  default [] (score_map !! profile_url c) = default [] (score_map' !! profile_url c) ->
  scored validate_score validate_reasoning validate_strings score_map c
  = scored validate_score validate_reasoning validate_strings score_map' c.
Proof.
  unfold scored, default. intros Heq.
  destruct (score_map !! profile_url c), (score_map' !! profile_url c);
    simpl in Heq; by subst.
Qed.

(** What [_parse_scores] returns and raises. *)
Lemma parse_scores_run (text : string) (candidates : list CandidateProfile) :
  match _parse_scores json_loads validate_score validate_reasoning
          validate_strings text candidates with
  | Returned matches => candidate <$> matches = candidates
  | Raised e => e <> JSONDecodeError
  end.
Proof.
  unfold _parse_scores.
  destruct (strip_fences text) as [stripped|e] eqn:Hs.
  2:{ unfold strip_fences in Hs. destruct (PyStr.starts_with _ _); [|done].
      destruct (str_index _ _); [done|]. by injection Hs as <-. }
  destruct (json_loads stripped) as [scores|e] eqn:Hj.
  2:{ destruct (is_JSONDecodeError e) eqn:He; [|by destruct e].
      rewrite <- list_fmap_compose. by rewrite list_fmap_id. }
  destruct (iterate scores) as [items|e] eqn:Hi.
  2:{ destruct scores; try done; by injection Hi as <-. }
  destruct (build_score_map items ∅) as [score_map|e] eqn:Hm.
  2:{ apply build_score_map_run in Hm as [what ->]. done. }
  destruct (scored_all _ _ _ score_map candidates []) as [matches|e] eqn:Ha.
  - apply scored_all_run in Ha as (more & -> & Hmore). simpl.
    induction Hmore as [|c m cs ms Hc _ IH]; [done|].
    rewrite fmap_cons, IH. f_equal. by eapply scored_candidate.
  - by apply scored_all_run in Ha as ->.
Qed.


(** X21. Whatever the reply says, [_parse_scores] returns, when it returns,
    exactly one match per candidate of the batch, in the order of the
    batch: entries about unknown profiles are ignored and candidates the
    reply does not mention are kept.  An exception it raises is never the
    decoder's [JSONDecodeError], which is the one it handles. *)
Theorem parse_scores_keeps_the_batch
    (text : string) (candidates : list CandidateProfile) :
  match _parse_scores json_loads validate_score validate_reasoning
          validate_strings text candidates with
  | Returned matches => candidate <$> matches = candidates
  | Raised e => e <> JSONDecodeError
  end.
Proof.
  unfold _parse_scores.
  destruct (strip_fences text) as [stripped|e] eqn:Hs.
  2:{ unfold strip_fences in Hs. destruct (PyStr.starts_with _ _); [|done].
      destruct (str_index _ _); [done|]. by injection Hs as <-. }
  destruct (json_loads stripped) as [scores|e] eqn:Hj.
  2:{ destruct (is_JSONDecodeError e) eqn:He; [|by destruct e].
      rewrite <- list_fmap_compose. by rewrite list_fmap_id. }
  destruct (iterate scores) as [items|e] eqn:Hi.
  2:{ destruct scores; try done; by injection Hi as <-. }
  destruct (build_score_map items ∅) as [score_map|e] eqn:Hm.
  2:{ apply build_score_map_run in Hm as [what ->]. done. }
  destruct (scored_all _ _ _ score_map candidates []) as [matches|e] eqn:Ha.
  - apply scored_all_run in Ha as (more & -> & Hmore). simpl.
    induction Hmore as [|c m cs ms Hc _ IH]; [done|].
    rewrite fmap_cons, IH. f_equal. by eapply scored_candidate.
  - by apply scored_all_run in Ha as ->.
Qed.

(** X22. When the reply decodes to an array, the match of a candidate is
    built from the last entry of the array whose [profile_url] is the URL
    of the candidate, and from the defaults when there is none: an entry
    repeated for one profile overrides the earlier ones, and entries for
    other profiles play no part. *)
Theorem last_entry_wins
    (text stripped : string) (items : list jval)
    (candidates : list CandidateProfile) (matches : list CandidateMatch) :
  strip_fences text = Returned stripped ->
  json_loads stripped = Returned (JList items) ->
  _parse_scores json_loads validate_score validate_reasoning validate_strings
    text candidates = Returned matches ->
  Forall2
    (fun c m =>
       scored validate_score validate_reasoning validate_strings
         {[ profile_url c := last_entry_for (profile_url c) items ]} c
       = Returned m)
    candidates matches.
Proof.
  intros Hs Hj. unfold _parse_scores. rewrite Hs, Hj. cbn [iterate].
  destruct (build_score_map items ∅) as [score_map|e] eqn:Hm; [|done].
  pose proof (build_score_map_run _ _ _ Hm) as Hmap. cbv beta iota in Hmap.
  intros Ha. apply scored_all_run in Ha as (more & -> & Hmore). simpl.
  eapply Forall2_impl; [exact Hmore|].
  intros c m <-. apply scored_ext.
  rewrite (Hmap (profile_url c)), lookup_singleton_eq.
  unfold last_entry_for.
  destruct (omap (entry_for (profile_url c)) items) as [|d ds]; [done|].
  cbn [default]. by rewrite last_cons_default.
Qed.
End ScoreFacts.

Lemma parse_scores_keeps_the_batch_witness :
  candidate <$> (unscored <$> [alice; bob]) = [alice; bob].
Proof.
  exact (parse_scores_keeps_the_batch no_json plain_score plain_string
           plain_strings "not valid json {{{" [alice; bob]).
Defined.

Lemma last_entry_wins_witness :
  Forall2
    (fun c m =>
       scored plain_score plain_string plain_strings
         {[ profile_url c := last_entry_for (profile_url c) sample_reply ]} c
       = Returned m)
    [alice; bob] sample_matches.
Proof.
  apply (last_entry_wins sample_loads plain_score plain_string plain_strings
           "[...]" "[...]" sample_reply [alice; bob] sample_matches);
    reflexivity.
Defined.

(* ================================================================== *)
(** * Ranking: batches and the final sort *)
(* ================================================================== *)

Lemma insert_by_score_perm m l : insert_by_score m l ≡ₚ m :: l.
Proof.
  induction l as [|x l IH]; [done|]. simpl.
  destruct (Qle_bool (overall_score m) (overall_score x)); [|done].
  rewrite IH. apply Permutation_swap.
Qed.

Lemma sort_by_score_snoc l m :
  sort_by_score (l ++ [m]) = insert_by_score m (sort_by_score l).
Proof. unfold sort_by_score. by rewrite fold_left_app. Qed.

Lemma sort_by_score_perm l : sort_by_score l ≡ₚ l.
Proof.
  induction l as [|m l IH] using rev_ind; [done|].
  rewrite sort_by_score_snoc, insert_by_score_perm, IH.
  by rewrite Permutation_app_comm.
Qed.

Lemma insert_by_score_sorted m l :
  sorted_desc l -> sorted_desc (insert_by_score m l).
Proof.
  induction l as [|x l IH]; [done|]. intros [Hx Hl]. simpl.
  destruct (Qle_bool (overall_score m) (overall_score x)) eqn:Hmx.
  - apply QArith_base.Qle_bool_iff in Hmx. split; [|by apply IH].
    rewrite insert_by_score_perm. by constructor.
  - assert (Hlt : QArith_base.Qlt (overall_score x) (overall_score m)).
    { apply QArith_base.Qnot_le_lt. intros Hle.
      apply QArith_base.Qle_bool_iff in Hle. congruence. }
    apply QArith_base.Qlt_le_weak in Hlt. split; [|done].
    constructor; [done|].
    eapply Forall_impl; [exact Hx|]. intros b Hb. simpl in Hb.
    by eapply QArith_base.Qle_trans.
Qed.

Lemma sort_by_score_sorted l : sorted_desc (sort_by_score l).
Proof.
  induction l as [|m l IH] using rev_ind; [done|].
  rewrite sort_by_score_snoc. by apply insert_by_score_sorted.
Qed.

Lemma sorted_desc_descending l : sorted_desc l -> descending l.
Proof.
  induction l as [|x l IH]; intros Hl i j a b Hij Ha Hb; [done|].
  destruct Hl as [Hx Hl]. destruct j as [|j]; [lia|].
  simpl in Hb. destruct i as [|i].
  - injection Ha as <-. rewrite Forall_forall in Hx. apply Hx.
    by eapply list_elem_of_lookup_2.
  - simpl in Ha. eapply (IH Hl i j); [lia|done|done].
Qed.

Lemma with_score_insert q m l :
  sorted_desc l ->
  with_score q (insert_by_score m l)
  = if Qeq_bool (overall_score m) q then with_score q l ++ [m]
    else with_score q l.
Proof.
  unfold with_score. induction l as [|x l IH]; intros Hl.
  - simpl. by destruct (Qeq_bool (overall_score m) q).
  - destruct Hl as [Hx Hl]. cbn [insert_by_score].
    destruct (Qle_bool (overall_score m) (overall_score x)) eqn:Hmx.
    + cbn [List.filter]. rewrite (IH Hl).
      by destruct (Qeq_bool (overall_score x) q), (Qeq_bool (overall_score m) q).
    + assert (Hlt : QArith_base.Qlt (overall_score x) (overall_score m)).
      { apply QArith_base.Qnot_le_lt. intros Hle.
        apply QArith_base.Qle_bool_iff in Hle. congruence. }
      cbn [List.filter]. destruct (Qeq_bool (overall_score m) q) eqn:Hmq; [|done].
      apply QArith_base.Qeq_bool_iff in Hmq.
      assert (Hnone : forall y, y ∈ x :: l -> Qeq_bool (overall_score y) q = false).
      { intros y Hy. destruct (Qeq_bool (overall_score y) q) eqn:Hyq; [|done].
        exfalso. apply QArith_base.Qeq_bool_iff in Hyq.
        assert (Hyx : Qle (overall_score y) (overall_score x)).
        { apply elem_of_cons in Hy as [->|Hy]; [apply QArith_base.Qle_refl|].
          rewrite Forall_forall in Hx. by apply Hx. }
        assert (Hym : Qeq (overall_score m) (overall_score y)).
        { eapply QArith_base.Qeq_trans; [exact Hmq|].
          by apply QArith_base.Qeq_sym. }
        eapply QArith_base.Qlt_irrefl.
        eapply QArith_base.Qle_lt_trans; [|exact Hlt].
        eapply QArith_base.Qle_trans; [|exact Hyx].
        apply QArith_base.Qle_lteq. right. exact Hym. }
      rewrite (Hnone x) by by left.
      assert (Hl' : List.filter (fun m0 => Qeq_bool (overall_score m0) q) l = []).
      { apply filter_none_matching. apply Forall_forall. intros y Hy.
        apply Hnone. by right. }
      by rewrite Hl'.
Qed.

Lemma sort_by_score_stable q l :
  with_score q (sort_by_score l) = with_score q l.
Proof.
  induction l as [|m l IH] using rev_ind; [done|].
  rewrite sort_by_score_snoc, with_score_insert by apply sort_by_score_sorted.
  rewrite IH. unfold with_score. rewrite List.filter_app. simpl.
  destruct (Qeq_bool (overall_score m) q); [done|]. by rewrite app_nil_r.
Qed.

(** A list whose matches all have one score is left as it is. *)
Lemma sort_by_score_constant q l :
  Forall (fun m => Qeq_bool (overall_score m) q = true) l ->
  sort_by_score l = l.
Proof.
  intros Hl.
  assert (Hall : forall l', Forall (fun m => Qeq_bool (overall_score m) q = true) l' ->
                            with_score q l' = l').
  { intros l' Hl'. unfold with_score. induction Hl' as [|x l' Hx _ IH]; [done|].
    simpl. by rewrite Hx, IH. }
  rewrite <- (Hall (sort_by_score l)).
  - by rewrite sort_by_score_stable, Hall.
  - by rewrite sort_by_score_perm.
Qed.

(** The batches cover the candidates. *)
Lemma batches_cover {A} (b count : nat) :
  forall l : list A,
    (length l <= count * b)%nat ->
    concat ((fun i => take b (drop i l)) <$> ((fun k => (k * b)%nat) <$> seq 0 count))
    = l.
Proof.
  induction count as [|count IH]; intros l Hlen.
  - simpl in *. by destruct l; [|simpl in Hlen; lia].
  - cbn [seq]. rewrite <- seq_shift. rewrite !fmap_cons. cbn [concat].
    rewrite Nat.mul_0_l, drop_0.
    rewrite <- !list_fmap_compose.
    rewrite <- (take_drop b l) at 2. f_equal.
    transitivity
      (concat ((fun i => take b (drop i (drop b l)))
                 <$> ((fun k => (k * b)%nat) <$> seq 0 count))).
    + f_equal. rewrite <- list_fmap_compose.
      apply list_fmap_ext. intros _ k _. simpl.
      rewrite drop_drop. do 2 f_equal; lia.
    + apply IH. rewrite length_drop. lia.
Qed.

Lemma batch_count_enough (n : nat) (batch_size : Z) :
  0 < batch_size ->
  (n <= batch_count n batch_size * Z.to_nat batch_size)%nat.
Proof.
  intros Hb. unfold batch_count.
  pose proof (Nat.mul_succ_div_gt (n + Z.to_nat batch_size - 1) (Z.to_nat batch_size))
    as Hdiv.
  assert (Hne : Z.to_nat batch_size <> 0%nat) by lia.
  specialize (Hdiv Hne).
  set (q := Nat.div (n + Z.to_nat batch_size - 1) (Z.to_nat batch_size)) in *.
  nia.
Qed.

Section RankFacts.
Variable JobRequirements : Type.
Variable json_loads : string -> outcome jval.
Variable llm : nat -> prompt -> string -> outcome string.
Variable validate_score : jval -> option Q.
Variable validate_reasoning : jval -> option string.
Variable validate_strings : jval -> option (list string).
Variable ranking_message : JobRequirements -> list CandidateProfile -> string.

(** A run of the loop over the batches. *)
Lemma rank_batches_run starts batch_size candidates requirements :
  forall all_matches calls r calls',
    rank_batches JobRequirements json_loads llm validate_score
      validate_reasoning validate_strings ranking_message
      starts batch_size candidates requirements all_matches calls = (r, calls') ->
    (calls <= calls' <= calls + length starts)%nat
    /\ match r with
       | Returned result =>
           calls' = (calls + length starts)%nat
           /\ candidate <$> result
              = (candidate <$> all_matches)
                ++ concat ((fun i => take (Z.to_nat batch_size) (drop i candidates))
                             <$> starts)
       | Raised e => (calls < calls')%nat
       end.
Proof.
  induction starts as [|i rest IH]; intros all_matches calls r calls'.
  - intros [= <- <-]. simpl. split; [lia|]. split; [lia|]. by rewrite app_nil_r.
  - cbn [rank_batches]. cbv zeta.
    destruct (llm calls RANKING_SYSTEM _) as [content|e].
    2:{ intros [= <- <-]. simpl. split; lia. }
    pose proof (parse_scores_run json_loads validate_score validate_reasoning
                  validate_strings content
                  (take (Z.to_nat batch_size) (drop i candidates))) as Hbatch.
    destruct (_parse_scores _ _ _ _ content _) as [scored_batch|e].
    2:{ intros [= <- <-]. simpl. split; lia. }
    intros Hrest. apply IH in Hrest as [Hcalls Hr]. simpl.
    split; [lia|]. destruct r as [result|e]; [|lia].
    destruct Hr as [-> Hr]. split; [lia|].
    by rewrite Hr, fmap_app, Hbatch, <- app_assoc.
Qed.

(** What [rank_candidates] returns, by the sign of the batch size. *)
Lemma rank_candidates_run
    (candidates : list CandidateProfile) (requirements : JobRequirements)
    (batch_size : Z) (calls : nat) :
  let run := rank_candidates JobRequirements json_loads llm validate_score
               validate_reasoning validate_strings ranking_message
               candidates requirements batch_size calls in
  (0 < batch_size ->
   forall ranked calls',
     run = (Returned ranked, calls') ->
     exists all_matches,
       candidate <$> all_matches = candidates
       /\ ranked ≡ₚ all_matches
       /\ descending ranked
       /\ (forall q, with_score q ranked = with_score q all_matches)
       /\ calls' = (calls + batch_count (length candidates) batch_size)%nat)
  /\ (candidates <> [] -> batch_size = 0 -> run = (Raised ValueError, calls))
  /\ (batch_size < 0 -> run = (Returned [], calls)).
Proof.
  intros run. unfold run, rank_candidates. split; [|split].
  - intros Hb ranked calls'. destruct candidates as [|c cs] eqn:Hcs.
    { intros [= <- <-]. exists []. unfold batch_count. simpl length.
      rewrite Nat.div_small by lia. split; [done|]. split; [done|].
      split; [by intros i j a b _ Ha|]. split; [done | lia]. }
    rewrite <- Hcs. unfold py_range.
    rewrite (proj2 (Z.eqb_neq _ _)) by lia.
    rewrite (proj2 (Z.ltb_ge _ _)) by lia.
    fold (batch_count (length candidates) batch_size).
    destruct (rank_batches _ _ _ _ _ _ _ _ _ _ _ _ _) as [[all_matches|e] calls1]
      eqn:Hrun; [|done].
    intros [= <- <-].
    apply rank_batches_run in Hrun as (_ & -> & Hall).
    rewrite length_fmap, length_seq in *. simpl in Hall.
    rewrite batches_cover in Hall
      by (by apply batch_count_enough).
    exists all_matches. split; [done|].
    split; [apply sort_by_score_perm|].
    split; [apply sorted_desc_descending, sort_by_score_sorted|].
    split; [intros q; apply sort_by_score_stable | done].
  - intros Hne ->. destruct candidates; done.
  - intros Hb. destruct candidates as [|c cs]; [done|]. unfold py_range.
    rewrite (proj2 (Z.eqb_neq _ _)) by lia.
    by rewrite (proj2 (Z.ltb_lt _ _)) by lia.
Qed.

(** X23. With a batch size of one or more, [rank_candidates] calls the
    language model once per batch and returns every candidate exactly
    once.  The list is in the order of decreasing overall score, and the
    sort is stable: matches of equal score stand in the order of the
    candidates.  A batch size of zero makes it raise [ValueError], and a
    negative one makes it return nothing at all, in both cases without a
    call of the language model. *)
Theorem ranking_is_a_stable_sort
    (candidates : list CandidateProfile) (requirements : JobRequirements)
    (batch_size : Z) (calls : nat) :
  let run := rank_candidates JobRequirements json_loads llm validate_score
               validate_reasoning validate_strings ranking_message
               candidates requirements batch_size calls in
  (0 < batch_size ->
   forall ranked calls',
     run = (Returned ranked, calls') ->
     exists all_matches,
       candidate <$> all_matches = candidates
       /\ ranked ≡ₚ all_matches
       /\ descending ranked
       /\ (forall q, with_score q ranked = with_score q all_matches)
       /\ calls' = (calls + batch_count (length candidates) batch_size)%nat)
  /\ (candidates <> [] -> batch_size = 0 -> run = (Raised ValueError, calls))
  /\ (batch_size < 0 -> run = (Returned [], calls)).
Proof.
  intros run. unfold run, rank_candidates. split; [|split].
  - intros Hb ranked calls'. destruct candidates as [|c cs] eqn:Hcs.
    { intros [= <- <-]. exists []. unfold batch_count. simpl length.
      rewrite Nat.div_small by lia. split; [done|]. split; [done|].
      split; [by intros i j a b _ Ha|]. split; [done | lia]. }
    rewrite <- Hcs. unfold py_range.
    rewrite (proj2 (Z.eqb_neq _ _)) by lia.
    rewrite (proj2 (Z.ltb_ge _ _)) by lia.
    fold (batch_count (length candidates) batch_size).
    destruct (rank_batches _ _ _ _ _ _ _ _ _ _ _ _ _) as [[all_matches|e] calls1]
      eqn:Hrun; [|done].
    intros [= <- <-].
    apply rank_batches_run in Hrun as (_ & -> & Hall).
    rewrite length_fmap, length_seq in *. simpl in Hall.
    rewrite batches_cover in Hall
      by (by apply batch_count_enough).
    exists all_matches. split; [done|].
    split; [apply sort_by_score_perm|].
    split; [apply sorted_desc_descending, sort_by_score_sorted|].
    split; [intros q; apply sort_by_score_stable | done].
  - intros Hne ->. destruct candidates; done.
  - intros Hb. destruct candidates as [|c cs]; [done|]. unfold py_range.
    rewrite (proj2 (Z.eqb_neq _ _)) by lia.
    by rewrite (proj2 (Z.ltb_lt _ _)) by lia.
Qed.

(** X24. When no reply can be decoded, ranking changes nothing: every
    candidate comes back with the score 0, in the order it was given, a
    batch after the other. *)
Theorem undecodable_replies_keep_the_order
    (candidates : list CandidateProfile) (requirements : JobRequirements)
    (batch_size : Z) (calls : nat) :
  0 < batch_size ->
  (forall n message,
      exists content stripped,
        llm n RANKING_SYSTEM message = Returned content
        /\ strip_fences content = Returned stripped
        /\ json_loads stripped = Raised JSONDecodeError) ->
  rank_candidates JobRequirements json_loads llm validate_score
    validate_reasoning validate_strings ranking_message
    candidates requirements batch_size calls
  = (Returned (unscored <$> candidates),
     if candidates is [] then calls
     else (calls + batch_count (length candidates) batch_size)%nat).
Proof.
  intros Hb Hllm.
  assert (Hloop : forall starts all_matches calls0,
    rank_batches JobRequirements json_loads llm validate_score
      validate_reasoning validate_strings ranking_message
      starts batch_size candidates requirements all_matches calls0
    = (Returned (all_matches
                 ++ (unscored <$> concat ((fun i => take (Z.to_nat batch_size)
                                                      (drop i candidates))
                                            <$> starts))),
       (calls0 + length starts)%nat)).
  { induction starts as [|i rest IH]; intros all_matches calls0.
    - simpl. by rewrite app_nil_r, Nat.add_0_r.
    - cbn [rank_batches]. cbv zeta.
      destruct (Hllm calls0 (ranking_message requirements
                               (take (Z.to_nat batch_size) (drop i candidates))))
        as (content & stripped & -> & Hs & Hj).
      rewrite (parse_scores_undecodable json_loads validate_score
                 validate_reasoning validate_strings _ _ _ Hs Hj).
      rewrite IH. simpl. rewrite fmap_app, <- app_assoc. do 2 f_equal. lia. }
  unfold rank_candidates. destruct candidates as [|c cs]; [done|].
  cbv beta iota. set (cands := c :: cs) in *. unfold py_range.
  rewrite (proj2 (Z.eqb_neq _ _)) by lia.
  rewrite (proj2 (Z.ltb_ge _ _)) by lia.
  fold (batch_count (length cands) batch_size).
  rewrite Hloop, length_fmap, length_seq. cbn [app].
  rewrite batches_cover by (by apply batch_count_enough).
  f_equal. f_equal. apply (sort_by_score_constant Q0).
  apply Forall_forall. intros m (c' & -> & _)%list_elem_of_fmap. done.
Qed.
End RankFacts.

Lemma ranking_is_a_stable_sort_witness :
  exists all_matches,
    candidate <$> all_matches = [bob; alice]
    /\ sample_matches ≡ₚ all_matches
    /\ descending sample_matches
    /\ (forall q, with_score q sample_matches
                  = with_score q all_matches)
    /\ 1%nat = (0 + batch_count (length [bob; alice]) 5)%nat.
Proof.
  apply (proj1 (ranking_is_a_stable_sort unit sample_loads (constant_llm "[]")
                  plain_score plain_string plain_strings no_message
                  [bob; alice] tt 5 0));
    [lia | reflexivity].
Defined.

Lemma undecodable_replies_keep_the_order_witness :
  rank_candidates unit no_json (constant_llm "not valid json {{{")
    plain_score plain_string plain_strings no_message
    [alice; bob] tt 5 0
  = (Returned [unscored alice; unscored bob], 1%nat).
Proof.
  apply (undecodable_replies_keep_the_order unit no_json
           (constant_llm "not valid json {{{") plain_score plain_string
           plain_strings no_message [alice; bob] tt 5 0); [lia|].
  intros n message. by exists "not valid json {{{", "not valid json {{{".
Defined.

(* ================================================================== *)
(** * The pipeline end to end *)
(* ================================================================== *)

Lemma py_slice_to_descending (matches : list CandidateMatch) (n : Z) :
  descending matches -> descending (py_slice_to matches n).
Proof.
  intros Hd i j a b Hij Ha Hb.
  destruct (py_slice_to_prefix matches n) as [rest Hrest].
  apply (Hd i j a b Hij); rewrite Hrest; by apply lookup_app_l_Some.
Qed.

Lemma build_search_keywords_last criteria loc rest :
  locations criteria = loc :: rest ->
  last (_build_search_keywords criteria)
  = Some (PyStr.join " " (take 3 (keywords criteria)) +:+ " " +:+ loc).
Proof.
  intros Hloc. rewrite build_search_keywords_refines. unfold spec_build_queries.
  rewrite Hloc. by rewrite last_snoc.
Qed.

Section AgentFacts.
Variable JobRequirements : Type.
Variable json_loads : string -> outcome jval.
Variable llm : nat -> prompt -> string -> outcome string.
Variable validate_score : jval -> option Q.
Variable validate_reasoning : jval -> option string.
Variable validate_strings : jval -> option (list string).
Variable validate_requirements : jval -> outcome JobRequirements.
Variable validate_criteria : jval -> outcome SearchCriteria.
Variable dump_requirements : JobRequirements -> string.
Variable ranking_message : JobRequirements -> list CandidateProfile -> string.

Let parse := parse_job_description JobRequirements json_loads llm
               validate_requirements.
Let derive := derive_search_criteria JobRequirements json_loads llm
                validate_criteria dump_requirements.
Let rank := rank_candidates JobRequirements json_loads llm validate_score
              validate_reasoning validate_strings ranking_message.
Let find crawler_search :=
  find_candidates JobRequirements json_loads llm validate_score
    validate_reasoning validate_strings validate_requirements
    validate_criteria dump_requirements ranking_message crawler_search.

Lemma parse_job_description_calls raw_text calls r calls' :
  parse raw_text calls = (r, calls') -> calls' = S calls.
Proof.
  unfold parse, parse_job_description.
  destruct (llm calls PARSE_JOB_SYSTEM raw_text) as [content|e]; [|by intros [= _ <-]].
  destruct (_extract_json json_loads content); by intros [= _ <-].
Qed.

Lemma derive_search_criteria_calls requirements calls r calls' :
  derive requirements calls = (r, calls') -> calls' = S calls.
Proof.
  unfold derive, derive_search_criteria.
  destruct (llm calls SEARCH_CRITERIA_SYSTEM _) as [content|e]; [|by intros [= _ <-]].
  destruct (_extract_json json_loads content); by intros [= _ <-].
Qed.

(** The stages of a run of [find_candidates] that returns. *)
Lemma find_candidates_returns crawler_search request st response st' t :
  find crawler_search request st = (Returned response, st', t) ->
  exists requirements derived profiles queries ranked,
    parse (job_description request) (llm_calls st)
      = (Returned requirements, S (llm_calls st))
    /\ derive requirements (S (llm_calls st))
       = (Returned derived, S (S (llm_calls st)))
    /\ crawler_search (with_location_filter (location_filter request) derived)
         (max_candidates request * 2) (crawler_state st)
       = (Returned (profiles, queries), crawler_state st', t)
    /\ rank profiles requirements 5 (S (S (llm_calls st)))
       = (Returned ranked, llm_calls st')
    /\ response
       = {| job_requirements := requirements;
            search_criteria :=
              with_location_filter (location_filter request) derived;
            candidates := py_slice_to ranked (max_candidates request);
            total_profiles_scanned := length profiles;
            search_queries_used := queries |}.
Proof.
  unfold find, find_candidates. fold parse derive rank.
  destruct (parse (job_description request) (llm_calls st))
    as [[requirements|e] calls1] eqn:Hparse; [|done].
  pose proof (parse_job_description_calls _ _ _ _ Hparse) as ->.
  destruct (derive requirements (S (llm_calls st)))
    as [[derived|e] calls2] eqn:Hderive; [|done].
  pose proof (derive_search_criteria_calls _ _ _ _ Hderive) as ->.
  destruct (crawler_search _ _ _) as [[[[profiles queries]|e] w] t1] eqn:Hcrawl;
    [|done].
  destruct (rank profiles requirements 5 (S (S (llm_calls st))))
    as [[ranked|e] calls3] eqn:Hrank; [|done].
  intros [= <- <- <-]. by exists requirements, derived, profiles, queries, ranked.
Qed.

(** X25. What one run of the pipeline costs and returns, the request
    asking for 1 to 50 candidates as its model demands.  The crawler is
    asked for twice as many profiles; the response holds at most the
    number of candidates asked for and no more than the profiles scanned,
    with pairwise distinct URLs and in the order of decreasing score; the
    queries reported are those of the criteria reported.  The
    run sends at most nine requests and calls the language model twice
    for the parsing and once per batch of five profiles, at most 22 times
    in all. *)
Theorem pipeline_result_bounds
    (net : nat -> request -> http_result) (unquote : string -> string)
    (bracketed_ok nfkc_ok : string -> bool) (soup_select : string -> list a_tag)
    (li_at_cookie : option string) (req : FindCandidatesRequest)
    (st st' : agent_state) (response : FindCandidatesResponse JobRequirements)
    (t : list event) :
  1 <= max_candidates req <= 50 ->
  find (LinkedInCrawler_search net unquote bracketed_ok nfkc_ok soup_select
          li_at_cookie) req st = (Returned response, st', t) ->
  Z.of_nat (length (candidates _ response)) <= max_candidates req
  /\ Z.of_nat (total_profiles_scanned _ response) <= 2 * max_candidates req
  /\ (length (candidates _ response) <= total_profiles_scanned _ response)%nat
  /\ NoDup (profile_url <$> (candidate <$> candidates _ response))
  /\ descending (candidates _ response)
  /\ search_queries_used _ response
     = _build_search_keywords (search_criteria _ response)
  /\ (length (requests_of t) <= 9)%nat
  /\ llm_calls st'
     = (llm_calls st + 2 + batch_count (total_profiles_scanned _ response) 5)%nat
  /\ (llm_calls st' <= llm_calls st + 22)%nat.
Proof.
  intros Hmax Hrun.
  apply find_candidates_returns in Hrun
    as (requirements & derived & profiles & queries & ranked
        & _ & _ & Hcrawl & Hrank & ->).
  cbn [candidates total_profiles_scanned search_queries_used search_criteria].
  pose proof (crawl_requests_run _ _ _ _ _ _ _ _ _ _ _ _ Hcrawl) as (_ & Hreq & _).
  apply crawl_returned_profiles in Hcrawl as (Hnd & Hlen & -> & _).
  destruct (rank_candidates_run JobRequirements json_loads llm validate_score
              validate_reasoning validate_strings ranking_message
              profiles requirements 5 (S (S (llm_calls st)))) as (Hpos & _).
  destruct (Hpos ltac:(lia) ranked (llm_calls st') Hrank)
    as (all_matches & Hall & Hperm & Hdesc & _ & Hcalls).
  assert (Hranked : length ranked = length profiles).
  { by rewrite Hperm, <- Hall, length_fmap. }
  pose proof (py_slice_to_sublist ranked (max_candidates req)) as Hsub.
  apply sublist_length in Hsub as Hsublen.
  split; [apply py_slice_to_length; lia|]. split; [lia|]. split; [lia|].
  split.
  { eapply sublist_NoDup; [|by apply fmap_sublist, fmap_sublist, Hsub].
    rewrite Hperm, Hall. exact Hnd. }
  split; [by apply py_slice_to_descending|]. split; [done|]. split; [done|].
  split; [lia|]. rewrite Hcalls.
  assert (Hbatches : (batch_count (length profiles) 5 < 21)%nat).
  { unfold batch_count. change (Z.to_nat 5) with 5%nat.
    apply Nat.Div0.div_lt_upper_bound. lia. }
  lia.
Qed.

(** X26. A location filter that is not empty leads the search: it is put
    before the locations derived from the job description in the criteria
    of the response, and since the query builder reads the first location
    only, the queries are those of the criteria with the filter as their
    single location, the last of them being the first three keywords
    followed by the filter.  The derived locations play no part in the
    search. *)
Theorem location_filter_leads_the_search
    (net : nat -> request -> http_result) (unquote : string -> string)
    (bracketed_ok nfkc_ok : string -> bool) (soup_select : string -> list a_tag)
    (li_at_cookie : option string) (req : FindCandidatesRequest)
    (st st' : agent_state) (response : FindCandidatesResponse JobRequirements)
    (t : list event) (c : ascii) (loc : string) :
  location_filter req = Some (String c loc) ->
  find (LinkedInCrawler_search net unquote bracketed_ok nfkc_ok soup_select
          li_at_cookie) req st = (Returned response, st', t) ->
  exists requirements derived,
    derive requirements (S (llm_calls st)) = (Returned derived, S (S (llm_calls st)))
    /\ locations (search_criteria _ response) = String c loc :: locations derived
    /\ keywords (search_criteria _ response) = keywords derived
    /\ titles (search_criteria _ response) = titles derived
    /\ search_queries_used _ response
       = _build_search_keywords (at_location (String c loc) derived)
    /\ last (search_queries_used _ response)
       = Some (PyStr.join " " (take 3 (keywords derived)) +:+ " "
               +:+ String c loc).
Proof.
  intros Hfilter Hrun.
  apply find_candidates_returns in Hrun
    as (requirements & derived & profiles & queries & ranked
        & _ & Hderive & Hcrawl & _ & ->).
  cbn [search_queries_used search_criteria].
  apply crawl_returned_profiles in Hcrawl as (_ & _ & -> & _).
  rewrite Hfilter. cbn [with_location_filter locations keywords titles].
  exists requirements, derived. split; [done|]. split; [done|].
  split; [done|]. split; [done|]. split.
  - by rewrite !build_search_keywords_refines.
  - by apply (build_search_keywords_last
                (with_location_filter (Some (String c loc)) derived)
                (String c loc) (locations derived)).
Qed.

(** X27. [find_candidates] handles no exception, and sends no request
    before the job description is parsed and the criteria are derived.
    When it raises, either one of the two parsing calls failed, and then
    nothing was requested and the crawler is as it was; or the crawl
    raised, which it does for no [httpx.HTTPError], after exactly two calls
    of the language model; or the ranking raised. *)
Theorem pipeline_stops_at_the_first_failure
    (net : nat -> request -> http_result) (unquote : string -> string)
    (bracketed_ok nfkc_ok : string -> bool) (soup_select : string -> list a_tag)
    (li_at_cookie : option string) (req : FindCandidatesRequest)
    (st st' : agent_state) (e : exn) (t : list event) :
  let crawler := LinkedInCrawler_search net unquote bracketed_ok nfkc_ok
                   soup_select li_at_cookie in
  find crawler req st = (Raised e, st', t) ->
  (t = [] /\ crawler_state st' = crawler_state st
   /\ (parse (job_description req) (llm_calls st) = (Raised e, llm_calls st')
       /\ llm_calls st' = S (llm_calls st)
       \/ exists requirements,
            derive requirements (S (llm_calls st)) = (Raised e, llm_calls st')
            /\ llm_calls st' = S (S (llm_calls st))))
  \/ (exists derived,
        crawler (with_location_filter (location_filter req) derived)
          (max_candidates req * 2) (crawler_state st)
        = (Raised e, crawler_state st', t)
        /\ is_HTTPError e = false
        /\ 0 < max_candidates req
        /\ llm_calls st' = S (S (llm_calls st)))
  \/ (exists requirements profiles,
        rank profiles requirements 5 (S (S (llm_calls st)))
        = (Raised e, llm_calls st')
        /\ profiles <> []
        /\ (S (S (llm_calls st)) < llm_calls st')%nat).
Proof.
  intros crawler. unfold find, find_candidates. fold parse derive rank.
  destruct (parse (job_description req) (llm_calls st))
    as [[requirements|e1] calls1] eqn:Hparse.
  2:{ intros [= <- <- <-]. left.
      pose proof (parse_job_description_calls _ _ _ _ Hparse) as ->.
      split; [done|]. split; [done|]. by left. }
  pose proof (parse_job_description_calls _ _ _ _ Hparse) as ->.
  destruct (derive requirements (S (llm_calls st)))
    as [[derived|e1] calls2] eqn:Hderive.
  2:{ intros [= <- <- <-]. left.
      pose proof (derive_search_criteria_calls _ _ _ _ Hderive) as ->.
      split; [done|]. split; [done|]. right. by exists requirements. }
  pose proof (derive_search_criteria_calls _ _ _ _ Hderive) as ->.
  destruct (crawler _ _ _) as [[[[profiles queries]|e1] w] t1] eqn:Hcrawl.
  2:{ intros [= <- <- <-]. right. left. exists derived. split; [done|].
      apply crawl_raised in Hcrawl as (Hhttp & _ & _ & Hmax).
      split; [done|]. split; [lia | done]. }
  destruct (rank profiles requirements 5 (S (S (llm_calls st))))
    as [[ranked|e1] calls3] eqn:Hrank; [done|].
  intros [= <- <- <-]. right. right. exists requirements, profiles.
  split; [done|]. cbn [llm_calls].
  unfold rank, rank_candidates in Hrank.
  destruct profiles as [|p ps]; [done|]. split; [done|].
  unfold py_range in Hrank. cbn [Z.eqb Z.ltb Z.compare] in Hrank.
  destruct (rank_batches _ _ _ _ _ _ _ _ _ _ _ _ _) as [[all_matches|e2] calls4]
    eqn:Hloop; [done|].
  injection Hrank as <- <-.
  by apply rank_batches_run in Hloop as [_ Hlt].
Qed.
End AgentFacts.

Lemma pipeline_result_bounds_witness :
  Z.of_nat (length (candidates _ sample_response)) <= 2
  /\ Z.of_nat (total_profiles_scanned _ sample_response) <= 2 * 2
  /\ (length (candidates _ sample_response)
      <= total_profiles_scanned _ sample_response)%nat
  /\ NoDup (profile_url <$> (candidate <$> candidates _ sample_response))
  /\ descending (candidates _ sample_response)
  /\ search_queries_used _ sample_response
     = _build_search_keywords (search_criteria _ sample_response)
  /\ (length (requests_of sample_trace) <= 9)%nat
  /\ llm_calls sample_agent_after
     = (llm_calls fresh_agent + 2
        + batch_count (total_profiles_scanned _ sample_response) 5)%nat
  /\ (llm_calls sample_agent_after <= llm_calls fresh_agent + 22)%nat.
Proof.
  apply (pipeline_result_bounds unit sample_loads (constant_llm "{}")
           plain_score plain_string plain_strings sample_requirements
           sample_derived (fun _ => EmptyString) no_message
           sample_net no_unquote accept_all accept_all (fun _ => [])
           (Some "li_at") sample_request fresh_agent);
    [simpl; lia | vm_compute; reflexivity].
Defined.

Lemma location_filter_leads_the_search_witness :
  exists requirements derived,
    derive_search_criteria unit sample_loads (constant_llm "{}") sample_derived
      (fun _ => EmptyString) requirements 1%nat
    = (Returned derived, 2%nat)
    /\ locations (search_criteria _ sample_response) = "Berlin" :: locations derived
    /\ keywords (search_criteria _ sample_response) = keywords derived
    /\ titles (search_criteria _ sample_response) = titles derived
    /\ search_queries_used _ sample_response
       = _build_search_keywords (at_location "Berlin" derived)
    /\ last (search_queries_used _ sample_response)
       = Some (PyStr.join " " (take 3 (keywords derived)) +:+ " " +:+ "Berlin").
Proof.
  apply (location_filter_leads_the_search unit sample_loads (constant_llm "{}")
           plain_score plain_string plain_strings sample_requirements
           sample_derived (fun _ => EmptyString) no_message
           sample_net no_unquote accept_all accept_all (fun _ => [])
           (Some "li_at") sample_request fresh_agent sample_agent_after
           sample_response sample_trace "B" "erlin");
    [reflexivity | vm_compute; reflexivity].
Defined.

Lemma pipeline_stops_at_the_first_failure_witness :
  let st' := {| crawler_state := fresh_world; llm_calls := 1 |} in
  let e := OtherError "APIConnectionError" in
  ([] = @nil event /\ crawler_state st' = crawler_state fresh_agent
   /\ (parse_job_description unit sample_loads dead_llm sample_requirements
         (job_description sample_request) (llm_calls fresh_agent)
       = (Raised e, llm_calls st')
       /\ llm_calls st' = S (llm_calls fresh_agent)
       \/ exists requirements,
            derive_search_criteria unit sample_loads dead_llm sample_derived
              (fun _ => EmptyString) requirements (S (llm_calls fresh_agent))
            = (Raised e, llm_calls st')
            /\ llm_calls st' = S (S (llm_calls fresh_agent))))
  \/ (exists derived,
        LinkedInCrawler_search dead_net no_unquote accept_all accept_all
          (fun _ => []) None
          (with_location_filter (location_filter sample_request) derived)
          (max_candidates sample_request * 2) (crawler_state fresh_agent)
        = (Raised e, crawler_state st', [])
        /\ is_HTTPError e = false
        /\ 0 < max_candidates sample_request
        /\ llm_calls st' = S (S (llm_calls fresh_agent)))
  \/ (exists requirements profiles,
        rank_candidates unit sample_loads dead_llm plain_score plain_string
          plain_strings no_message profiles requirements 5
          (S (S (llm_calls fresh_agent)))
        = (Raised e, llm_calls st')
        /\ profiles <> []
        /\ (S (S (llm_calls fresh_agent)) < llm_calls st')%nat).
Proof.
  intros st' e.
  apply (pipeline_stops_at_the_first_failure unit sample_loads dead_llm
           plain_score plain_string plain_strings sample_requirements
           sample_derived (fun _ => EmptyString) no_message
           dead_net no_unquote accept_all accept_all (fun _ => []) None
           sample_request fresh_agent st' e []).
  reflexivity.
Defined.

(* ================================================================== *)
(** * The credentials of the agent *)
(* ================================================================== *)

Lemma py_or_cases (a b : option string) (s : string) :
  py_or a b = Some s <->
  (a = Some s /\ s <> EmptyString) \/ (absent_or_empty a /\ b = Some s).
Proof.
  unfold py_or, absent_or_empty. destruct a as [[|c r]|]; simpl.
  - split; [intros ->; right; eauto | intros [[[= <-] ?]|[_ ->]]; done].
  - split; [intros [= <-]; left; done|].
    intros [[[= <-] _]|[[?|?] _]]; done.
  - split; [intros ->; right; eauto | intros [[? _]|[_ ->]]; done].
Qed.

(** X28. The agent starts exactly when a key of the language model that is
    not empty is given as an argument or, failing that, found in the
    environment, and raises [ValueError] otherwise.  Its crawler gets an
    authenticated client exactly when a cookie that is not empty is given
    or, failing that, found in the environment: an empty argument does not
    hide the environment. *)
Theorem agent_credentials
    (getenv : string -> option string)
    (anthropic_api_key linkedin_cookie : option string) :
  match CandidateFinderAgent_init getenv anthropic_api_key linkedin_cookie with
  | Returned (key, li_at) =>
      key <> EmptyString
      /\ (anthropic_api_key = Some key
          \/ (absent_or_empty anthropic_api_key
              /\ getenv "ANTHROPIC_API_KEY" = Some key))
      /\ forall cookie,
           LinkedInCrawler_authenticated li_at = Some cookie <->
           cookie <> EmptyString
           /\ (linkedin_cookie = Some cookie
               \/ (absent_or_empty linkedin_cookie
                   /\ getenv "LINKEDIN_LI_AT" = Some cookie))
  | Raised e =>
      e = ValueError
      /\ absent_or_empty anthropic_api_key
      /\ absent_or_empty (getenv "ANTHROPIC_API_KEY")
  end.
Proof.
  unfold CandidateFinderAgent_init.
  destruct (py_or anthropic_api_key (getenv "ANTHROPIC_API_KEY"))
    as [[|c key]|] eqn:Hkey.
  - split; [done|]. apply py_or_cases in Hkey as [[_ ?]|[? ->]]; [done|].
    split; [done | by right].
  - split; [done|]. split.
    { apply py_or_cases in Hkey as [[? _]|[? ?]]; [by left | by right]. }
    intros cookie. split.
    + intros Hauth.
      assert (Hc : py_or (py_or linkedin_cookie (getenv "LINKEDIN_LI_AT")) None
                   = Some cookie /\ cookie <> EmptyString).
      { destruct (py_or (py_or _ _) None) as [[|d r]|]; simpl in Hauth; try done.
        by injection Hauth as <-. }
      destruct Hc as [Hc Hne]. split; [done|].
      apply py_or_cases in Hc as [[Hc _]|[_ [=]]].
      apply py_or_cases in Hc as [[? _]|[? ?]]; [by left | by right].
    + intros [Hne Hsrc].
      assert (Hc : py_or linkedin_cookie (getenv "LINKEDIN_LI_AT") = Some cookie).
      { apply py_or_cases. destruct Hsrc as [?|[? ?]]; [by left | by right]. }
      rewrite Hc. destruct cookie; done.
  - split; [done|]. unfold py_or, absent_or_empty in *.
    destruct anthropic_api_key as [[|c r]|]; simpl in Hkey; try done.
    + split; [by right|]. destruct (getenv _) as [[|c r]|]; eauto; done.
    + split; [by left|]. destruct (getenv _) as [[|c r]|]; eauto; done.
Qed.

Lemma agent_credentials_witness :
  let getenv := fun name : string =>
                  if String.eqb name "LINKEDIN_LI_AT" then Some "AQEDAT" else None in
  "sk-test" <> EmptyString
  /\ (Some "sk-test" = Some "sk-test"
      \/ (absent_or_empty (Some "sk-test")
          /\ getenv "ANTHROPIC_API_KEY" = Some "sk-test"))
  /\ forall cookie,
       LinkedInCrawler_authenticated (Some "AQEDAT") = Some cookie <->
       cookie <> EmptyString
       /\ (Some EmptyString = Some cookie
           \/ (absent_or_empty (Some EmptyString)
               /\ getenv "LINKEDIN_LI_AT" = Some cookie)).
Proof.
  intros getenv.
  exact (agent_credentials getenv (Some "sk-test") (Some EmptyString)).
Defined.

(* ================================================================== *)
(** * What the crawler reads of the criteria *)
(* ================================================================== *)

Lemma crawl_reads_the_queries net unquote bracketed_ok nfkc_ok soup_select
    li_at_cookie criteria criteria' max_results w :
  _build_search_keywords criteria = _build_search_keywords criteria' ->
  LinkedInCrawler_search net unquote bracketed_ok nfkc_ok soup_select
    li_at_cookie criteria max_results w
  = LinkedInCrawler_search net unquote bracketed_ok nfkc_ok soup_select
      li_at_cookie criteria' max_results w.
Proof.
  intros Hq.
  assert (Hv : forall li_at,
    voyager_search_people net li_at criteria max_results
    = voyager_search_people net li_at criteria' max_results).
  { intros li_at. unfold voyager_search_people, voyager_accumulate.
    by rewrite Hq. }
  assert (Hg :
    google_search_people net unquote bracketed_ok nfkc_ok soup_select
      criteria max_results
    = google_search_people net unquote bracketed_ok nfkc_ok soup_select
        criteria' max_results).
  { unfold google_search_people, google_accumulate. by rewrite Hq. }
  unfold LinkedInCrawler_search, search, call_search_people.
  rewrite Hq, Hg.
  destruct (LinkedInCrawler_authenticated li_at_cookie) as [li_at|]; [|done].
  cbn [option_map]. by rewrite Hv.
Qed.

(** X29. A crawl reads the criteria through the query builder only: the
    first three titles, the first four keywords and the first location.
    Two criteria that agree on these give the same run, request for
    request; the companies, the industries and the flag [current_only]
    change nothing, and neither do further titles, keywords or
    locations. *)
Theorem crawl_ignores_unused_criteria
    (net : nat -> request -> http_result) (unquote : string -> string)
    (bracketed_ok nfkc_ok : string -> bool) (soup_select : string -> list a_tag)
    (li_at_cookie : option string) (criteria criteria' : SearchCriteria)
    (max_results : Z) (w : world) :
  take 3 (titles criteria) = take 3 (titles criteria') ->
  take 4 (keywords criteria) = take 4 (keywords criteria') ->
  head (locations criteria) = head (locations criteria') ->
  _build_search_keywords criteria = _build_search_keywords criteria'
  /\ LinkedInCrawler_search net unquote bracketed_ok nfkc_ok soup_select
       li_at_cookie criteria max_results w
     = LinkedInCrawler_search net unquote bracketed_ok nfkc_ok soup_select
         li_at_cookie criteria' max_results w.
Proof.
  intros Ht Hk Hl.
  assert (Hq : _build_search_keywords criteria = _build_search_keywords criteria').
  { rewrite !build_search_keywords_refines. unfold spec_build_queries.
    assert (Hk3 : take 3 (keywords criteria) = take 3 (keywords criteria')).
    { replace (take 3 (keywords criteria))
        with (take 3 (take 4 (keywords criteria))) by by rewrite take_take.
      rewrite Hk. by rewrite take_take. }
    rewrite Ht, Hk, Hk3.
    destruct (locations criteria) as [|l ls], (locations criteria') as [|l' ls'];
      simpl in Hl; try done. by injection Hl as ->. }
  split; [done|]. by apply crawl_reads_the_queries.
Qed.

Lemma crawl_ignores_unused_criteria_witness :
  let criteria' :=
    {| keywords := ["python"; "backend"]; titles := ["Backend Engineer"];
       locations := ["Boston"; "Paris"]; companies := ["BigCo"];
       industries := ["fintech"]; current_only := true |} in
  _build_search_keywords sample_criteria = _build_search_keywords criteria'
  /\ LinkedInCrawler_search sample_net no_unquote accept_all accept_all
       (fun _ => []) (Some "li_at") sample_criteria 25 fresh_world
     = LinkedInCrawler_search sample_net no_unquote accept_all accept_all
         (fun _ => []) (Some "li_at") criteria' 25 fresh_world.
Proof.
  intros criteria'.
  apply (crawl_ignores_unused_criteria sample_net no_unquote accept_all
           accept_all (fun _ => []) (Some "li_at") sample_criteria criteria'
           25 fresh_world); reflexivity.
Defined.
